(** * Replication engine of the content node: export, import (node sync),
      endpoint strings and service selection.

    The development embeds the JavaScript of
    - [creator-node/src/routes/nodeSync.js]  (the [/export], [/sync] and
      [/sync_status] routes and [_nodesync]),
    - [creator-node/src/routes/files.js] (stored paths and byte ranges),
    - [libs/src/services/creatorNode/CreatorNodeSelection.js] (the selector,
      the static endpoint helpers of [CreatorNode] and [syncSecondary])
    as Rocq functions.  Asynchronous code that touches the database, the lock
    store, the disk or the network is written in a state-and-exception monad
    over an explicit [World]; every external call can throw, as decided by an
    oracle of the environment, which describes the failures met while one
    request is served. *)

From stdpp Require Import base strings list gmap sorting.
From Stdlib Require Import ZArith Lia Ascii String.

Open Scope string_scope.
Open Scope list_scope.
Open Scope Z_scope.

(* ================================================================== *)
(** * Part I: the model                                                *)
(* ================================================================== *)

(** ** JavaScript helpers *)
Module JS.

(** [String.prototype.split(sep)] for a one-character separator. *)
Fixpoint split (sep : ascii) (s : string) : list string :=
  match s with
  | EmptyString => [EmptyString]
  | String c s' =>
      if Ascii.eqb c sep then EmptyString :: split sep s'
      else match split sep s' with
           | [] => [String c EmptyString]
           | t :: ts => String c t :: ts
           end
  end.

(** [Array.prototype.join(sep)]. *)
Fixpoint join (sep : string) (l : list string) : string :=
  match l with
  | [] => EmptyString
  | [x] => x
  | x :: rest => x +:+ sep +:+ join sep rest
  end.

(** Truthiness of a value that is a string or [undefined]/[null]. *)
Definition truthy (v : option string) : bool :=
  match v with
  | None | Some EmptyString => false
  | Some _ => true
  end.

(** [a || d] where [a] is the result of [parseInt] ([None] is [NaN]):
    [NaN] and [0] are falsy. *)
Definition num_or (a : option Z) (d : Z) : Z :=
  match a with
  | None | Some 0 => d
  | Some v => v
  end.

(** [String.prototype.includes]. *)
Definition includes (sub s : string) : bool :=
  match String.index 0 sub s with Some _ => true | None => false end.

(** [arr.slice(i, j)] for [0 <= i <= j]. *)
Definition slice {A} (i j : nat) (l : list A) : list A :=
  take (j - i)%nat (drop i l).

(** [[...new Set(arr)]]: the first occurrence of every element, in order. *)
Fixpoint uniq (seen l : list string) : list string :=
  match l with
  | [] => []
  | x :: rest =>
      if bool_decide (x ∈ seen) then uniq seen rest
      else x :: uniq (x :: seen) rest
  end.

Fixpoint has_char (c : ascii) (s : string) : bool :=
  match s with
  | EmptyString => false
  | String c' s' => Ascii.eqb c' c || has_char c s'
  end.

End JS.

(** ** Static endpoint helpers of [CreatorNode] *)
Module CreatorNode.
Import JS.

Definition comma : ascii := ","%char.

(** [static getPrimary (endpoints)]; the argument is a string or missing,
    the result is a string or [undefined] ([None]). *)
Definition getPrimary (endpoints : option string) : option string :=
  match endpoints with
  | Some s => if truthy endpoints then split comma s !! 0%nat
              else Some EmptyString
  | None => Some EmptyString
  end.

(** [static getSecondaries (endpoints)]. *)
Definition getSecondaries (endpoints : option string) : list string :=
  match endpoints with
  | Some s => if truthy endpoints then drop 1 (split comma s) else []
  | None => []
  end.

(** [static getEndpoints (endpoints)]. *)
Definition getEndpoints (endpoints : option string) : list string :=
  match endpoints with
  | Some s => if truthy endpoints then split comma s else []
  | None => []
  end.

(** [static buildEndpoint (primary, secondaries)]: [join()] separates with
    a comma. *)
Definition buildEndpoint (primary : string) (secondaries : list string) : string :=
  join "," (primary :: secondaries).

End CreatorNode.

(** ** Persisted data (tables of the node) *)
Module Data.

(** [ClockRecords.sourceTable]: the ENUM of the vector-clock migration. *)
Inductive SourceTable := AudiusUserTable | TrackTable | FileTable.

Record ClockRecord := mkClockRecord {
  cr_cnodeUserUUID : string;
  cr_clock : Z;
  cr_sourceTable : SourceTable }.

Record AudiusUser := mkAudiusUser {
  au_cnodeUserUUID : string;
  au_clock : Z;
  au_blockchainId : Z;
  au_metadataFileUUID : string }.

Record Track := mkTrack {
  tr_cnodeUserUUID : string;
  tr_clock : Z;
  tr_blockchainId : Z;
  tr_metadataFileUUID : string }.

Record File := mkFile {
  f_cnodeUserUUID : string;
  f_clock : Z;
  f_trackBlockchainId : option Z;
  f_multihash : string;
  f_storagePath : string;
  f_type : string;
  f_fileName : option string }.

Record CNodeUser := mkCNodeUser {
  cnodeUserUUID : string;
  walletPublicKey : string;
  lastLogin : Z;
  latestBlockNumber : Z;
  clock : Z;
  createdAt : Z }.

(** The four content tables share the columns [(cnodeUserUUID, clock)]. *)
Class Row (A : Type) := {
  row_uuid : A -> string;
  row_clock : A -> Z;
  (** [{ ...row, cnodeUserUUID: uuid }] *)
  with_uuid : string -> A -> A;
  row_uuid_with : forall u r, row_uuid (with_uuid u r) = u;
  row_clock_with : forall u r, row_clock (with_uuid u r) = row_clock r }.

#[export] Instance ClockRecord_Row : Row ClockRecord := {|
  row_uuid := cr_cnodeUserUUID;
  row_clock := cr_clock;
  with_uuid u r := mkClockRecord u (cr_clock r) (cr_sourceTable r);
  row_uuid_with _ _ := eq_refl;
  row_clock_with _ _ := eq_refl |}.

#[export] Instance AudiusUser_Row : Row AudiusUser := {|
  row_uuid := au_cnodeUserUUID;
  row_clock := au_clock;
  with_uuid u r := mkAudiusUser u (au_clock r) (au_blockchainId r) (au_metadataFileUUID r);
  row_uuid_with _ _ := eq_refl;
  row_clock_with _ _ := eq_refl |}.

#[export] Instance Track_Row : Row Track := {|
  row_uuid := tr_cnodeUserUUID;
  row_clock := tr_clock;
  with_uuid u r := mkTrack u (tr_clock r) (tr_blockchainId r) (tr_metadataFileUUID r);
  row_uuid_with _ _ := eq_refl;
  row_clock_with _ _ := eq_refl |}.

#[export] Instance File_Row : Row File := {|
  row_uuid := f_cnodeUserUUID;
  row_clock := f_clock;
  with_uuid u r := mkFile u (f_clock r) (f_trackBlockchainId r) (f_multihash r)
                     (f_storagePath r) (f_type r) (f_fileName r);
  row_uuid_with _ _ := eq_refl;
  row_clock_with _ _ := eq_refl |}.

(** [{ ...file, trackBlockchainId: null, cnodeUserUUID: uuid }] *)
Definition as_nonTrackFile (u : string) (f : File) : File :=
  mkFile u (f_clock f) None (f_multihash f) (f_storagePath f) (f_type f) (f_fileName f).

Record DB := mkDB {
  CNodeUsers : list CNodeUser;
  ClockRecords : list ClockRecord;
  Files : list File;
  Tracks : list Track;
  AudiusUsers : list AudiusUser }.

Definition emptyDB : DB := mkDB [] [] [] [] [].

(** [clockInfo] attached to an exported user. *)
Record ClockInfo := mkClockInfo {
  requestedClockRangeMin : Z;
  requestedClockRangeMax : Z;
  localClockMax : Z }.

(** One value of the [cnodeUsers] object of an export: the [CNodeUsers] row
    with the four record arrays and [clockInfo] attached.  On the importing
    side [walletPublicKey] is tested with [hasOwnProperty], hence the
    option. *)
Record ExportedCNodeUser := mkExported {
  e_cnodeUserUUID : string;
  e_walletPublicKey : option string;
  e_lastLogin : Z;
  e_latestBlockNumber : Z;
  e_clock : Z;
  e_createdAt : Z;
  e_audiusUsers : list AudiusUser;
  e_tracks : list Track;
  e_files : list File;
  e_clockRecords : list ClockRecord;
  e_clockInfo : ClockInfo }.

Record IpfsIDObj := mkIpfsIDObj { addresses : option (list string) }.

(** Body of an export response: [{ cnodeUsers, ipfsIDObj }]; a missing
    property is [None].  [cnodeUsers] is an object keyed by UUID, kept as an
    association list in property order. *)
Record ExportBody := mkExportBody {
  cnodeUsers : option (list (string * ExportedCNodeUser));
  ipfsIDObj : option IpfsIDObj }.

End Data.

(** ** Effects: steps that can throw, events, the world and the monad *)
Module Effects.
Import Data.

(** External calls; [i] is the position of the fetched user in the export
    that the call belongs to. *)
Inductive Step :=
| StFindOneCNodeUser
| StAxiosExport
| StJsonParse
| StIpfsId
| StBootstrapAdd (addr : string)
| StSwarmConnect (addr : string)
| StGetOwnEndpoint (i : nat)
| StGetCreatorNodeEndpoints (i : nat)
| StTransaction (i : nat)
| StUpsertCNodeUser (i : nat)
| StBulkCreateClockRecords (i : nat)
| StSaveFileForMultihash (i : nat) (multihash : string)
| StBulkCreateNonTrackFiles (i : nat)
| StBulkCreateTracks (i : nat)
| StBulkCreateTrackFiles (i : nat)
| StBulkCreateAudiusUsers (i : nat)
| StCommit (i : nat)
| StExportTransaction
| StExportFindCNodeUsers
| StExportFindAudiusUsers
| StExportFindTracks
| StExportFindFiles
| StExportFindClockRecords
| StExportCommit
| StGetIPFSPeerId.

(** What a run can throw.  The spec's names: [ErrRegression] is
    [Regression], [ErrNonContiguous] is [NonContiguous], [ErrLocked] is
    [Locked]. *)
Inductive Err :=
| ErrLocked (wallet : string)
| ErrExportFailed
| ErrMalformed
| ErrNoWalletPublicKey
| ErrNotRequested
| ErrRegression (localMaxClockVal fetchedLatestClockVal : Z)
| ErrNonContiguous (localMaxClockVal importedMin : Z)
| ErrNoAddresses
| ErrExternal (s : Step)
| ErrWrapped (e : Err).

(** Observable effects, in the order they are started. *)
Inductive Event :=
| EvSetLock (key : string)
| EvRemoveLock (key : option string)
| EvExportRequest (baseURL : string) (clock_range_min : Z)
| EvBootstrapAdd (addr : string)
| EvSwarmConnect (addr : string)
| EvTransaction
| EvCommit
| EvRollback
| EvUpsertCNodeUser (row : CNodeUser)
| EvBulkCreateClockRecords (rows : list ClockRecord)
| EvBulkCreateFiles (rows : list File)
| EvBulkCreateTracks (rows : list Track)
| EvBulkCreateAudiusUsers (rows : list AudiusUser)
| EvSaveFileForMultihash (multihash storagePath : string)
    (gateways : list string) (fileName : option string).

(** The node: committed database, the state seen inside the open
    transaction (if one is open), the lock store, the debounce queue with its
    pending timers, the blobs on disk and the log of effects. *)
Record World := mkWorld {
  db : DB;
  tx : option DB;
  locks : gset string;
  syncQueue : gmap string nat;
  timers : gmap nat (string * string);
  nextTimer : nat;
  disk : gset string;
  trace : list Event }.

Definition set_db (f : DB -> DB) (w : World) : World :=
  mkWorld (f (db w)) (tx w) (locks w) (syncQueue w) (timers w) (nextTimer w) (disk w) (trace w).
Definition set_tx (t : option DB) (w : World) : World :=
  mkWorld (db w) t (locks w) (syncQueue w) (timers w) (nextTimer w) (disk w) (trace w).
Definition set_locks (f : gset string -> gset string) (w : World) : World :=
  mkWorld (db w) (tx w) (f (locks w)) (syncQueue w) (timers w) (nextTimer w) (disk w) (trace w).
Definition set_syncQueue (f : gmap string nat -> gmap string nat) (w : World) : World :=
  mkWorld (db w) (tx w) (locks w) (f (syncQueue w)) (timers w) (nextTimer w) (disk w) (trace w).
Definition set_timers (f : gmap nat (string * string) -> gmap nat (string * string))
    (w : World) : World :=
  mkWorld (db w) (tx w) (locks w) (syncQueue w) (f (timers w)) (nextTimer w) (disk w) (trace w).
Definition set_nextTimer (n : nat) (w : World) : World :=
  mkWorld (db w) (tx w) (locks w) (syncQueue w) (timers w) n (disk w) (trace w).
Definition set_disk (f : gset string -> gset string) (w : World) : World :=
  mkWorld (db w) (tx w) (locks w) (syncQueue w) (timers w) (nextTimer w) (f (disk w)) (trace w).
Definition log (e : Event) (w : World) : World :=
  mkWorld (db w) (tx w) (locks w) (syncQueue w) (timers w) (nextTimer w) (disk w) (trace w ++ [e]).

Inductive Outcome (A : Type) :=
| Ok (a : A)
| Throw (e : Err).
Arguments Ok {A} a.
Arguments Throw {A} e.

(** An [async] computation: runs on a world, returns or throws, and leaves a
    world behind in both cases. *)
Definition M (A : Type) : Type := World -> Outcome A * World.

Definition ret {A} (a : A) : M A := fun w => (Ok a, w).
Definition throw {A} (e : Err) : M A := fun w => (Throw e, w).
Definition bind {A B} (c : M A) (k : A -> M B) : M B :=
  fun w => match c w with
           | (Ok a, w1) => k a w1
           | (Throw e, w1) => (Throw e, w1)
           end.
Definition get : M World := fun w => (Ok w, w).
Definition modify (f : World -> World) : M unit := fun w => (Ok tt, f w).

(** [try { c } catch (e) { h e }] *)
Definition try_catch {A} (c : M A) (h : Err -> M A) : M A :=
  fun w => match c w with
           | (Ok a, w1) => (Ok a, w1)
           | (Throw e, w1) => h e w1
           end.

(** [try { c } finally { f }]: [f] runs on every exit; if [f] throws, its
    exception replaces the outcome of [c]. *)
Definition try_finally {A} (c : M A) (f : M unit) : M A :=
  fun w => let (r, w1) := c w in
           match f w1 with
           | (Ok _, w2) => (r, w2)
           | (Throw e, w2) => (Throw e, w2)
           end.

(** [await Promise.all(acts)]: every action of the batch is started, in
    list order; the batch throws the first exception once all have run. *)
Fixpoint promiseAll (acts : list (M unit)) : M unit :=
  fun w => match acts with
           | [] => (Ok tt, w)
           | a :: rest =>
               let (r, w1) := a w in
               let (r', w2) := promiseAll rest w1 in
               (match r with Throw e => Throw e | Ok _ => r' end, w2)
           end.

End Effects.

Declare Scope async_scope.
Delimit Scope async_scope with async.
Notation "x <- c ;; k" := (Effects.bind c (fun x => k))
  (at level 100, c at next level, right associativity) : async_scope.
Notation "c ;; k" := (Effects.bind c (fun _ => k))
  (at level 100, k at level 200, right associativity) : async_scope.

(** ** The environment of a node *)
Module Environment.
Import Data Effects.

(** A response of [axios]: [status], [data] (falsy when [None]) and, for the
    patch of [_nodesync], [request.responseText] parsed by [JSON.parse]. *)
Record AxiosResponse := mkAxiosResponse {
  status : Z;
  data : option ExportBody;
  responseText : option ExportBody }.

(** [exportQueryParams] of [_nodesync]. *)
Record ExportQueryParams := mkExportQueryParams {
  qp_wallet_public_key : list string;
  qp_clock_range_min : Z;
  qp_source_endpoint : option string }.

Record Env := mkEnv {
  (** [config.get(...)] *)
  maxExportClockValueRange : Z;
  creatorNodeEndpoint : option string;
  userMetadataNodeUrl : option string;
  debounceTime : Z;
  (** [models.File.TrackTypes] and [models.File.NonTrackTypes] *)
  TrackTypes : list string;
  NonTrackTypes : list string;
  (** which external calls throw while one request is served; a later
      request is served in an environment of its own *)
  fault : Step -> bool;
  (** what the calls that do not throw return *)
  axiosExport : string -> ExportQueryParams -> AxiosResponse;
  ownEndpoint : string;
  creatorNodeEndpoints : string -> list string;
  ipfsId : IpfsIDObj }.

End Environment.

(** ** [creator-node/src/routes/nodeSync.js] *)
Module NodeSync.
Import JS Data Effects Environment.
Local Open Scope async_scope.

Definition TrackSaveConcurrencyLimit : nat := 10.
Definition NonTrackFileSaveConcurrencyLimit : nat := 10.

Section WithEnv.
Variable env : Env.

(** An external call: throws when the oracle of the request says so. *)
Definition external (s : Step) : M unit :=
  fun w => if fault env s then (Throw (ErrExternal s), w) else (Ok tt, w).

(** *** The lock store *)

(** Modelled from the spec: [redisClient.getNodeSyncRedisKey] is not among
    the sources; the spec gives the key as [nodeSync:<wallet>]. *)
Definition getNodeSyncRedisKey (wallet : string) : string := "nodeSync:" +:+ wallet.

(** Modelled from the spec: [redisClient.lock] is not among the sources; the
    spec describes a keyed mutual-exclusion store whose release is
    idempotent.  [getLock] reports whether the key is held. *)
Definition getLock (key : string) : M bool :=
  fun w => (Ok (bool_decide (key ∈ locks w)), w).

(** Modelled from the spec: [redisClient.lock.setLock], missing with the
    lock store; the key becomes held. *)
Definition setLock (key : string) : M unit :=
  modify (fun w => set_locks (fun l => {[key]} ∪ l) (log (EvSetLock key) w)).

(** Modelled from the spec: [redisClient.lock.removeLock], missing with the
    lock store; release is idempotent.  [redisKey] is [undefined] ([None])
    before any wallet was locked. *)
Definition removeLock (key : option string) : M unit :=
  modify (fun w =>
    set_locks (fun l => match key with Some k => l ∖ {[k]} | None => l end)
              (log (EvRemoveLock key) w)).

(** *** The database *)

(** Modelled from the spec: the sequelize models are not among the sources.
    A transaction works on a private copy of the database, [commit]
    publishes it and [rollback] discards it; a write outside a transaction
    goes to the database directly. *)
Definition transaction (s : Step) : M unit :=
  modify (log EvTransaction) ;;
  external s ;;
  modify (fun w => set_tx (Some (db w)) w).

(** Modelled from the spec: [transaction.commit()], missing with the
    models; the private copy becomes the database. *)
Definition commit (s : Step) : M unit :=
  modify (log EvCommit) ;;
  external s ;;
  modify (fun w => match tx w with
                   | Some d => set_tx None (set_db (fun _ => d) w)
                   | None => w
                   end).

(** Modelled from the spec: [transaction.rollback()], missing with the
    models; all effects of the transaction are dropped. *)
Definition rollback : M unit :=
  modify (fun w => set_tx None (log EvRollback w)).

(** Modelled from the spec: a write of a model ([upsert], [bulkCreate]),
    missing with the models; it acts on the open transaction. *)
Definition write (s : Step) (e : Event) (f : DB -> DB) : M unit :=
  modify (log e) ;;
  external s ;;
  modify (fun w => match tx w with
                   | Some d => set_tx (Some (f d)) w
                   | None => set_db f w
                   end).

(** Modelled from the spec: [CNodeUser.upsert], missing with the models;
    the row with the same primary key [cnodeUserUUID] is replaced, otherwise
    the row is added. *)
Fixpoint upsertRow (row : CNodeUser) (rows : list CNodeUser) : list CNodeUser :=
  match rows with
  | [] => [row]
  | r :: rest =>
      if bool_decide (cnodeUserUUID r = cnodeUserUUID row) then row :: rest
      else r :: upsertRow row rest
  end.

Definition db_upsertCNodeUser (row : CNodeUser) (d : DB) : DB :=
  mkDB (upsertRow row (CNodeUsers d)) (ClockRecords d) (Files d) (Tracks d) (AudiusUsers d).
Definition db_addClockRecords (rows : list ClockRecord) (d : DB) : DB :=
  mkDB (CNodeUsers d) (ClockRecords d ++ rows) (Files d) (Tracks d) (AudiusUsers d).
Definition db_addFiles (rows : list File) (d : DB) : DB :=
  mkDB (CNodeUsers d) (ClockRecords d) (Files d ++ rows) (Tracks d) (AudiusUsers d).
Definition db_addTracks (rows : list Track) (d : DB) : DB :=
  mkDB (CNodeUsers d) (ClockRecords d) (Files d) (Tracks d ++ rows) (AudiusUsers d).
Definition db_addAudiusUsers (rows : list AudiusUser) (d : DB) : DB :=
  mkDB (CNodeUsers d) (ClockRecords d) (Files d) (Tracks d) (AudiusUsers d ++ rows).

(** Modelled from the spec: [CNodeUser.findOne({ where: { walletPublicKey } })],
    missing with the models; it reads outside any transaction, and
    [walletPublicKeys[0]] of an empty array matches no row. *)
Definition findOneCNodeUser (wallet : option string) : M (option CNodeUser) :=
  external StFindOneCNodeUser ;;
  w <- get ;;
  ret (match wallet with
       | Some k => head (filter (fun u => walletPublicKey u = k) (CNodeUsers (db w)))
       | None => None
       end).

(** *** Fetching blobs *)

(** Modelled from the spec: [saveFileForMultihash] of [fileManager] is not
    among the sources; it fetches the blob of a CID from the gateways or the
    content-addressed network and writes it to [storagePath]. *)
Definition saveFileForMultihash (i : nat) (multihash storagePath : string)
    (gateways : list string) (fileName : option string) : M unit :=
  modify (log (EvSaveFileForMultihash multihash storagePath gateways fileName)) ;;
  external (StSaveFileForMultihash i multihash) ;;
  modify (set_disk (fun d => {[storagePath]} ∪ d)).

(** [for (let i = 0; i < files.length; i += limit) await Promise.all(slice.map(save))];
    [fuel] bounds the number of iterations. *)
Fixpoint forBatches (fuel limit : nat) (files : list File) (save : File -> M unit)
    (i : nat) : M unit :=
  match fuel with
  | O => ret tt
  | S fuel' =>
      if (i <? List.length files)%nat then
        promiseAll (map save (slice i (i + limit) files)) ;;
        forBatches fuel' limit files save (i + limit)%nat
      else ret tt
  end.

Definition saveInBatches (limit : nat) (files : list File) (save : File -> M unit) : M unit :=
  forBatches (S (List.length files)) limit files save 0.

Definition saveTrackFile (i : nat) (userReplicaSet : list string) (trackFile : File) : M unit :=
  saveFileForMultihash i (f_multihash trackFile) (f_storagePath trackFile) userReplicaSet None.

(** Directories have no content of their own and are skipped; an image that
    is an entry of a directory is fetched with its file name. *)
Definition saveNonTrackFile (i : nat) (userReplicaSet : list string) (nonTrackFile : File)
    : M unit :=
  if bool_decide (f_type nonTrackFile ≠ "dir") then
    if bool_decide (f_type nonTrackFile = "image") && bool_decide (f_fileName nonTrackFile ≠ None)
    then saveFileForMultihash i (f_multihash nonTrackFile) (f_storagePath nonTrackFile)
           userReplicaSet (f_fileName nonTrackFile)
    else saveFileForMultihash i (f_multihash nonTrackFile) (f_storagePath nonTrackFile)
           userReplicaSet None
  else ret tt.

(** *** [_initBootstrapAndRefreshPeers] *)
Fixpoint connectPeers (ipfsPeerAddresses targets : list string) : M unit :=
  match targets with
  | [] => ret tt
  | targetPeerAddress :: rest =>
      if includes "ip6" targetPeerAddress || includes "127.0.0.1" targetPeerAddress
      then connectPeers ipfsPeerAddresses rest
      else if bool_decide (targetPeerAddress ∈ ipfsPeerAddresses)
      then connectPeers ipfsPeerAddresses rest
      else
        modify (log (EvBootstrapAdd targetPeerAddress)) ;;
        external (StBootstrapAdd targetPeerAddress) ;;
        modify (log (EvSwarmConnect targetPeerAddress)) ;;
        external (StSwarmConnect targetPeerAddress) ;;
        connectPeers ipfsPeerAddresses rest
  end.

Definition _initBootstrapAndRefreshPeers (targetIPFSPeerAddresses : list string) : M unit :=
  external StIpfsId ;;
  match addresses (ipfsId env) with
  | None => throw ErrNoAddresses
  | Some ipfsPeerAddresses => connectPeers ipfsPeerAddresses targetIPFSPeerAddresses
  end.

(** *** [_nodesync] *)

(** Lines 232-240: take the lock of every wallet; the result is the value of
    [redisKey] after the loop. *)
Fixpoint acquireLocks (walletPublicKeys : list string) (redisKey : option string)
    : M (option string) :=
  match walletPublicKeys with
  | [] => ret redisKey
  | wallet :: rest =>
      let redisKey := getNodeSyncRedisKey wallet in
      lockHeld <- getLock redisKey ;;
      if lockHeld : bool then throw (ErrLocked wallet)
      else setLock redisKey ;; acquireLocks rest (Some redisKey)
  end.

(** Lines 243-286: read the local clock, request the export, check its
    structure and connect to the peers it names.  Returns
    [localMaxClockVal] and [Object.values(resp.data.cnodeUsers)]. *)
Definition fetchExport (walletPublicKeys : list string) (creatorNodeEndpoint' : string)
    : M (Z * list ExportedCNodeUser) :=
  cnodeUser <- findOneCNodeUser (walletPublicKeys !! 0%nat) ;;
  let localMaxClockVal := match cnodeUser with Some u => clock u | None => -1 end in
  let exportQueryParams :=
    mkExportQueryParams walletPublicKeys (localMaxClockVal + 1)
      (if truthy (creatorNodeEndpoint env) then creatorNodeEndpoint env else None) in
  modify (log (EvExportRequest creatorNodeEndpoint' (localMaxClockVal + 1))) ;;
  external StAxiosExport ;;
  let resp := axiosExport env creatorNodeEndpoint' exportQueryParams in
  if negb (status resp =? 200) then throw ErrExportFailed
  else
    body <- match data resp with
            | Some b => ret b
            | None => match responseText resp with
                      | Some b => external StJsonParse ;; ret b
                      | None => throw ErrMalformed
                      end
            end ;;
    match cnodeUsers body, ipfsIDObj body with
    | Some users, Some idObj =>
        match addresses idObj with
        | Some addrs =>
            _initBootstrapAndRefreshPeers addrs ;;
            ret (localMaxClockVal, map snd users)
        | None => throw ErrMalformed
        end
    | _, _ => throw ErrMalformed
    end.

(** Lines 299-317: the replica set used as gateways; any failure leaves it
    empty. *)
Definition buildUserReplicaSet (i : nat) (fetchedWalletPublicKey : string) : M (list string) :=
  try_catch
    (external (StGetOwnEndpoint i) ;;
     let myCnodeEndpoint := ownEndpoint env in
     external (StGetCreatorNodeEndpoints i) ;;
     let userReplicaSet := creatorNodeEndpoints env fetchedWalletPublicKey in
     let userReplicaSet :=
       match userMetadataNodeUrl env with
       | Some url => if truthy (Some url) then userReplicaSet ++ [url] else userReplicaSet
       | None => userReplicaSet
       end in
     let userReplicaSet := filter (fun url => url ≠ myCnodeEndpoint) userReplicaSet in
     ret (uniq [] userReplicaSet))
    (fun _ => ret []).

(** Lines 341-449: the transaction of one fetched user. *)
Definition writeFetchedCNodeUser (redisKey : option string) (i : nat)
    (fetchedCNodeUser : ExportedCNodeUser) (fetchedWalletPublicKey : string)
    (userReplicaSet : list string) : M unit :=
  let fetchedCnodeUserUUID := e_cnodeUserUUID fetchedCNodeUser in
  transaction (StTransaction i) ;;
  try_catch
    (let row := mkCNodeUser fetchedCnodeUserUUID fetchedWalletPublicKey
                  (e_lastLogin fetchedCNodeUser) (e_latestBlockNumber fetchedCNodeUser)
                  (e_clock fetchedCNodeUser) (e_createdAt fetchedCNodeUser) in
     write (StUpsertCNodeUser i) (EvUpsertCNodeUser row) (db_upsertCNodeUser row) ;;
     let clockRecords := map (with_uuid fetchedCnodeUserUUID) (e_clockRecords fetchedCNodeUser) in
     write (StBulkCreateClockRecords i) (EvBulkCreateClockRecords clockRecords)
       (db_addClockRecords clockRecords) ;;
     let trackFiles :=
       filter (fun file => f_type file ∈ TrackTypes env) (e_files fetchedCNodeUser) in
     let nonTrackFiles :=
       filter (fun file => f_type file ∈ NonTrackTypes env) (e_files fetchedCNodeUser) in
     saveInBatches TrackSaveConcurrencyLimit trackFiles (saveTrackFile i userReplicaSet) ;;
     saveInBatches NonTrackFileSaveConcurrencyLimit nonTrackFiles
       (saveNonTrackFile i userReplicaSet) ;;
     let nonTrackRows := map (as_nonTrackFile fetchedCnodeUserUUID) nonTrackFiles in
     write (StBulkCreateNonTrackFiles i) (EvBulkCreateFiles nonTrackRows)
       (db_addFiles nonTrackRows) ;;
     let trackRows := map (with_uuid fetchedCnodeUserUUID) (e_tracks fetchedCNodeUser) in
     write (StBulkCreateTracks i) (EvBulkCreateTracks trackRows) (db_addTracks trackRows) ;;
     let trackFileRows := map (with_uuid fetchedCnodeUserUUID) trackFiles in
     write (StBulkCreateTrackFiles i) (EvBulkCreateFiles trackFileRows)
       (db_addFiles trackFileRows) ;;
     let audiusUserRows :=
       map (with_uuid fetchedCnodeUserUUID) (e_audiusUsers fetchedCNodeUser) in
     write (StBulkCreateAudiusUsers i) (EvBulkCreateAudiusUsers audiusUserRows)
       (db_addAudiusUsers audiusUserRows) ;;
     commit (StCommit i) ;;
     removeLock redisKey)
    (fun e =>
       rollback ;;
       removeLock redisKey ;;
       throw (ErrWrapped e)).

(** Lines 295-339 followed by the transaction: one iteration of the loop
    over the fetched users. *)
Definition importFetchedCNodeUser (localMaxClockVal : Z) (walletPublicKeys : list string)
    (redisKey : option string) (i : nat) (fetchedCNodeUser : ExportedCNodeUser) : M unit :=
  match e_walletPublicKey fetchedCNodeUser with
  | None => throw ErrNoWalletPublicKey
  | Some fetchedWalletPublicKey =>
      userReplicaSet <- buildUserReplicaSet i fetchedWalletPublicKey ;;
      if negb (bool_decide (fetchedWalletPublicKey ∈ walletPublicKeys))
      then throw ErrNotRequested
      else
        let fetchedLatestClockVal := e_clock fetchedCNodeUser in
        let fetchedClockRecords := e_clockRecords fetchedCNodeUser in
        if fetchedLatestClockVal <? localMaxClockVal
        then throw (ErrRegression localMaxClockVal fetchedLatestClockVal)
        else if fetchedLatestClockVal =? localMaxClockVal
        then ret tt
        else
          match fetchedClockRecords !! 0%nat with
          | Some first =>
              if negb (cr_clock first =? localMaxClockVal + 1)
              then throw (ErrNonContiguous localMaxClockVal (cr_clock first))
              else writeFetchedCNodeUser redisKey i fetchedCNodeUser
                     fetchedWalletPublicKey userReplicaSet
          | None => writeFetchedCNodeUser redisKey i fetchedCNodeUser
                      fetchedWalletPublicKey userReplicaSet
          end
  end.

(** [for (const fetchedCNodeUser of Object.values(resp.data.cnodeUsers))] *)
Fixpoint importFetchedCNodeUsers (localMaxClockVal : Z) (walletPublicKeys : list string)
    (redisKey : option string) (i : nat) (fetched : list ExportedCNodeUser) : M unit :=
  match fetched with
  | [] => ret tt
  | fetchedCNodeUser :: rest =>
      importFetchedCNodeUser localMaxClockVal walletPublicKeys redisKey i fetchedCNodeUser ;;
      importFetchedCNodeUsers localMaxClockVal walletPublicKeys redisKey (S i) rest
  end.

(** The [finally] block: release every lock and forget the queued syncs. *)
Fixpoint releaseLocks (walletPublicKeys : list string) : M unit :=
  match walletPublicKeys with
  | [] => ret tt
  | wallet :: rest =>
      removeLock (Some (getNodeSyncRedisKey wallet)) ;;
      modify (set_syncQueue (delete wallet)) ;;
      releaseLocks rest
  end.

(** The [try] block of [_nodesync]. *)
Definition syncBody (walletPublicKeys : list string) (creatorNodeEndpoint' : string)
    (redisKey : option string) : M unit :=
  r <- fetchExport walletPublicKeys creatorNodeEndpoint' ;;
  importFetchedCNodeUsers (fst r) walletPublicKeys redisKey 0 (snd r).

(** [async function _nodesync (req, walletPublicKeys, creatorNodeEndpoint)]:
    returns [errorObj] ([None] is [null]); throws only while taking the
    locks. *)
Definition _nodesync (walletPublicKeys : list string) (creatorNodeEndpoint' : string)
    : M (option Err) :=
  redisKey <- acquireLocks walletPublicKeys None ;;
  try_finally
    (try_catch
       (syncBody walletPublicKeys creatorNodeEndpoint' redisKey ;; ret None)
       (fun e => ret (Some e)))
    (releaseLocks walletPublicKeys).

End WithEnv.
End NodeSync.

(** ** The routes of [nodeSync.js] *)
Module Routes.
Import JS Data Effects Environment NodeSync.
Local Open Scope async_scope.

Inductive BadRequestMessage :=
| InvalidClockRange (requestedClockRangeMin requestedClockRangeMax : Z)
| MustProvideOneWallet
| MultiWalletSyncsDisabled.

(** What a route handler returns to [handleResponse]. *)
Inductive Response :=
| successResponse
| successExport (cnodeUsers : list (string * ExportedCNodeUser)) (ipfsIDObj : IpfsIDObj)
| errorResponseBadRequest (msg : BadRequestMessage)
| errorResponseServerError (e : Err).

(** *** [GET /export] *)

(** [req.query]; the clock bounds are the results of [parseInt] ([None] is
    [NaN], as for a missing parameter). *)
Record ExportQuery := mkExportQuery {
  wallet_public_key : list string;
  source_endpoint : option string;
  clock_range_min : option Z;
  clock_range_max : option Z }.

Section WithEnv.
Variable env : Env.

Definition requestedClockRangeMinOf (q : ExportQuery) : Z :=
  num_or (clock_range_min q) 0.

Definition maxRequestedClockRangeMaxOf (q : ExportQuery) : Z :=
  requestedClockRangeMinOf q + (maxExportClockValueRange env - 1).

Definition requestedClockRangeMaxOf (q : ExportQuery) : Z :=
  Z.min (num_or (clock_range_max q) (maxRequestedClockRangeMaxOf q))
        (maxRequestedClockRangeMaxOf q).

(** [ORDER BY clock ASC]: a stable insertion sort on the clock column. *)
Fixpoint insertByClock {A} `{Row A} (x : A) (l : list A) : list A :=
  match l with
  | [] => [x]
  | y :: rest =>
      if row_clock x <=? row_clock y then x :: y :: rest
      else y :: insertByClock x rest
  end.

Definition orderByClockAsc {A} `{Row A} (l : list A) : list A :=
  foldr insertByClock [] l.

(** [Model.findAll({ where: { cnodeUserUUID: uuids, clock: { gte, lte } },
    order: [['clock', 'ASC']] })] *)
Definition findAllInRange {A} `{Row A} (table : list A) (cnodeUserUUIDs : list string)
    (lo hi : Z) : list A :=
  orderByClockAsc
    (filter (fun r => row_uuid r ∈ cnodeUserUUIDs ∧ lo ≤ row_clock r ∧ row_clock r ≤ hi)
            table).

(** Assignment [dict[key] = value] on an object kept in property order. *)
Fixpoint dict_set {V} (key : string) (value : V) (dict : list (string * V))
    : list (string * V) :=
  match dict with
  | [] => [(key, value)]
  | (k, v) :: rest =>
      if bool_decide (k = key) then (k, value) :: rest
      else (k, v) :: dict_set key value rest
  end.

(** In-place update of [dict[key]]. *)
Fixpoint dict_update {V} (key : string) (f : V -> V) (dict : list (string * V))
    : list (string * V) :=
  match dict with
  | [] => []
  | (k, v) :: rest =>
      if bool_decide (k = key) then (k, f v) :: rest
      else (k, v) :: dict_update key f rest
  end.

(** Lines 104-126: the row of a user with empty arrays, [clockInfo] and the
    clock reset to the upper bound when it lies beyond it. *)
Definition bundleCNodeUser (lo hi : Z) (cnodeUser : CNodeUser) : ExportedCNodeUser :=
  let curCnodeUserClockVal := clock cnodeUser in
  mkExported (cnodeUserUUID cnodeUser) (Some (walletPublicKey cnodeUser))
    (lastLogin cnodeUser) (latestBlockNumber cnodeUser)
    (if clock cnodeUser >? hi then hi else clock cnodeUser)
    (createdAt cnodeUser)
    [] [] [] []
    (mkClockInfo lo hi curCnodeUserClockVal).

Definition push_audiusUser (r : AudiusUser) (u : ExportedCNodeUser) : ExportedCNodeUser :=
  mkExported (e_cnodeUserUUID u) (e_walletPublicKey u) (e_lastLogin u) (e_latestBlockNumber u)
    (e_clock u) (e_createdAt u)
    (e_audiusUsers u ++ [r]) (e_tracks u) (e_files u) (e_clockRecords u) (e_clockInfo u).
Definition push_track (r : Track) (u : ExportedCNodeUser) : ExportedCNodeUser :=
  mkExported (e_cnodeUserUUID u) (e_walletPublicKey u) (e_lastLogin u) (e_latestBlockNumber u)
    (e_clock u) (e_createdAt u)
    (e_audiusUsers u) (e_tracks u ++ [r]) (e_files u) (e_clockRecords u) (e_clockInfo u).
Definition push_file (r : File) (u : ExportedCNodeUser) : ExportedCNodeUser :=
  mkExported (e_cnodeUserUUID u) (e_walletPublicKey u) (e_lastLogin u) (e_latestBlockNumber u)
    (e_clock u) (e_createdAt u)
    (e_audiusUsers u) (e_tracks u) (e_files u ++ [r]) (e_clockRecords u) (e_clockInfo u).
Definition push_clockRecord (r : ClockRecord) (u : ExportedCNodeUser) : ExportedCNodeUser :=
  mkExported (e_cnodeUserUUID u) (e_walletPublicKey u) (e_lastLogin u) (e_latestBlockNumber u)
    (e_clock u) (e_createdAt u)
    (e_audiusUsers u) (e_tracks u) (e_files u) (e_clockRecords u ++ [r]) (e_clockInfo u).

(** [rows.forEach(row => dict[row.cnodeUserUUID][field].push(row))] *)
Definition pushAll {A} `{Row A} (push : A -> ExportedCNodeUser -> ExportedCNodeUser)
    (rows : list A) (dict : list (string * ExportedCNodeUser))
    : list (string * ExportedCNodeUser) :=
  fold_left (fun d r => dict_update (row_uuid r) (push r) d) rows dict.

(** Lines 103-139. *)
Definition bundle (lo hi : Z) (cnodeUsers : list CNodeUser)
    (audiusUsers : list AudiusUser) (tracks : list Track) (files : list File)
    (clockRecords : list ClockRecord) : list (string * ExportedCNodeUser) :=
  let cnodeUsersDict :=
    fold_left (fun d cnodeUser =>
                 dict_set (cnodeUserUUID cnodeUser) (bundleCNodeUser lo hi cnodeUser) d)
              cnodeUsers [] in
  let cnodeUsersDict := pushAll push_audiusUser audiusUsers cnodeUsersDict in
  let cnodeUsersDict := pushAll push_track tracks cnodeUsersDict in
  let cnodeUsersDict := pushAll push_file files cnodeUsersDict in
  pushAll push_clockRecord clockRecords cnodeUsersDict.

(** The reads of lines 43-97, on the database [d] seen by the transaction. *)
Definition exportData (q : ExportQuery) (d : DB) : list (string * ExportedCNodeUser) :=
  let lo := requestedClockRangeMinOf q in
  let hi := requestedClockRangeMaxOf q in
  let cnodeUsers := filter (fun u => walletPublicKey u ∈ wallet_public_key q) (CNodeUsers d) in
  let cnodeUserUUIDs := map cnodeUserUUID cnodeUsers in
  bundle lo hi cnodeUsers
    (findAllInRange (AudiusUsers d) cnodeUserUUIDs lo hi)
    (findAllInRange (Tracks d) cnodeUserUUIDs lo hi)
    (findAllInRange (Files d) cnodeUserUUIDs lo hi)
    (findAllInRange (ClockRecords d) cnodeUserUUIDs lo hi).

(** [app.get('/export', ...)] *)
Definition export (q : ExportQuery) : M Response :=
  let requestedClockRangeMin := requestedClockRangeMinOf q in
  let requestedClockRangeMax := requestedClockRangeMaxOf q in
  if requestedClockRangeMax <=? requestedClockRangeMin
  then ret (errorResponseBadRequest
              (InvalidClockRange requestedClockRangeMin requestedClockRangeMax))
  else
    transaction env StExportTransaction ;;
    try_catch
      (external env StExportFindCNodeUsers ;;
       external env StExportFindAudiusUsers ;;
       external env StExportFindTracks ;;
       external env StExportFindFiles ;;
       external env StExportFindClockRecords ;;
       w <- get ;;
       let cnodeUsersDict := exportData q (default (db w) (tx w)) in
       commit env StExportCommit ;;
       external env StGetIPFSPeerId ;;
       ret (successExport cnodeUsersDict (ipfsId env)))
      (fun e =>
         rollback ;;
         ret (errorResponseServerError e)).

(** *** [POST /sync] *)

(** [req.body.immediate] *)
Inductive ImmediateField :=
| ImmediateBool (b : bool)
| ImmediateString (s : string)
| ImmediateAbsent.

Record SyncBody := mkSyncBody {
  wallet : list string;
  creator_node_endpoint : string;
  immediate : ImmediateField;
  sync_type : option string }.

(** [clearTimeout(syncQueue[wallet])] followed by
    [syncQueue[wallet] = setTimeout(...)]: each timer is a handle with the
    call it will make. *)
Fixpoint enqueueSyncs (wallets : list string) (creatorNodeEndpoint' : string) : M unit :=
  match wallets with
  | [] => ret tt
  | wallet :: rest =>
      modify (fun w =>
        let w1 := match syncQueue w !! wallet with
                  | Some handle => set_timers (delete handle) w
                  | None => w
                  end in
        let handle := nextTimer w1 in
        set_nextTimer (S handle)
          (set_timers (insert handle (wallet, creatorNodeEndpoint'))
             (set_syncQueue (insert wallet handle) w1))) ;;
      enqueueSyncs rest creatorNodeEndpoint'
  end.

(** [app.post('/sync', ...)] *)
Definition sync (body : SyncBody) : M Response :=
  let walletPublicKeys := wallet body in
  let creatorNodeEndpoint' := creator_node_endpoint body in
  let immediate' :=
    match immediate body with
    | ImmediateBool b => b
    | ImmediateString s => bool_decide (s = "true")
    | ImmediateAbsent => false
    end in
  if (List.length walletPublicKeys =? 0)%nat
  then ret (errorResponseBadRequest MustProvideOneWallet)
  else if (1 <? List.length walletPublicKeys)%nat
  then ret (errorResponseBadRequest MultiWalletSyncsDisabled)
  else if immediate'
  then
    errorObj <- _nodesync env walletPublicKeys creatorNodeEndpoint' ;;
    match errorObj with
    | Some e => ret (errorResponseServerError e)
    | None => ret successResponse
    end
  else
    enqueueSyncs walletPublicKeys creatorNodeEndpoint' ;;
    ret successResponse.

(** The [/sync] requests that the node serves while a run awaits: each is
    handled by the route, and what the route answers or throws goes to the
    client of the request. *)
Fixpoint serve (requests : list SyncBody) : M unit :=
  match requests with
  | [] => ret tt
  | body :: rest =>
      try_catch (sync body ;; ret tt) (fun _ => ret tt) ;;
      serve rest
  end.

(** [_nodesync] on a node that goes on serving [/sync] requests while the
    run awaits: the requests [duringFetch] at the first [await] of the [try]
    block, and the requests [duringRelease] at the [await] of the first
    [removeLock] of the [finally] block, before the entry of the queue is
    deleted. *)
Definition _nodesyncServing (duringFetch duringRelease : list SyncBody)
    (walletPublicKeys : list string) (creatorNodeEndpoint' : string) : M (option Err) :=
  redisKey <- acquireLocks walletPublicKeys None ;;
  try_finally
    (try_catch
       (serve duringFetch ;;
        syncBody env walletPublicKeys creatorNodeEndpoint' redisKey ;;
        ret None)
       (fun e => ret (Some e)))
    (match walletPublicKeys with
     | [] => ret tt
     | wallet :: rest =>
         removeLock (Some (getNodeSyncRedisKey wallet)) ;;
         serve duringRelease ;;
         modify (set_syncQueue (delete wallet)) ;;
         releaseLocks rest
     end).


End WithEnv.
End Routes.

(** ** [libs/src/services/creatorNode/CreatorNodeSelection.js] *)
Module CreatorNodeSelection.
Import JS.

Inductive DECISION_TREE_STATE :=
| GET_ALL_SERVICES
| FILTER_TO_WHITELIST
| FILTER_FROM_BLACKLIST
| FILTER_OUT_SYNC_IN_PROGRESS
| FILTER_OUT_UNHEALTHY_AND_OUTDATED
| SELECT_PRIMARY_AND_SECONDARIES.

(** An entry [{ stage, val }] of the decision tree; the last stage records
    the primary ([None] is [undefined]), the secondaries and the healthy
    services. *)
Inductive DecisionEntry :=
| StageServices (stage : DECISION_TREE_STATE) (val : list string)
| StageSelected (primary : option string) (secondaries services : list string).

(** [health_check/verbose] answer: [response.status] and
    [response.data.data], [None] when the answer carries none; of the data,
    the [version], [None] when they have no such field. *)
Record HealthResponse := mkHealthResponse {
  hr_status : Z;
  hr_data : option (option string) }.

(** An element of what [timeRequestsAndSortByVersion] returns; a request
    that failed has no [response]. *)
Record TimedRequest := mkTimedRequest {
  request_id : string;
  request_url : string;
  response : option HealthResponse }.

(** [userStateManager.getCurrentUser()] *)
Record User := mkUser {
  user_wallet : string;
  blocknumber : Z;
  track_blocknumber : Z }.

Record SyncStatus := mkSyncStatus {
  latestBlockNumberSeen : Z;
  isBehind : bool;
  isConfigured : bool }.

Inductive SelectionError :=
| GetServicesFailed
| TypeError
| VersionCheckFailed
| CallbackFailed.

Inductive Result (A : Type) :=
| Returned (a : A)
| Raised (e : SelectionError).
Arguments Returned {A} a.
Arguments Raised {A} e.

(** The collaborators of the selector that are not among the sources. *)
Record Env := mkEnv {
  (** [ethContracts.getCurrentVersion(CREATOR_NODE_SERVICE_NAME)]; [None]
      when the call throws *)
  getCurrentVersion : option string;
  (** the endpoints of [ethContracts.getServiceProviderList(...)]; [None]
      when the call throws *)
  getServiceProviderList : option (list string);
  (** [ethContracts.hasSameMajorAndMinorVersion], called with the current
      version and the version of an answer, which may be [undefined]; [None]
      when the call throws, as for a version that cannot be parsed *)
  hasSameMajorAndMinorVersion : string -> option string -> option bool;
  (** [utils/network.timeRequestsAndSortByVersion], which leaves a request
      that failed without [response] *)
  timeRequestsAndSortByVersion : list (string * string) -> option Z -> list TimedRequest;
  (** [userStateManager.getCurrentUser()] *)
  currentUser : option User;
  (** the answer of [GET /sync_status/<wallet>] of an endpoint:
      [latestBlockNumber], or [None] when the request throws *)
  syncStatusRequest : string -> option Z;
  (** [creatorNode.monitoringCallbacks]: [None] is [null]; otherwise its
      [healthCheck] callback, [None] when none is registered.  The callback
      is given by whether it returns ([true]) or throws ([false]) on the
      metrics of a check, which are read from its URL and its data *)
  monitoringCallbacks : option (option (string -> option string -> bool));
  (** whether [new URL(url)] accepts the string *)
  validURL : string -> bool }.

(** The mutable fields of the selector ([this]). *)
Record Selector := mkSelector {
  whitelist : option (gset string);
  blacklist : option (gset string);
  numberOfNodes : Z;
  timeout : option Z;
  currentVersion : option string;
  decisionTree : list DecisionEntry;
  backupsList : list string;
  unhealthy : gset string }.

Definition set_decisionTree (f : list DecisionEntry -> list DecisionEntry) (this : Selector) :=
  mkSelector (whitelist this) (blacklist this) (numberOfNodes this) (timeout this)
    (currentVersion this) (f (decisionTree this)) (backupsList this) (unhealthy this).
Definition setBackupsList (services : list string) (this : Selector) :=
  mkSelector (whitelist this) (blacklist this) (numberOfNodes this) (timeout this)
    (currentVersion this) (decisionTree this) services (unhealthy this).
Definition set_unhealthy (f : gset string -> gset string) (this : Selector) :=
  mkSelector (whitelist this) (blacklist this) (numberOfNodes this) (timeout this)
    (currentVersion this) (decisionTree this) (backupsList this) (f (unhealthy this)).
Definition set_currentVersion (v : string) (this : Selector) :=
  mkSelector (whitelist this) (blacklist this) (numberOfNodes this) (timeout this)
    (Some v) (decisionTree this) (backupsList this) (unhealthy this).

Definition push (e : DecisionEntry) : Selector -> Selector :=
  set_decisionTree (fun t => t ++ [e]).

(** Modelled from the spec: the base class [ServiceSelection] is not among
    the sources; the allow-list keeps the listed endpoints, the deny-list
    drops them, and unhealthy endpoints are collected in a set. *)
Definition filterToWhitelist (allow : gset string) (services : list string) : list string :=
  filter (fun s => s ∈ allow) services.
(** Modelled from the spec: [ServiceSelection.filterFromBlacklist], missing
    with the base class. *)
Definition filterFromBlacklist (deny : gset string) (services : list string) : list string :=
  filter (fun s => s ∉ deny) services.
(** Modelled from the spec: [addUnhealthy], [clearUnhealthy] and
    [clearBackups], missing with the base class. *)
Definition addUnhealthy (service : string) : Selector -> Selector :=
  set_unhealthy (fun u => {[service]} ∪ u).
Definition clearUnhealthy : Selector -> Selector := set_unhealthy (fun _ => ∅).
Definition clearBackups : Selector -> Selector := setBackupsList [].

(** [arr.slice(0, e)]: a negative end counts from the end of the array. *)
Definition slice_to {A} (e : Z) (l : list A) : list A :=
  if e <? 0 then take (Z.to_nat (Z.of_nat (List.length l) + e)) l
  else take (Z.to_nat e) l.

Section WithEnv.
Variable env : Env.

(** [CreatorNode.prototype.getSyncStatus]: throws without a current user or
    when the request fails. *)
Definition creatorNode_getSyncStatus (endpoint : string) : option SyncStatus :=
  match currentUser env with
  | Some user =>
      match syncStatusRequest env endpoint with
      | Some latest =>
          Some (mkSyncStatus latest
                  (latest <? Z.max (blocknumber user) (track_blocknumber user))
                  (negb (latest =? -1)))
      | None => None
      end
  | None => None
  end.

(** [getSyncStatus (service, timeout)]: [{ service, syncStatus, error }];
    [None] stands for a response with [error] set. *)
Definition getSyncStatus (service : string) : string * option SyncStatus :=
  (service, creatorNode_getSyncStatus service).

Definition getPrimary (services : list string) : option string := services !! 0%nat.

Definition getSecondaries (this : Selector) : list string :=
  slice_to (numberOfNodes this - 1) (backupsList this).

(** The loop of [_performSyncChecks] over the responses. *)
Fixpoint syncCheckLoop (responses : list (string * option SyncStatus))
    (successfulSyncCheckServices : list string) (this : Selector)
    : list string * Selector :=
  match responses with
  | [] => (successfulSyncCheckServices, this)
  | (service, None) :: rest =>
      syncCheckLoop rest successfulSyncCheckServices (addUnhealthy service this)
  | (service, Some syncStatus) :: rest =>
      let firstTimeCreator := isBehind syncStatus && negb (isConfigured syncStatus) in
      let existingCreator := negb (isBehind syncStatus) && isConfigured syncStatus in
      if firstTimeCreator || existingCreator
      then syncCheckLoop rest (successfulSyncCheckServices ++ [service]) this
      else syncCheckLoop rest successfulSyncCheckServices (addUnhealthy service this)
  end.

Definition _performSyncChecks (services : list string) (this : Selector)
    : list string * Selector :=
  let syncResponses := map getSyncStatus services in
  let '(successful, this1) := syncCheckLoop syncResponses [] this in
  (successful, push (StageServices FILTER_OUT_SYNC_IN_PROGRESS services) this1).

(** The callback of the [filter] in [_performHealthChecks], up to its call
    of [addUnhealthy]: the value of the local [isHealthy].  For a request
    that was answered the version is read and compared whatever the status;
    reading it from an answer without [data.data] throws, and so may the
    comparison. *)
Definition healthVerdict (this : Selector) (resp : TimedRequest) : Result bool :=
  match response resp with
  | Some r =>
      let isUp := hr_status r =? 200 in
      match hr_data r with
      | Some version =>
          match hasSameMajorAndMinorVersion env (default "" (currentVersion this)) version
          with
          | Some versionIsUpToDate => Returned (isUp && versionIsUpToDate)
          | None => Raised VersionCheckFailed
          end
      | None => Raised TypeError
      end
  | None => Returned false
  end.

(** The local [isHealthy] of a response on which the callback returns. *)
Definition isHealthy (this : Selector) (resp : TimedRequest) : bool :=
  match healthVerdict this resp with
  | Returned isHealthy' => isHealthy'
  | Raised _ => false
  end.

(** [healthCheckedServices.filter(resp => ...)]: the responses are visited
    in order, the endpoint of an unhealthy one is added to the unhealthy
    set, and the first exception ends the selection. *)
Fixpoint filterHealthy (checked : list TimedRequest) (this : Selector)
    : Result (list TimedRequest) * Selector :=
  match checked with
  | [] => (Returned [], this)
  | resp :: rest =>
      match healthVerdict this resp with
      | Raised e => (Raised e, this)
      | Returned isHealthy' =>
          let this := if isHealthy' then this else addUnhealthy (request_id resp) this in
          match filterHealthy rest this with
          | (Raised e, this) => (Raised e, this)
          | (Returned healthy, this) =>
              (Returned (if isHealthy' then resp :: healthy else healthy), this)
          end
      end
  end.

(** [servicesMap[service.request.id] = service.response.data], with the
    version of the answer as the stored data. *)
Fixpoint servicesMapOf (healthy : list TimedRequest) (m : list (string * string))
    : list (string * string) :=
  match healthy with
  | [] => m
  | service :: rest =>
      servicesMapOf rest
        (Routes.dict_set (request_id service)
           (match response service with
            | Some r => match hr_data r with
                        | Some (Some version) => version
                        | _ => ""
                        end
            | None => ""
            end) m)
  end.

(** The [forEach] of the metrics block: for every health-checked request,
    in order, [new URL(check.request.url)], then [check.response.data.data]
    and its fields, then the callback.  [new URL] of a bad string, the
    [response] of a request that was not answered and the fields of a
    missing [data.data] throw, and so may the callback. *)
Fixpoint metricsLoop (healthCheck : string -> option string -> bool)
    (healthCheckedServices : list TimedRequest) : Result unit :=
  match healthCheckedServices with
  | [] => Returned tt
  | check :: rest =>
      if negb (validURL env (request_url check)) then Raised TypeError
      else
        match response check with
        | None => Raised TypeError
        | Some r =>
            match hr_data r with
            | None => Raised TypeError
            | Some version =>
                if healthCheck (request_url check) version then metricsLoop healthCheck rest
                else Raised CallbackFailed
            end
        end
  end.

(** The metrics block at the end of [_performHealthChecks]: reading
    [healthCheck] of [null] throws; without a callback nothing is done. *)
Definition recordMetrics (healthCheckedServices : list TimedRequest) : Result unit :=
  match monitoringCallbacks env with
  | None => Raised TypeError
  | Some None => Returned tt
  | Some (Some healthCheck) => metricsLoop healthCheck healthCheckedServices
  end.

Definition healthCheckPath : string := "health_check/verbose".

Definition _performHealthChecks (services : list string) (this : Selector)
    : Result (list string * list (string * string)) * Selector :=
  let healthCheckedServices :=
    timeRequestsAndSortByVersion env
      (map (fun node => (node, node +:+ "/" +:+ healthCheckPath)) services)
      (timeout this) in
  match filterHealthy healthCheckedServices this with
  | (Raised e, this1) => (Raised e, this1)
  | (Returned healthyServices, this1) =>
      let this2 := push (StageServices FILTER_OUT_UNHEALTHY_AND_OUTDATED services) this1 in
      let servicesMap := servicesMapOf healthyServices [] in
      let healthyServicesList := map request_id healthyServices in
      match recordMetrics healthCheckedServices with
      | Raised e => (Raised e, this2)
      | Returned _ => (Returned (healthyServicesList, servicesMap), this2)
      end
  end.

Record Selection := mkSelection {
  primary : option string;
  secondaries : list string;
  services : list (string * string) }.

(** The [getServices] callback of the constructor. *)
Definition getServices (this : Selector) : Result (list string) * Selector :=
  match getCurrentVersion env with
  | None => (Raised GetServicesFailed, this)
  | Some version =>
      let this := set_currentVersion version this in
      match getServiceProviderList env with
      | None => (Raised GetServicesFailed, this)
      | Some services => (Returned services, this)
      end
  end.

(** Lines 41-60 of [select]: the healthy candidates, best first. *)
Definition healthyCandidates (performSyncCheck : bool) (this : Selector)
    : Result (list string * list (string * string)) * Selector :=
  let this := set_decisionTree (fun _ => []) this in
  let this := clearUnhealthy (clearBackups this) in
  match getServices this with
  | (Raised e, this) => (Raised e, this)
  | (Returned services, this) =>
      let this := push (StageServices GET_ALL_SERVICES services) this in
      let services := match whitelist this with
                      | Some allow => filterToWhitelist allow services
                      | None => services
                      end in
      let this := push (StageServices FILTER_TO_WHITELIST services) this in
      let services := match blacklist this with
                      | Some deny => filterFromBlacklist deny services
                      | None => services
                      end in
      let this := push (StageServices FILTER_FROM_BLACKLIST services) this in
      let '(services, this) :=
        if performSyncCheck then _performSyncChecks services this else (services, this) in
      _performHealthChecks services this
  end.

(** [async select (performSyncCheck = true)] *)
Definition select (performSyncCheck : bool) (this : Selector) : Result Selection * Selector :=
  match healthyCandidates performSyncCheck this with
  | (Raised e, this) => (Raised e, this)
  | (Returned (services, servicesMap), this) =>
      let primary := getPrimary services in
      let this := setBackupsList (drop 1 services) this in
      let secondaries := getSecondaries this in
      let this := push (StageSelected primary secondaries (map fst servicesMap)) this in
      (Returned (mkSelection primary secondaries servicesMap), this)
  end.

End WithEnv.
End CreatorNodeSelection.

(** ** [GET /sync_status/:walletPublicKey] of [nodeSync.js] *)
Module SyncStatusRoute.
Import JS Data Effects Environment NodeSync.
Local Open Scope async_scope.

(** The two answers of the route: [errorResponse(423, ...)] and
    [successResponse({ walletPublicKey, latestBlockNumber, clockValue })]. *)
Inductive SyncStatusResponse :=
| errorResponseLocked (walletPublicKey : string)
| successSyncStatus (walletPublicKey : string) (latestBlockNumber clockValue : Z).

Section WithEnv.
Variable env : Env.

Definition sync_status (walletPublicKey' : string) : M SyncStatusResponse :=
  lockHeld <- getLock (getNodeSyncRedisKey walletPublicKey') ;;
  if lockHeld : bool then ret (errorResponseLocked walletPublicKey')
  else
    cnodeUser <- findOneCNodeUser env (Some walletPublicKey') ;;
    let latestBlockNumber' :=
      match cnodeUser with Some u => latestBlockNumber u | None => -1 end in
    let clockValue := match cnodeUser with Some u => clock u | None => -1 end in
    ret (successSyncStatus walletPublicKey' latestBlockNumber' clockValue).

End WithEnv.
End SyncStatusRoute.

(** ** [CreatorNode.prototype.syncSecondary] *)
Module CreatorNodeClient.
Import JS CreatorNode Routes.

(** The fields of [userStateManager.getCurrentUser()] read by
    [syncSecondary]. *)
Record CurrentUser := mkCurrentUser {
  cu_wallet : string;
  cu_creator_node_endpoint : option string }.

(** The request handed to [axios]: [baseURL] and the body of
    [POST /sync]. *)
Record SyncRequest := mkSyncRequest {
  baseURL : string;
  body : SyncBody }.

Inductive Called (A : Type) :=
| Done (a : A)
| TypeErrorThrown.
Arguments Done {A} a.
Arguments TypeErrorThrown {A}.

(** [async syncSecondary (secondary, primary = null, immediate = false,
    validate = true)]: the request that is sent, [None] when none is; reading
    [creator_node_endpoint] of a missing user throws.  [secondary] and
    [primary] are strings or [null]. *)
Definition syncSecondary (user : option CurrentUser) (secondary primary : option string)
    (immediate' validate : bool) : Called (option SyncRequest) :=
  match user with
  | None => TypeErrorThrown
  | Some user =>
      let primary := if truthy primary then primary
                     else getPrimary (cu_creator_node_endpoint user) in
      let secondaries := getSecondaries (cu_creator_node_endpoint user) in
      match primary, secondary with
      | Some primary', Some secondary' =>
          if truthy primary && truthy secondary
             && (negb validate || bool_decide (secondary' ∈ secondaries))
          then Done (Some (mkSyncRequest secondary'
                             (mkSyncBody [cu_wallet user] primary'
                                (ImmediateBool immediate') None)))
          else Done None
      | _, _ => Done None
      end
  end.

End CreatorNodeClient.

(** ** [creator-node/src/routes/files.js]: paths and byte ranges *)
Module Files.
Import JS.

Definition slash : ascii := "/"%char.

(** [arr.slice(0, -1)] and [arr.slice(-1)]. *)
Definition slice_init {A} (l : list A) : list A := take (List.length l - 1)%nat l.
Definition slice_last {A} (l : list A) : list A := drop (List.length l - 1)%nat l.

(** [getDirCID]: [storagePath.split('/').slice(0, -1).join('/')], the
    directory of a stored image. *)
Definition parentStoragePath (storagePath : string) : string :=
  join "/" (slice_init (split slash storagePath)).

(** [getDirCID]: [storagePath.split('/').slice(-1).join('')], the CID of the
    file. *)
Definition cidOfStoragePath (storagePath : string) : string :=
  join "" (slice_last (split slash storagePath)).

(** What [streamFromFileSystem] does with the file once it is found:
    answer 416, stream the bytes [start..end] with status 206, or stream
    the whole file. *)
Inductive StreamPlan :=
| RangeNotSatisfiable
| PartialContent (start end_ : Z)
| WholeFile.

(** [a || d] on a number or [undefined]. *)
Definition or_default (a : option Z) (d : Z) : Z :=
  match a with
  | None | Some 0 => d
  | Some v => v
  end.

(** Lines 48-77 of [streamFromFileSystem]: [stat] is taken only for a
    streamable request; [range] is what [getRequestRange] returns, [None]
    without a range header, with [end] missing for an open range. *)
Definition streamPlan (streamable : bool) (size : Z) (range : option (Z * option Z))
    : StreamPlan :=
  if streamable then
    match range with
    | Some (start, end_) =>
        if match end_ with Some e => size <=? e | None => false end
        then RangeNotSatisfiable
        else PartialContent start (or_default end_ (size - 1))
    | None => WholeFile
    end
  else WholeFile.

End Files.


(* ================================================================== *)
(** * Part II: notions used to state the properties                    *)
(* ================================================================== *)

(** ** Exports *)
Module ExportSpec.
Import JS Data Effects Environment NodeSync Routes.
(** Ascending clock order, and membership of every clock in a window. *)
Definition ascending {A} `{Row A} (l : list A) : Prop :=
  StronglySorted (fun a b => row_clock a <= row_clock b) l.

Definition inWindow {A} `{Row A} (lo hi : Z) (l : list A) : Prop :=
  Forall (fun r => lo <= row_clock r <= hi) l.

(** The upper bound of the window as the specification words it:
    [min(clockRangeMax, clockRangeMin + MAX_RANGE - 1)], the second
    argument alone when no upper bound is requested. *)
Definition specWindowMax (env : Env) (q : ExportQuery) : Z :=
  let lo := default 0 (clock_range_min q) in
  match clock_range_max q with
  | Some m => Z.min m (lo + maxExportClockValueRange env - 1)
  | None => lo + maxExportClockValueRange env - 1
  end.

(** The window as the code computes it: a missing or unparsable lower
    bound is 0; the upper bound is capped by the configured range, and a
    requested upper bound that is missing, unparsable or 0 is replaced by
    the cap. *)
Definition windowMin (q : ExportQuery) : Z := default 0 (clock_range_min q).

Definition windowMax (env : Env) (q : ExportQuery) : Z :=
  let cap := windowMin q + (maxExportClockValueRange env - 1) in
  match clock_range_max q with
  | Some m => if m =? 0 then cap else Z.min m cap
  | None => cap
  end.

(** What an entry of the exported dictionary may have become after rows
    were pushed to it: the scalar fields are those of [u0] and each array is
    a subsequence of the rows offered. *)
Record grown (au : list AudiusUser) (tr : list Track) (fi : list File)
    (cr : list ClockRecord) (u0 u : ExportedCNodeUser) : Prop := mkGrown {
  g_uuid : e_cnodeUserUUID u = e_cnodeUserUUID u0;
  g_clock : e_clock u = e_clock u0;
  g_info : e_clockInfo u = e_clockInfo u0;
  g_au : sublist (e_audiusUsers u) au;
  g_tr : sublist (e_tracks u) tr;
  g_fi : sublist (e_files u) fi;
  g_cr : sublist (e_clockRecords u) cr }.

Definition entries_rel (P : relation ExportedCNodeUser)
    (d0 d : list (string * ExportedCNodeUser)) : Prop :=
  Forall2 (fun e0 e => fst e0 = fst e /\ P (snd e0) (snd e)) d0 d.

End ExportSpec.


(** ** Imports *)
Module SyncSpec.
Import JS Data Effects Environment NodeSync Routes.

(** Operations on the database connection. *)
Definition isDbEvent (e : Event) : bool :=
  match e with
  | EvTransaction | EvCommit | EvRollback
  | EvUpsertCNodeUser _ | EvBulkCreateClockRecords _ | EvBulkCreateFiles _
  | EvBulkCreateTracks _ | EvBulkCreateAudiusUsers _ => true
  | _ => false
  end.

(** Blob fetches (network I/O towards the peers). *)
Definition isBlobFetch (e : Event) : bool :=
  match e with
  | EvSaveFileForMultihash _ _ _ _ => true
  | _ => false
  end.

(** [localMaxClockVal] of a run: the clock of the local row of the first
    requested wallet, or -1 when there is none. *)
Definition localMaxClockValOf (walletPublicKeys : list string) (d : DB) : Z :=
  match walletPublicKeys !! 0%nat with
  | Some wallet =>
      match head (filter (fun u => walletPublicKey u = wallet) (CNodeUsers d)) with
      | Some u => clock u
      | None => -1
      end
  | None => -1
  end.

(** The part of a run before the loop over the fetched users: the locks are
    taken and the export is received and accepted; the result is
    [localMaxClockVal] with the fetched users. *)
Definition fetched (env : Env) (walletPublicKeys : list string) (endpoint : string)
    (w : World) : option (Z * list ExportedCNodeUser) :=
  match acquireLocks walletPublicKeys None w with
  | (Ok redisKey, w1) =>
      match fetchExport env walletPublicKeys endpoint w1 with
      | (Ok r, _) => Some r
      | (Throw _, _) => None
      end
  | (Throw _, _) => None
  end.

(** The gateways computed by [buildUserReplicaSet]. *)
Definition userReplicaSetOf (env : Env) (i : nat) (fetchedWalletPublicKey : string)
    : list string :=
  if fault env (StGetOwnEndpoint i) || fault env (StGetCreatorNodeEndpoints i) then []
  else
    let userReplicaSet := creatorNodeEndpoints env fetchedWalletPublicKey in
    let userReplicaSet :=
      match userMetadataNodeUrl env with
      | Some url => if truthy (Some url) then userReplicaSet ++ [url] else userReplicaSet
      | None => userReplicaSet
      end in
    uniq [] (filter (fun url => url ≠ ownEndpoint env) userReplicaSet).

Definition trackFilesOf (env : Env) (u : ExportedCNodeUser) : list File :=
  filter (fun file => f_type file ∈ TrackTypes env) (e_files u).
Definition nonTrackFilesOf (env : Env) (u : ExportedCNodeUser) : list File :=
  filter (fun file => f_type file ∈ NonTrackTypes env) (e_files u).

Definition rowOf (u : ExportedCNodeUser) (wallet : string) : CNodeUser :=
  mkCNodeUser (e_cnodeUserUUID u) wallet (e_lastLogin u) (e_latestBlockNumber u)
    (e_clock u) (e_createdAt u).

(** The database after the six writes of one fetched user. *)
Definition applyFetched (env : Env) (u : ExportedCNodeUser) (wallet : string) (d : DB) : DB :=
  let uuid := e_cnodeUserUUID u in
  db_addAudiusUsers (map (with_uuid uuid) (e_audiusUsers u))
    (db_addFiles (map (with_uuid uuid) (trackFilesOf env u))
       (db_addTracks (map (with_uuid uuid) (e_tracks u))
          (db_addFiles (map (as_nonTrackFile uuid) (nonTrackFilesOf env u))
             (db_addClockRecords (map (with_uuid uuid) (e_clockRecords u))
                (db_upsertCNodeUser (rowOf u wallet) d))))).

Definition trackFileFetch (gateways : list string) (f : File) : list Event :=
  [EvSaveFileForMultihash (f_multihash f) (f_storagePath f) gateways None].

Definition nonTrackFileFetch (gateways : list string) (f : File) : list Event :=
  if bool_decide (f_type f ≠ "dir") then
    if bool_decide (f_type f = "image") && bool_decide (f_fileName f ≠ None)
    then [EvSaveFileForMultihash (f_multihash f) (f_storagePath f) gateways (f_fileName f)]
    else [EvSaveFileForMultihash (f_multihash f) (f_storagePath f) gateways None]
  else [].

(** The blob fetches of one fetched user, in order. *)
Definition blobFetches (env : Env) (gateways : list string) (u : ExportedCNodeUser)
    : list Event :=
  List.concat (map (trackFileFetch gateways) (trackFilesOf env u))
  ++ List.concat (map (nonTrackFileFetch gateways) (nonTrackFilesOf env u)).

(** The database operations of one fetched user, in order. *)
Definition dbOperations (env : Env) (u : ExportedCNodeUser) (wallet : string) : list Event :=
  let uuid := e_cnodeUserUUID u in
  [EvTransaction;
   EvUpsertCNodeUser (rowOf u wallet);
   EvBulkCreateClockRecords (map (with_uuid uuid) (e_clockRecords u));
   EvBulkCreateFiles (map (as_nonTrackFile uuid) (nonTrackFilesOf env u));
   EvBulkCreateTracks (map (with_uuid uuid) (e_tracks u));
   EvBulkCreateFiles (map (with_uuid uuid) (trackFilesOf env u));
   EvBulkCreateAudiusUsers (map (with_uuid uuid) (e_audiusUsers u));
   EvCommit].

(** Everything a successful import of one fetched user does, in order. *)
Definition importEvents (env : Env) (redisKey : option string) (gateways : list string)
    (u : ExportedCNodeUser) (wallet : string) : list Event :=
  let uuid := e_cnodeUserUUID u in
  [EvTransaction;
   EvUpsertCNodeUser (rowOf u wallet);
   EvBulkCreateClockRecords (map (with_uuid uuid) (e_clockRecords u))]
  ++ blobFetches env gateways u
  ++ [EvBulkCreateFiles (map (as_nonTrackFile uuid) (nonTrackFilesOf env u));
      EvBulkCreateTracks (map (with_uuid uuid) (e_tracks u));
      EvBulkCreateFiles (map (with_uuid uuid) (trackFilesOf env u));
      EvBulkCreateAudiusUsers (map (with_uuid uuid) (e_audiusUsers u));
      EvCommit;
      EvRemoveLock redisKey].

(** Two worlds that differ at most in the blobs on disk and in the log. *)
Definition same_store (w w' : World) : Prop :=
  db w' = db w /\ tx w' = tx w /\ locks w' = locks w /\ syncQueue w' = syncQueue w
  /\ timers w' = timers w /\ nextTimer w' = nextTimer w.

(** A fetch function: it touches only the disk and the log, and what it
    logs does not depend on its outcome. *)
Definition fetcher (save : File -> M unit) (ev : File -> list Event) : Prop :=
  forall f w, same_store w (snd (save f w)) /\ trace (snd (save f w)) = trace w ++ ev f.

(** Database operations and blob fetches: the events whose order the
    claims constrain. *)
Definition isIO (e : Event) : bool := isDbEvent e || isBlobFetch e.

(** A step that leaves the database, the open transaction and the disk
    alone and logs neither a database operation nor a blob fetch. *)
Definition quiet (w w' : World) : Prop :=
  db w' = db w /\ tx w' = tx w /\ disk w' = disk w
  /\ exists events, trace w' = trace w ++ events
                    /\ Forall (fun e => isIO e = false) events.

(** The wallet under which a fetched user is written. *)
Definition walletOf (u : ExportedCNodeUser) : string :=
  default "" (e_walletPublicKey u).

Definition applyAll (env : Env) (committed : list ExportedCNodeUser) (d : DB) : DB :=
  fold_left (fun d u => applyFetched env u (walletOf u) d) committed d.

Definition fetchedUsers (env : Env) (walletPublicKeys : list string) (endpoint : string)
    (w : World) : list ExportedCNodeUser :=
  match fetched env walletPublicKeys endpoint w with
  | Some (_, users) => users
  | None => []
  end.

(** The log of database operations and blob fetches of a world. *)
Definition ioLog (w : World) : list Event := List.filter isIO (trace w).
Definition dbLog (w : World) : list Event := List.filter isDbEvent (trace w).

(** Database operations and blob fetches of one fetched user, in order:
    the fetches lie between the insertion of the clock records and the
    insertion of the files. *)
Definition ioOperations (env : Env) (gateways : list string) (u : ExportedCNodeUser)
    (wallet : string) : list Event :=
  let uuid := e_cnodeUserUUID u in
  [EvTransaction;
   EvUpsertCNodeUser (rowOf u wallet);
   EvBulkCreateClockRecords (map (with_uuid uuid) (e_clockRecords u))]
  ++ blobFetches env gateways u
  ++ [EvBulkCreateFiles (map (as_nonTrackFile uuid) (nonTrackFilesOf env u));
      EvBulkCreateTracks (map (with_uuid uuid) (e_tracks u));
      EvBulkCreateFiles (map (with_uuid uuid) (trackFilesOf env u));
      EvBulkCreateAudiusUsers (map (with_uuid uuid) (e_audiusUsers u));
      EvCommit].

(** Whether some blob fetch of a log starts while a transaction is open;
    [open] tells whether one is open before the log. *)
Fixpoint fetchWhileOpen (open : bool) (events : list Event) : bool :=
  match events with
  | [] => false
  | e :: rest =>
      (open && isBlobFetch e)
      || fetchWhileOpen (match e with
                         | EvTransaction => true
                         | EvCommit | EvRollback => false
                         | _ => open
                         end) rest
  end.

(** Clocks that go up by one from a first value. *)
Fixpoint strictlyFrom (first : Z) (clocks : list Z) : bool :=
  match clocks with
  | [] => true
  | c :: rest => (c =? first) && strictlyFrom (first + 1) rest
  end.

End SyncSpec.


(** ** Frames *)
Module FrameSpec.
Import Data Effects.

(** [c] never changes the part [p] of the world, whether it returns or
    throws. *)
Definition keeps {A B} (p : World -> B) (c : M A) : Prop :=
  forall w, p (snd (c w)) = p w.

(** [c] and [c'] return the same value or throw the same exception,
    whatever the worlds they start from. *)
Definition sameOutcome {A} (c c' : M A) : Prop :=
  forall w w', fst (c w) = fst (c' w').

(** [save] writes, when it returns, the paths [P f] of the file to the
    disk and no other. *)
Definition stores_ok (save : File -> M unit) (P : File -> string -> Prop) : Prop :=
  forall f w0 w1, save f w0 = (Ok tt, w1) ->
                  forall x, x ∈ disk w1 <-> x ∈ disk w0 \/ P f x.

End FrameSpec.

(** ** Peers and gateways of an import *)
Module PeerSpec.
Import JS Data Effects Environment NodeSync.

(** A peer address that [_initBootstrapAndRefreshPeers] connects to: not an
    IPv6 or loopback address and not an address of the node itself. *)
Definition eligiblePeer (own : list string) (addr : string) : bool :=
  negb (includes "ip6" addr || includes "127.0.0.1" addr)
  && negb (bool_decide (addr ∈ own)).

(** Adding the peers to the bootstrap list and connecting to them, one
    after the other. *)
Definition peerEvents (addrs : list string) : list Event :=
  flat_map (fun addr => [EvBootstrapAdd addr; EvSwarmConnect addr]) addrs.

(** A fetched user that passes the checks of lines 295-339 against the
    local clock [L]. *)
Definition accepted (walletPublicKeys : list string) (L : Z) (u : ExportedCNodeUser)
    : Prop :=
  exists wallet,
    e_walletPublicKey u = Some wallet
    /\ wallet ∈ walletPublicKeys
    /\ L <= e_clock u
    /\ (L < e_clock u ->
        forall first, e_clockRecords u !! 0%nat = Some first -> cr_clock first = L + 1).



End PeerSpec.

(** ** A peer that runs this code *)
Module ReplicaSpec.
Import JS Data Effects Environment NodeSync Routes.

(** The query that [/export] receives when [axios] sends
    [exportQueryParams]: the parameters as they are; [clock_range_max] is
    not among them. *)
Definition queryOf (p : ExportQueryParams) : ExportQuery :=
  mkExportQuery (qp_wallet_public_key p) (qp_source_endpoint p)
    (Some (qp_clock_range_min p)) None.

(** The response that [axios] delivers for what the route returns: the
    object of a successful export as [data] with status 200, and the status
    of the error otherwise. *)
Definition responseOf (r : Outcome Response * World) : AxiosResponse :=
  match fst r with
  | Ok (successExport cnodeUsers' ipfsIDObj') =>
      mkAxiosResponse 200 (Some (mkExportBody (Some cnodeUsers') (Some ipfsIDObj'))) None
  | Ok successResponse => mkAxiosResponse 200 None None
  | Ok (errorResponseBadRequest _) => mkAxiosResponse 400 None None
  | Ok (errorResponseServerError _) | Throw _ => mkAxiosResponse 500 None None
  end.

(** The peer that the node of [secondary] reaches at [endpoint] is a node
    in the state [primaryW] that answers [/export] by this code, in the
    environment [primary]. *)
Definition exportsFrom (secondary : Env) (endpoint : string) (primary : Env)
    (primaryW : World) : Prop :=
  forall p, axiosExport secondary endpoint p = responseOf (export primary (queryOf p) primaryW).

End ReplicaSpec.

(** ** The queue of debounced syncs *)
Module QueueSpec.
Import Effects Routes.

(** Every pending timer is the one that the queue holds for its wallet, so
    that a wallet has at most one pending sync, and the handle that the
    queue holds for a wallet is not the timer of another wallet. *)
Definition queueTracksTimers (w : World) : Prop :=
  (forall (handle : nat) (wallet endpoint : string),
      timers w !! handle = Some (wallet, endpoint) ->
      syncQueue w !! wallet = Some handle)
  /\ (forall (handle : nat) (wallet other endpoint : string),
        syncQueue w !! wallet = Some handle ->
        timers w !! handle = Some (other, endpoint) ->
        other = wallet).

(** The handles that [setTimeout] has not given out yet are not in use. *)
Definition handlesFresh (w : World) : Prop :=
  (forall handle : nat, (nextTimer w <= handle)%nat -> timers w !! handle = None)
  /\ (forall (wallet : string) (handle : nat),
        syncQueue w !! wallet = Some handle -> (handle < nextTimer w)%nat).


(** Two worlds with the same queue, timers and next handle. *)
Definition sameQueue (w w' : World) : Prop :=
  syncQueue w' = syncQueue w /\ timers w' = timers w /\ nextTimer w' = nextTimer w.

End QueueSpec.

(** ** Selections *)
Module SelectionSpec.
Import CreatorNodeSelection.

(** A health-check answer that [_performHealthChecks] accepts when the
    current version is [v]. *)
Definition healthyAnswer (env : Env) (v : string) (r : TimedRequest) : Prop :=
  exists hr version,
    response r = Some hr
    /\ hr_status hr = 200
    /\ hr_data hr = Some version
    /\ hasSameMajorAndMinorVersion env v version = Some true.

(** A health-check answer on which the callback of the filter throws when
    the current version is [v]: it carries no data to read the version from,
    or the comparison of its version with [v] throws. *)
Definition unreadableAnswer (env : Env) (v : string) (r : TimedRequest) : Prop :=
  exists hr,
    response r = Some hr
    /\ (hr_data hr = None
        \/ exists version,
             hr_data hr = Some version
             /\ hasSameMajorAndMinorVersion env v version = None).

(** The verdict of the loop of [_performSyncChecks] on one endpoint. *)
Definition passesSyncCheck (env : Env) (service : string) : bool :=
  match creatorNode_getSyncStatus env service with
  | Some syncStatus =>
      (isBehind syncStatus && negb (isConfigured syncStatus))
      || (negb (isBehind syncStatus) && isConfigured syncStatus)
  | None => false
  end.

(** The stage that an entry of the decision tree records. *)
Definition stageOf (e : DecisionEntry) : DECISION_TREE_STATE :=
  match e with
  | StageServices stage _ => stage
  | StageSelected _ _ _ => SELECT_PRIMARY_AND_SECONDARIES
  end.

(** The configuration of a selector: what a selection never changes. *)
Definition sameConfig (this this' : Selector) : Prop :=
  whitelist this' = whitelist this
  /\ blacklist this' = blacklist this
  /\ numberOfNodes this' = numberOfNodes this
  /\ timeout this' = timeout this.

(** The requests handed to [timeRequestsAndSortByVersion]. *)
Definition healthRequests (services : list string) : list (string * string) :=
  map (fun node => (node, node +:+ "/" +:+ healthCheckPath)) services.

(** The endpoints that are health-checked: the registered ones that the
    allow-list and the deny-list let through and, when the sync check is
    performed, that pass it. *)
Definition candidates (env : Env) (performSyncCheck : bool) (this : Selector)
    (registered : list string) : list string :=
  let services := match whitelist this with
                  | Some allow => filterToWhitelist allow registered
                  | None => registered
                  end in
  let services := match blacklist this with
                  | Some deny => filterFromBlacklist deny services
                  | None => services
                  end in
  if performSyncCheck then List.filter (passesSyncCheck env) services else services.

(** The answers to the health checks of a selection. *)
Definition healthChecked (env : Env) (performSyncCheck : bool) (this : Selector)
    (registered : list string) : list TimedRequest :=
  timeRequestsAndSortByVersion env
    (healthRequests (candidates env performSyncCheck this registered)) (timeout this).

(** The network helper answers only for the requests it was given. *)
Definition answersRequests (env : Env) : Prop :=
  forall requests timeout' r,
    r ∈ timeRequestsAndSortByVersion env requests timeout' ->
    request_id r ∈ map fst requests.

End SelectionSpec.


(* ================================================================== *)
(** * Part III: concrete nodes and runs                                *)
(* ================================================================== *)

Module Examples.
Import JS Data Effects Environment NodeSync Routes.

(** A node configured with a range of 1000 clock values, on which no
    external call fails and whose peer answers nothing useful. *)
Definition quietEnv : Env :=
  mkEnv 1000 None None 0 ["track"; "copy320"] ["dir"; "image"; "metadata"]
    (fun _ => false)
    (fun _ _ => mkAxiosResponse 200 None None)
    "https://self" (fun _ => []) (mkIpfsIDObj (Some [])).

Definition idleWorld (d : DB) : World := mkWorld d None ∅ ∅ ∅ 0 ∅ [].

(** A primary that holds one user at clock 3 with one record per clock. *)
Definition primaryDB : DB :=
  mkDB [mkCNodeUser "uuid-p" "0xabc" 0 120 3 0]
       [mkClockRecord "uuid-p" 1 AudiusUserTable;
        mkClockRecord "uuid-p" 2 FileTable;
        mkClockRecord "uuid-p" 3 TrackTable]
       [mkFile "uuid-p" 2 None "QmMeta" "/file_storage/QmMeta" "metadata" None]
       [mkTrack "uuid-p" 3 77 "file-uuid-2"]
       [mkAudiusUser "uuid-p" 1 9 "file-uuid-1"].

Definition exportEnv : Env :=
  mkEnv 1000 None None 0 ["track"; "copy320"] ["dir"; "image"; "metadata"]
    (fun _ => false)
    (fun _ _ => mkAxiosResponse 200 None None)
    "https://primary" (fun _ => []) (mkIpfsIDObj (Some [])).

Definition primaryWorld : World := mkWorld primaryDB None ∅ ∅ ∅ 0 ∅ [].

(** A secondary that holds the user of wallet [0xabc] at clock 2. *)
Definition secondaryDB : DB :=
  mkDB [mkCNodeUser "uuid-1" "0xabc" 0 100 2 0]
       [mkClockRecord "uuid-1" 1 AudiusUserTable;
        mkClockRecord "uuid-1" 2 FileTable]
       [mkFile "uuid-1" 2 None "QmOld" "/file_storage/QmOld" "metadata" None]
       []
       [mkAudiusUser "uuid-1" 1 9 "file-uuid-1"].

Definition secondaryWorld : World := mkWorld secondaryDB None ∅ ∅ ∅ 0 ∅ [].

Definition exportedUser (clock' : Z) (records : list ClockRecord) (files : list File)
    (tracks : list Track) : ExportedCNodeUser :=
  mkExported "uuid-1" (Some "0xabc") 0 120 clock' 0 [] tracks files records
    (mkClockInfo 3 1002 clock').

(** An environment in which the primary answers every export request with
    the one user [u]; [faults] names the external calls that throw. *)
Definition envWith (faults : Step -> bool) (u : ExportedCNodeUser) : Env :=
  mkEnv 1000 (Some "https://secondary") None 0
    ["track"; "copy320"] ["dir"; "image"; "metadata"]
    faults
    (fun _ _ => mkAxiosResponse 200
                  (Some (mkExportBody (Some [("uuid-1", u)]) (Some (mkIpfsIDObj (Some [])))))
                  None)
    "https://secondary"
    (fun _ => ["https://primary"; "https://secondary"])
    (mkIpfsIDObj (Some [])).

Definition noFault : Step -> bool := fun _ => false.

(** Clocks 3 and 4 follow the local clock 2. *)
Definition nextUser : ExportedCNodeUser :=
  exportedUser 4
    [mkClockRecord "uuid-1" 3 FileTable; mkClockRecord "uuid-1" 4 FileTable]
    [mkFile "uuid-1" 3 None "QmMeta" "/file_storage/QmMeta" "metadata" None;
     mkFile "uuid-1" 4 (Some 77) "QmSegment" "/file_storage/QmSegment" "track" None]
    [].

(** Clock 4 is missing between the records 3 and 5. *)
Definition gapUser : ExportedCNodeUser :=
  exportedUser 5
    [mkClockRecord "uuid-1" 3 FileTable; mkClockRecord "uuid-1" 5 FileTable]
    [mkFile "uuid-1" 3 None "QmMeta" "/file_storage/QmMeta" "metadata" None;
     mkFile "uuid-1" 5 None "QmCover" "/file_storage/QmCover" "metadata" None]
    [].

(** The records start at clock 4 although the local clock is 2. *)
Definition lateUser : ExportedCNodeUser :=
  exportedUser 4 [mkClockRecord "uuid-1" 4 FileTable]
    [mkFile "uuid-1" 4 None "QmMeta" "/file_storage/QmMeta" "metadata" None] [].

(** A primary that is behind the secondary, and one that is level with it. *)
Definition staleUser : ExportedCNodeUser := exportedUser 1 [] [] [].
Definition levelUser : ExportedCNodeUser := exportedUser 2 [] [] [].

(** The insertion of the track rows fails. *)
Definition tracksFail : Step -> bool :=
  fun s => match s with StBulkCreateTracks _ => true | _ => false end.

End Examples.

Module SelectionExamples.
Import CreatorNodeSelection.

(** Two registered nodes, one that cannot be reached and one that runs an
    outdated version; no health-check callback is registered. *)
Definition downEnv : Env :=
  mkEnv (Some "1.2.0") (Some ["https://cn1"; "https://cn2"])
    (fun a b => Some (bool_decide (Some a = b)))
    (fun reqs _ =>
       [mkTimedRequest "https://cn1" "https://cn1/health_check/verbose" None;
        mkTimedRequest "https://cn2" "https://cn2/health_check/verbose"
          (Some (mkHealthResponse 200 (Some (Some "1.1.9"))))])
    (Some (mkUser "0xabc" 10 10))
    (fun _ => Some 10)
    (Some None)
    (fun _ => true).

Definition freshSelector : Selector :=
  mkSelector None None 3 None None [] [] ∅.

End SelectionExamples.


(** ** An export of two users *)
Module TwoUserExamples.
Import Data Effects Environment Examples.




End TwoUserExamples.

(** ** A pending sync *)
Module QueueExamples.
Import Data Effects.

(** A node on which a debounced sync of wallet [0xabc] from an old primary
    is pending. *)
Definition pendingWorld : World :=
  mkWorld emptyDB None ∅ {["0xabc" := 0%nat]} {[0%nat := ("0xabc", "https://old")]} 1 ∅ [].

End QueueExamples.

(** ** The peers of an export *)
Module PeerExamples.
Import Effects.

(** The addresses that an export names: three peers, a loopback address and
    an IPv6 address. *)
Definition exportedPeers : list string :=
  ["/ip4/10.0.0.1/tcp/4001"; "/ip4/127.0.0.1/tcp/4001"; "/ip4/10.0.0.2/tcp/4001";
   "/ip6/::1/tcp/4001"; "/ip4/10.0.0.3/tcp/4001"].

(** The connection to the second peer fails. *)
Definition connectFails : Step -> bool :=
  fun s => match s with
           | StSwarmConnect addr => bool_decide (addr = "/ip4/10.0.0.2/tcp/4001")
           | _ => false
           end.

End PeerExamples.

(** ** A selection among healthy nodes *)
Module UpExamples.
Import CreatorNodeSelection.

(** Three registered nodes that answer the health check with the current
    version and have caught up with the user; no health-check callback is
    registered. *)
Definition upEnv : Env :=
  mkEnv (Some "1.2.0") (Some ["https://cn1"; "https://cn2"; "https://cn3"])
    (fun a b => Some (bool_decide (Some a = b)))
    (fun reqs _ =>
       map (fun req => mkTimedRequest (fst req) (snd req)
                         (Some (mkHealthResponse 200 (Some (Some "1.2.0"))))) reqs)
    (Some (mkUser "0xabc" 10 10))
    (fun _ => Some 10)
    (Some None)
    (fun _ => true).

(** The same nodes when [https://cn3] answers the health check without
    the data that carry its version. *)
Definition bareEnv : Env :=
  mkEnv (Some "1.2.0") (Some ["https://cn1"; "https://cn2"; "https://cn3"])
    (fun a b => Some (bool_decide (Some a = b)))
    (fun reqs _ =>
       map (fun req => mkTimedRequest (fst req) (snd req)
                         (Some (mkHealthResponse 200
                                  (if bool_decide (fst req = "https://cn3") then None
                                   else Some (Some "1.2.0"))))) reqs)
    (Some (mkUser "0xabc" 10 10))
    (fun _ => Some 10)
    (Some None)
    (fun _ => true).

(** A selector for two nodes that must not use [https://cn2]. *)
Definition pickySelector : Selector :=
  mkSelector None (Some {["https://cn2"]}) 2 None None [] [] ∅.

End UpExamples.

(** ** A primary and its replica *)
Module ReplicaExamples.
Import Data Effects Environment Routes ReplicaSpec Examples.

(** A primary that holds the user of wallet [0xabc] under the UUID of the
    secondary, at clock 4. *)
Definition replicaPrimaryDB : DB :=
  mkDB [mkCNodeUser "uuid-1" "0xabc" 0 120 4 0]
       [mkClockRecord "uuid-1" 1 AudiusUserTable;
        mkClockRecord "uuid-1" 2 FileTable;
        mkClockRecord "uuid-1" 3 FileTable;
        mkClockRecord "uuid-1" 4 FileTable]
       [mkFile "uuid-1" 2 None "QmOld" "/file_storage/QmOld" "metadata" None;
        mkFile "uuid-1" 3 None "QmMeta" "/file_storage/QmMeta" "metadata" None;
        mkFile "uuid-1" 4 (Some 77) "QmSegment" "/file_storage/QmSegment" "track" None]
       []
       [mkAudiusUser "uuid-1" 1 9 "file-uuid-1"].

Definition replicaPrimaryWorld : World := mkWorld replicaPrimaryDB None ∅ ∅ ∅ 0 ∅ [].

(** The secondary, which reaches that primary at every endpoint. *)
Definition replicaEnv : Env :=
  mkEnv 1000 (Some "https://secondary") None 0
    ["track"; "copy320"] ["dir"; "image"; "metadata"]
    noFault
    (fun _ p => responseOf (export exportEnv (queryOf p) replicaPrimaryWorld))
    "https://secondary"
    (fun _ => ["https://primary"; "https://secondary"])
    (mkIpfsIDObj (Some [])).

End ReplicaExamples.


(* ================================================================== *)
(** * Part IV: proofs                                                  *)
(* ================================================================== *)

Section EndpointStrings.
Import JS CreatorNode.

Lemma split_no_sep (sep : ascii) (t : string) :
  has_char sep t = false -> split sep t = [t].
Proof.
  induction t as [|c t IH]; simpl; [done|].
  intros H. apply orb_false_iff in H as [Hc Ht].
  rewrite Hc, (IH Ht). done.
Qed.

Lemma split_app_sep (sep : ascii) (t r : string) :
  has_char sep t = false ->
  split sep (t +:+ String sep r) = t :: split sep r.
Proof.
  induction t as [|c t IH]; simpl.
  - intros _. by rewrite Ascii.eqb_refl.
  - intros H. apply orb_false_iff in H as [Hc Ht].
    rewrite Hc, (IH Ht). done.
Qed.

Lemma split_join (sep : ascii) (p : string) (s : list string) :
  Forall (fun x => has_char sep x = false) (p :: s) ->
  split sep (join (String sep EmptyString) (p :: s)) = p :: s.
Proof.
  revert p. induction s as [|x s IH]; intros p H.
  - simpl. apply split_no_sep. by inversion H.
  - inversion H as [|? ? Hp Hs]; subst.
    change (join (String sep "") (p :: x :: s))
      with (p +:+ String sep (join (String sep "") (x :: s))).
    rewrite split_app_sep by done. by rewrite IH.
Qed.

Lemma join_truthy (sep p : string) (s : list string) :
  p <> EmptyString -> truthy (Some (join sep (p :: s))) = true.
Proof.
  intros Hp. destruct p as [|c p]; [done|].
  destruct s; done.
Qed.

End EndpointStrings.

Section EndpointClaims.
Import JS CreatorNode.

(** C10: for a non-empty primary [p] and secondaries [s], none of the strings
    containing a comma, [getPrimary (buildEndpoint p s)] is [p] and
    [getSecondaries (buildEndpoint p s)] is [s]; for an empty or a missing
    endpoint string [getPrimary] is the empty string and [getSecondaries] the
    empty list. *)
Theorem endpoint_roundtrip :
  (forall (p : string) (s : list string),
      p <> EmptyString ->
      has_char comma p = false ->
      Forall (fun x => has_char comma x = false) s ->
      getPrimary (Some (buildEndpoint p s)) = Some p
      /\ getSecondaries (Some (buildEndpoint p s)) = s)
  /\ getPrimary None = Some EmptyString
  /\ getPrimary (Some EmptyString) = Some EmptyString
  /\ getSecondaries None = []
  /\ getSecondaries (Some EmptyString) = [].
Proof.
  split; [|done].
  intros p s Hp Hc Hs.
  unfold getPrimary, getSecondaries, buildEndpoint.
  rewrite join_truthy by done.
  change "," with (String comma EmptyString).
  rewrite split_join by (constructor; done).
  done.
Qed.

(** The round trip on a replica set of three nodes. *)
Lemma endpoint_roundtrip_witness :
  getPrimary (Some (buildEndpoint "https://cn1.audius.co"
                      ["https://cn2.audius.co"; "https://cn3.audius.co"]))
    = Some "https://cn1.audius.co"
  /\ getSecondaries (Some (buildEndpoint "https://cn1.audius.co"
                      ["https://cn2.audius.co"; "https://cn3.audius.co"]))
    = ["https://cn2.audius.co"; "https://cn3.audius.co"].
Proof.
  apply (proj1 endpoint_roundtrip).
  - discriminate.
  - reflexivity.
  - repeat constructor.
Defined.

End EndpointClaims.

Section RouteClaims.
Import JS Data Effects Environment NodeSync Routes Examples.


(** C6 (the code at the failing input): a request for the one-record window
    [[5, 5]] is answered with a bad-request error. *)
Theorem export_rejects_one_record_window :
  forall w : World,
    export quietEnv (mkExportQuery ["0xabc"] None (Some 5) (Some 5)) w
    = (Ok (errorResponseBadRequest (InvalidClockRange 5 5)), w).
Proof. intros w. reflexivity. Qed.

(** C9: a [POST /sync] whose wallet array is empty or has more than one
    element is answered with a bad-request error and leaves the node as it
    was (no lock, no queued sync, no effect); a request that is not answered
    so has exactly one wallet, and a request with exactly one wallet is
    never refused as a bad request. *)
Theorem sync_requires_one_wallet (env : Env) (body : SyncBody) (w : World) :
  (List.length (wallet body) <> 1%nat ->
     sync env body w
     = (Ok (errorResponseBadRequest
              (if (List.length (wallet body) =? 0)%nat
               then MustProvideOneWallet else MultiWalletSyncsDisabled)), w))
  /\ ((forall msg, fst (sync env body w) <> Ok (errorResponseBadRequest msg)) <->
      List.length (wallet body) = 1%nat).
Proof.
  assert (Hbad : List.length (wallet body) <> 1%nat ->
     sync env body w
     = (Ok (errorResponseBadRequest
              (if (List.length (wallet body) =? 0)%nat
               then MustProvideOneWallet else MultiWalletSyncsDisabled)), w)).
  { intros Hlen. unfold sync.
    destruct (Nat.eqb_spec (List.length (wallet body)) 0) as [H0|H0]; [done|].
    destruct (Nat.ltb_spec 1 (List.length (wallet body))) as [H1|H1]; [done|lia]. }
  split; [exact Hbad|]. split.
  - intros Hno.
    destruct (decide (List.length (wallet body) = 1%nat)) as [|Hne]; [done|].
    exfalso. eapply Hno. rewrite (Hbad Hne). reflexivity.
  - intros Hone msg. unfold sync. rewrite Hone. simpl.
    destruct (match immediate body with
              | ImmediateBool b => b
              | ImmediateString s => bool_decide (s = "true")
              | ImmediateAbsent => false
              end).
    + unfold bind.
      destruct (_nodesync env (wallet body) (creator_node_endpoint body) w)
        as [[[e|]|e] w']; simpl; discriminate.
    + unfold bind.
      destruct (enqueueSyncs (wallet body) (creator_node_endpoint body) w)
        as [[?|e] w']; simpl; discriminate.
Qed.

(** A request with two wallets is refused and changes nothing. *)
Lemma sync_requires_one_wallet_witness :
  sync quietEnv (mkSyncBody ["0xa"; "0xb"] "https://primary" (ImmediateBool true) None)
       (idleWorld emptyDB)
  = (Ok (errorResponseBadRequest MultiWalletSyncsDisabled), idleWorld emptyDB).
Proof.
  apply (proj1 (sync_requires_one_wallet quietEnv
                  (mkSyncBody ["0xa"; "0xb"] "https://primary" (ImmediateBool true) None)
                  (idleWorld emptyDB))).
  simpl. lia.
Defined.

End RouteClaims.

Section SelectionClaims.
Import CreatorNodeSelection SelectionExamples.

(** C7 fails: when no candidate survives, [select] raises nothing and
    returns a selection whose primary is [undefined]. *)
Lemma select_returns_without_primary :
  fst (healthyCandidates downEnv true freshSelector) = Returned ([], [])
  /\ fst (select downEnv true freshSelector) = Returned (mkSelection None [] []).
Proof. vm_compute. split; reflexivity. Qed.

(** C7, amended: when the filtering stages complete and leave no healthy
    candidate, [select] returns normally: the primary is [undefined], there
    are no secondaries, the services map is empty, and the last entry of the
    decision tree records this selection.  [select] has no exception of its
    own: when it raises, with or without a candidate, it passes on the
    exception of a filtering stage. *)
Theorem select_no_candidate (env : Env) (performSyncCheck : bool) (this : Selector) :
  (forall this1 servicesMap,
      healthyCandidates env performSyncCheck this = (Returned ([], servicesMap), this1) ->
      servicesMap = []
      /\ exists this2,
           select env performSyncCheck this = (Returned (mkSelection None [] []), this2)
           /\ last (decisionTree this2) = Some (StageSelected None [] []))
  /\ (forall e this2,
        select env performSyncCheck this = (Raised e, this2) ->
        healthyCandidates env performSyncCheck this = (Raised e, this2)).
Proof.
  split.
  - intros this1 servicesMap H.
    assert (Hmap : servicesMap = []).
    { unfold healthyCandidates in H.
      destruct (getServices _ _) as [[all|e] this']; [|discriminate].
      match type of H with
      | (let '(_, _) := ?c in _) = _ => destruct c as [services this'']
      end.
      unfold _performHealthChecks in H.
      destruct (filterHealthy _ _ _) as [[healthy|e] this3]; [|discriminate].
      destruct (recordMetrics _ _); [|discriminate].
      injection H as Hl Hm _.
      apply map_eq_nil in Hl. rewrite Hl in Hm. by rewrite <- Hm. }
    split; [exact Hmap|].
    unfold select. rewrite H. subst servicesMap.
    assert (Hsec : getSecondaries (setBackupsList (drop 1 []) this1) = []).
    { unfold getSecondaries, slice_to. simpl.
      destruct (numberOfNodes this1 - 1 <? 0); apply take_nil. }
    rewrite Hsec. eexists. split; [reflexivity|].
    unfold push, set_decisionTree. simpl. apply last_snoc.
  - intros e this2. unfold select.
    destruct (healthyCandidates env performSyncCheck this) as [[[services smap]|e'] this1];
      [discriminate|].
    by intros [= -> ->].
Qed.

(** The selection among two unusable nodes. *)
Lemma select_no_candidate_witness :
  exists this2,
    select downEnv true freshSelector = (Returned (mkSelection None [] []), this2)
    /\ last (decisionTree this2) = Some (StageSelected None [] []).
Proof.
  refine (proj2 (proj1 (select_no_candidate downEnv true freshSelector)
                   (snd (healthyCandidates downEnv true freshSelector)) [] _)).
  vm_compute. reflexivity.
Defined.

End SelectionClaims.

Section ExportFacts.
Import JS Data Effects Environment NodeSync Routes ExportSpec.

Context {A : Type} `{Row A}.

Lemma insertByClock_elem (x y : A) (l : list A) :
  y ∈ insertByClock x l <-> y = x \/ y ∈ l.
Proof.
  induction l as [|z l IH]; simpl.
  - rewrite list_elem_of_singleton, elem_of_nil. tauto.
  - destruct (row_clock x <=? row_clock z).
    + rewrite elem_of_cons. tauto.
    + rewrite !elem_of_cons, IH. tauto.
Qed.

Lemma insertByClock_ascending (x : A) (l : list A) :
  ascending l -> ascending (insertByClock x l).
Proof.
  unfold ascending. induction 1 as [|z l Hs IH Hz]; simpl.
  - repeat constructor.
  - destruct (Z.leb_spec (row_clock x) (row_clock z)) as [Hle|Hgt].
    + constructor; [by constructor|].
      constructor; [done|].
      eapply Forall_impl; [exact Hz|]. simpl. intros; lia.
    + constructor; [done|].
      apply Forall_forall. intros y Hy.
      apply insertByClock_elem in Hy as [->|Hy]; [lia|].
      rewrite Forall_forall in Hz. by apply Hz.
Qed.

Lemma orderByClockAsc_elem (y : A) (l : list A) :
  y ∈ orderByClockAsc l <-> y ∈ l.
Proof.
  unfold orderByClockAsc. induction l as [|x l IH]; simpl; [done|].
  rewrite insertByClock_elem, elem_of_cons, IH. done.
Qed.

Lemma orderByClockAsc_ascending (l : list A) : ascending (orderByClockAsc l).
Proof.
  unfold orderByClockAsc. induction l as [|x l IH]; simpl.
  - constructor.
  - by apply insertByClock_ascending.
Qed.

Lemma findAllInRange_ascending (table : list A) (uuids : list string) (lo hi : Z) :
  ascending (findAllInRange table uuids lo hi).
Proof. apply orderByClockAsc_ascending. Qed.

Lemma findAllInRange_inWindow (table : list A) (uuids : list string) (lo hi : Z) :
  inWindow lo hi (findAllInRange table uuids lo hi).
Proof.
  apply Forall_forall. intros r Hr.
  apply orderByClockAsc_elem, list_elem_of_filter in Hr as [(_ & ? & ?) _]. lia.
Qed.

Lemma ascending_sublist (l k : list A) :
  sublist l k -> ascending k -> ascending l.
Proof.
  unfold ascending. induction 1 as [|x l k Hsub IH|x l k Hsub IH]; intros Hk.
  - constructor.
  - inversion Hk as [|? ? Hs Hx]; subst. constructor; [by apply IH|].
    apply Forall_forall. intros y Hy. rewrite Forall_forall in Hx.
    apply Hx. by eapply elem_of_sublist.
  - inversion Hk; subst. by apply IH.
Qed.

Lemma inWindow_sublist (lo hi : Z) (l k : list A) :
  sublist l k -> inWindow lo hi k -> inWindow lo hi l.
Proof.
  unfold inWindow. rewrite !Forall_forall. intros Hsub Hk r Hr.
  apply Hk. by eapply elem_of_sublist.
Qed.

End ExportFacts.

Section DictFacts.
Import JS Data Effects Environment NodeSync Routes ExportSpec.

Lemma dict_set_elem {V} (key k : string) (value v : V) (d : list (string * V)) :
  (k, v) ∈ dict_set key value d -> (k = key /\ v = value) \/ (k, v) ∈ d.
Proof.
  induction d as [|[k' v'] d IH]; simpl.
  - rewrite list_elem_of_singleton. intros [= -> ->]. by left.
  - case_bool_decide as Hk; rewrite !elem_of_cons.
    + intros [[= -> ->]|Hin]; [left; done|right; by right].
    + intros [Heq|Hin]; [right; by left|].
      destruct (IH Hin) as [?|?]; [by left|right; by right].
Qed.

Lemma dict_update_rel (P P' : relation ExportedCNodeUser) key f d0 d :
  (forall u0 u, P u0 u -> P' u0 u) ->
  (forall u0 u, P u0 u -> P' u0 (f u)) ->
  entries_rel P d0 d ->
  entries_rel P' d0 (dict_update key f d).
Proof.
  intros Hkeep Hf. unfold entries_rel.
  induction 1 as [|[k0 u0] [k u] d0 d [Hk HP] Hrest IH]; simpl; [constructor|].
  simpl in Hk. case_bool_decide.
  - constructor; [split; [done|by apply Hf]|].
    eapply Forall2_impl; [exact Hrest|]. intros ? ? [? ?]. split; [done|by apply Hkeep].
  - constructor; [split; [done|by apply Hkeep]|exact IH].
Qed.

Lemma pushAll_rel {A} `{Row A} (push : A -> ExportedCNodeUser -> ExportedCNodeUser)
    (P : list A -> relation ExportedCNodeUser) :
  (forall l r u0 u, P l u0 u -> P (l ++ [r]) u0 u) ->
  (forall l r u0 u, P l u0 u -> P (l ++ [r]) u0 (push r u)) ->
  forall rows done d0 d,
    entries_rel (P done) d0 d ->
    entries_rel (P (done ++ rows)) d0 (pushAll push rows d).
Proof.
  intros Hkeep Hpush. unfold pushAll.
  induction rows as [|r rows IH]; intros done d0 d Hrel; simpl.
  - by rewrite app_nil_r.
  - replace (done ++ r :: rows) with ((done ++ [r]) ++ rows)
      by (by rewrite <- app_assoc).
    apply IH. eapply dict_update_rel; [apply Hkeep|apply Hpush|exact Hrel].
Qed.

Lemma sublist_snoc_keep {B} (l done : list B) (r : B) :
  sublist l done -> sublist l (done ++ [r]).
Proof. apply sublist_inserts_r. Qed.

Lemma sublist_snoc_push {B} (l done : list B) (r : B) :
  sublist l done -> sublist (l ++ [r]) (done ++ [r]).
Proof. intros. by apply sublist_app. Qed.

(** The dictionary of lines 103-126 holds, under the UUID of a row, the
    bundle of a row that was read. *)
Lemma bundled_dict_elem (lo hi : Z) (rows : list CNodeUser) :
  forall d k v,
    (k, v) ∈ fold_left (fun d cnodeUser =>
                dict_set (cnodeUserUUID cnodeUser) (bundleCNodeUser lo hi cnodeUser) d)
              rows d ->
    (k, v) ∈ d
    \/ exists row, row ∈ rows /\ k = cnodeUserUUID row /\ v = bundleCNodeUser lo hi row.
Proof.
  induction rows as [|row rows IH]; intros d k v Hin; simpl in Hin; [by left|].
  destruct (IH _ _ _ Hin) as [Hd|(row' & ? & ? & ?)].
  - apply dict_set_elem in Hd as [[-> ->]|Hd]; [|by left].
    right. exists row. split; [by left|done].
  - right. exists row'. split; [by right|done].
Qed.

(** Every entry of a bundle: the scalar fields of the bundled row and, in
    each array, a subsequence of the rows that were read. *)
Lemma bundle_entry (lo hi : Z) (rows : list CNodeUser) (au : list AudiusUser)
    (tr : list Track) (fi : list File) (cr : list ClockRecord) k u :
  (k, u) ∈ bundle lo hi rows au tr fi cr ->
  exists row, row ∈ rows /\ k = cnodeUserUUID row
              /\ grown au tr fi cr (bundleCNodeUser lo hi row) u.
Proof.
  unfold bundle. intros Hin.
  set (d0 := fold_left _ rows []) in *.
  assert (Hrel : entries_rel (grown au tr fi cr) d0
            (pushAll push_clockRecord cr
               (pushAll push_file fi (pushAll push_track tr (pushAll push_audiusUser au d0))))).
  { apply (pushAll_rel push_clockRecord (fun l => grown au tr fi l)) with (done := []).
    { intros l r u0 u1 [? ? ? ? ? ? ?]. constructor; try done. by apply sublist_snoc_keep. }
    { intros l r u0 u1 [? ? ? ? ? ? ?]. constructor; try done. by apply sublist_snoc_push. }
    apply (pushAll_rel push_file (fun l => grown au tr l [])) with (done := []).
    { intros l r u0 u1 [? ? ? ? ? ? ?]. constructor; try done. by apply sublist_snoc_keep. }
    { intros l r u0 u1 [? ? ? ? ? ? ?]. constructor; try done. by apply sublist_snoc_push. }
    apply (pushAll_rel push_track (fun l => grown au l [] [])) with (done := []).
    { intros l r u0 u1 [? ? ? ? ? ? ?]. constructor; try done. by apply sublist_snoc_keep. }
    { intros l r u0 u1 [? ? ? ? ? ? ?]. constructor; try done. by apply sublist_snoc_push. }
    apply (pushAll_rel push_audiusUser (fun l => grown l [] [] [])) with (done := []).
    { intros l r u0 u1 [? ? ? ? ? ? ?]. constructor; try done. by apply sublist_snoc_keep. }
    { intros l r u0 u1 [? ? ? ? ? ? ?]. constructor; try done. by apply sublist_snoc_push. }
    apply Forall_Forall2_diag, Forall_forall. intros [k0 u0] Hin0.
    split; [done|]. simpl.
    destruct (bundled_dict_elem lo hi rows [] k0 u0 Hin0) as [Hnil|(row & _ & _ & ->)].
    { by apply elem_of_nil in Hnil. }
    constructor; simpl; constructor. }
  apply list_elem_of_lookup in Hin as [i Hi].
  destruct (Forall2_lookup_r _ _ _ _ _ Hrel Hi) as ([k0 u0] & Hi0 & Hk & Hg).
  simpl in Hk, Hg. subst k0.
  apply list_elem_of_lookup_2 in Hi0.
  destruct (bundled_dict_elem lo hi rows [] k u0 Hi0) as [Hnil|(row & ? & ? & ->)].
  { by apply elem_of_nil in Hnil. }
  exists row. done.
Qed.

End DictFacts.

Section ExportClaims.
Import JS Data Effects Environment NodeSync Routes ExportSpec.

(** A successful export answers with the bundle of what the database held
    when the request arrived. *)
Lemma export_success (env : Env) (q : ExportQuery) (w w' : World) cnodeUsers ipfs :
  export env q w = (Ok (successExport cnodeUsers ipfs), w') ->
  cnodeUsers = exportData env q (db w)
  /\ requestedClockRangeMinOf q < requestedClockRangeMaxOf env q.
Proof.
  unfold export.
  destruct (Z.leb_spec (requestedClockRangeMaxOf env q) (requestedClockRangeMinOf q));
    [discriminate|].
  unfold transaction, commit, try_catch, bind, external, modify, get, ret, rollback.
  simpl.
  repeat (match goal with
          | |- context [fault env ?s] => destruct (fault env s)
          end; simpl; try discriminate).
  intros [= <- _ _]. done.
Qed.

End ExportClaims.

Section ExportWindow.
Import JS Data Effects Environment NodeSync Routes ExportSpec Examples.

Lemma requestedClockRangeMinOf_eq (q : ExportQuery) :
  requestedClockRangeMinOf q = windowMin q.
Proof.
  unfold requestedClockRangeMinOf, windowMin. by destruct (clock_range_min q) as [[| |]|].
Qed.

Lemma requestedClockRangeMaxOf_eq (env : Env) (q : ExportQuery) :
  requestedClockRangeMaxOf env q = windowMax env q.
Proof.
  unfold requestedClockRangeMaxOf, maxRequestedClockRangeMaxOf, windowMax.
  rewrite requestedClockRangeMinOf_eq.
  destruct (clock_range_max q) as [[| |]|]; simpl; try done; apply Z.min_id.
Qed.

(** C2: the code misses the claim at [clock_range_max = 0].  The route
    computes the upper bound as [parseInt(clock_range_max) || cap], in which
    a requested 0 is falsy and is replaced by the cap.  A request with
    [clock_range_max = 0] (and [clock_range_min = 0]) has the window [[0, 0]]
    by the formula of the claim, which the route visibly computes, but the
    answer carries the records of clocks 1 to 3 and the user clock 3. *)
Lemma export_ignores_zero_max :
  specWindowMax exportEnv (mkExportQuery ["0xabc"] None (Some 0) (Some 0)) = 0
  /\ exists u ipfs,
       fst (export exportEnv (mkExportQuery ["0xabc"] None (Some 0) (Some 0)) primaryWorld)
       = Ok (successExport [("uuid-p", u)] ipfs)
       /\ map cr_clock (e_clockRecords u) = [1; 2; 3]
       /\ ~ inWindow 0 (specWindowMax exportEnv
                          (mkExportQuery ["0xabc"] None (Some 0) (Some 0)))
            (e_clockRecords u)
       /\ e_clock u = 3
       /\ e_clock u <> Z.min 3 (specWindowMax exportEnv
                                  (mkExportQuery ["0xabc"] None (Some 0) (Some 0))).
Proof.
  split; [reflexivity|].
  eexists _, _. split; [vm_compute; reflexivity|].
  split; [reflexivity|]. split; [|split; [reflexivity|discriminate]].
  intros Hw. inversion Hw as [|? ? Hr _]; subst. simpl in Hr.
  unfold specWindowMax in Hr. simpl in Hr. lia.
Qed.

(** The window of an answered export, with the bounds that the route
    computes: each of the four record arrays of every returned user holds
    only records with a clock in the window, in ascending clock order; the
    clock of the returned user is the minimum of the stored clock and the
    upper bound, and [clockInfo] reports the bounds and the stored clock. *)
Lemma export_window (env : Env) (q : ExportQuery) (w w' : World)
    (exported : list (string * ExportedCNodeUser)) (ipfs : IpfsIDObj)
    (uuid : string) (u : ExportedCNodeUser) :
  export env q w = (Ok (successExport exported ipfs), w') ->
  (uuid, u) ∈ exported ->
  (inWindow (windowMin q) (windowMax env q) (e_clockRecords u)
   /\ ascending (e_clockRecords u))
  /\ (inWindow (windowMin q) (windowMax env q) (e_audiusUsers u)
      /\ ascending (e_audiusUsers u))
  /\ (inWindow (windowMin q) (windowMax env q) (e_tracks u) /\ ascending (e_tracks u))
  /\ (inWindow (windowMin q) (windowMax env q) (e_files u) /\ ascending (e_files u))
  /\ exists row, row ∈ CNodeUsers (db w)
       /\ walletPublicKey row ∈ wallet_public_key q
       /\ cnodeUserUUID row = uuid
       /\ e_clock u = Z.min (clock row) (windowMax env q)
       /\ localClockMax (e_clockInfo u) = clock row
       /\ requestedClockRangeMin (e_clockInfo u) = windowMin q
       /\ requestedClockRangeMax (e_clockInfo u) = windowMax env q.
Proof.
  intros Hrun Hin.
  apply export_success in Hrun as [-> _].
  unfold exportData in Hin.
  rewrite requestedClockRangeMinOf_eq, requestedClockRangeMaxOf_eq in Hin.
  apply bundle_entry in Hin as (row & Hrow & -> & [Hu Hc Hi Hau Htr Hfi Hcr]).
  repeat split.
  - eapply inWindow_sublist; [exact Hcr|apply findAllInRange_inWindow].
  - eapply ascending_sublist; [exact Hcr|apply findAllInRange_ascending].
  - eapply inWindow_sublist; [exact Hau|apply findAllInRange_inWindow].
  - eapply ascending_sublist; [exact Hau|apply findAllInRange_ascending].
  - eapply inWindow_sublist; [exact Htr|apply findAllInRange_inWindow].
  - eapply ascending_sublist; [exact Htr|apply findAllInRange_ascending].
  - eapply inWindow_sublist; [exact Hfi|apply findAllInRange_inWindow].
  - eapply ascending_sublist; [exact Hfi|apply findAllInRange_ascending].
  - apply list_elem_of_filter in Hrow as [Hw Hrow].
    exists row. repeat split; try done.
    + rewrite Hc. simpl. destruct (Z.gtb_spec (clock row) (windowMax env q)); lia.
    + by rewrite Hi.
    + by rewrite Hi.
    + by rewrite Hi.
Qed.

(** X28: the window of an export whose [clock_range_max] is not 0.
    With [max = min(clock_range_max, min + MAX_RANGE - 1)], or
    [min + MAX_RANGE - 1] when no upper bound is requested, each of the four
    record arrays of every returned user holds only records with a clock in
    [[min, max]], in ascending clock order; the clock of the returned user
    is the minimum of the stored clock and [max], and
    [clockInfo.localClockMax] is the stored clock. *)
Theorem export_window_as_specified (env : Env) (q : ExportQuery) (w w' : World)
    (exported : list (string * ExportedCNodeUser)) (ipfs : IpfsIDObj)
    (uuid : string) (u : ExportedCNodeUser) :
  export env q w = (Ok (successExport exported ipfs), w') ->
  clock_range_max q <> Some 0 ->
  (uuid, u) ∈ exported ->
  (inWindow (windowMin q) (specWindowMax env q) (e_clockRecords u)
   /\ ascending (e_clockRecords u))
  /\ (inWindow (windowMin q) (specWindowMax env q) (e_audiusUsers u)
      /\ ascending (e_audiusUsers u))
  /\ (inWindow (windowMin q) (specWindowMax env q) (e_tracks u) /\ ascending (e_tracks u))
  /\ (inWindow (windowMin q) (specWindowMax env q) (e_files u) /\ ascending (e_files u))
  /\ exists row, row ∈ CNodeUsers (db w)
       /\ walletPublicKey row ∈ wallet_public_key q
       /\ cnodeUserUUID row = uuid
       /\ e_clock u = Z.min (clock row) (specWindowMax env q)
       /\ localClockMax (e_clockInfo u) = clock row
       /\ requestedClockRangeMin (e_clockInfo u) = windowMin q
       /\ requestedClockRangeMax (e_clockInfo u) = specWindowMax env q.
Proof.
  intros Hrun Hmax Hin.
  assert (Hsame : specWindowMax env q = windowMax env q).
  { unfold specWindowMax, windowMax, windowMin.
    destruct (clock_range_max q) as [m|]; [|lia].
    destruct (Z.eqb_spec m 0) as [->|_]; [done|]. lia. }
  rewrite Hsame. by eapply export_window.
Qed.

(** The window [[1, 2]] of a primary at clock 3. *)
Lemma export_window_as_specified_witness :
  exists u : ExportedCNodeUser,
    (inWindow 1 2 (e_clockRecords u) /\ ascending (e_clockRecords u))
    /\ (inWindow 1 2 (e_audiusUsers u) /\ ascending (e_audiusUsers u))
    /\ (inWindow 1 2 (e_tracks u) /\ ascending (e_tracks u))
    /\ (inWindow 1 2 (e_files u) /\ ascending (e_files u))
    /\ exists row, row ∈ CNodeUsers primaryDB
         /\ walletPublicKey row ∈ ["0xabc"]
         /\ cnodeUserUUID row = "uuid-p"
         /\ e_clock u = Z.min (clock row) 2
         /\ localClockMax (e_clockInfo u) = clock row
         /\ requestedClockRangeMin (e_clockInfo u) = 1
         /\ requestedClockRangeMax (e_clockInfo u) = 2.
Proof.
  eexists.
  eapply (export_window_as_specified exportEnv
            (mkExportQuery ["0xabc"] None (Some 1) (Some 2)) primaryWorld _ _ _ "uuid-p").
  - lazy. reflexivity.
  - discriminate.
  - apply list_elem_of_singleton. reflexivity.
Defined.

End ExportWindow.

Section BlobFetchFacts.
Import JS Data Effects Environment NodeSync Routes SyncSpec.
Variable env : Env.

Lemma same_store_refl w : same_store w w.
Proof. by repeat split. Qed.

Lemma same_store_trans w1 w2 w3 :
  same_store w1 w2 -> same_store w2 w3 -> same_store w1 w3.
Proof.
  unfold same_store. intros (?&?&?&?&?&?) (?&?&?&?&?&?).
  repeat split; congruence.
Qed.

Lemma saveFileForMultihash_spec i mh sp gs fn w :
  same_store w (snd (saveFileForMultihash env i mh sp gs fn w))
  /\ trace (snd (saveFileForMultihash env i mh sp gs fn w))
     = trace w ++ [EvSaveFileForMultihash mh sp gs fn].
Proof.
  unfold saveFileForMultihash, bind, modify, external. simpl.
  destruct (fault env _); simpl; split; try done; by repeat split.
Qed.

Lemma saveTrackFile_fetcher i gs : fetcher (saveTrackFile env i gs) (trackFileFetch gs).
Proof. intros f w. apply saveFileForMultihash_spec. Qed.

Lemma saveNonTrackFile_fetcher i gs :
  fetcher (saveNonTrackFile env i gs) (nonTrackFileFetch gs).
Proof.
  intros f w. unfold saveNonTrackFile, nonTrackFileFetch.
  case_bool_decide.
  - destruct (_ && _); apply saveFileForMultihash_spec.
  - simpl. rewrite app_nil_r. split; [apply same_store_refl|done].
Qed.

Lemma promiseAll_spec save ev (files : list File) w :
  fetcher save ev ->
  same_store w (snd (promiseAll (map save files) w))
  /\ trace (snd (promiseAll (map save files) w)) = trace w ++ List.concat (map ev files).
Proof.
  intros Hs. revert w. induction files as [|f files IH]; intros w; simpl.
  - rewrite app_nil_r. split; [apply same_store_refl|done].
  - destruct (save f w) as [r w1] eqn:E1.
    destruct (promiseAll (map save files) w1) as [r' w2] eqn:E2. simpl.
    destruct (Hs f w) as [Hst Htr]. rewrite E1 in Hst, Htr. simpl in Hst, Htr.
    destruct (IH w1) as [Hst' Htr']. rewrite E2 in Hst', Htr'. simpl in Hst', Htr'.
    split; [by eapply same_store_trans|].
    rewrite Htr', Htr. by rewrite <- app_assoc.
Qed.

Lemma forBatches_same_store save ev fuel limit files i w :
  fetcher save ev ->
  same_store w (snd (forBatches fuel limit files save i w)).
Proof.
  intros Hs. revert i w. induction fuel as [|fuel IH]; intros i w; simpl.
  - apply same_store_refl.
  - destruct (i <? List.length files)%nat; [|apply same_store_refl].
    unfold bind.
    destruct (promiseAll_spec save ev (slice i (i + limit) files) w Hs) as [Hst _].
    destruct (promiseAll _ w) as [[[]|e] w1]; simpl in *; [|done].
    eapply same_store_trans; [exact Hst|apply IH].
Qed.

Lemma forBatches_trace save ev fuel limit files i w w' :
  fetcher save ev ->
  (0 < limit)%nat ->
  (List.length files - i < fuel)%nat ->
  forBatches fuel limit files save i w = (Ok tt, w') ->
  trace w' = trace w ++ List.concat (map ev (drop i files)).
Proof.
  intros Hs Hl. revert i w. induction fuel as [|fuel IH]; intros i w Hf; [lia|].
  simpl. destruct (Nat.ltb_spec i (List.length files)) as [Hi|Hi].
  - unfold bind.
    destruct (promiseAll_spec save ev (slice i (i + limit) files) w Hs) as [_ Htr].
    destruct (promiseAll _ w) as [[[]|e] w1]; simpl in *; [|discriminate].
    intros Hrun. apply IH in Hrun; [|lia].
    rewrite Hrun, Htr, <- app_assoc, <- concat_app, <- map_app.
    do 3 f_equal. unfold slice.
    replace (i + limit - i)%nat with limit by lia.
    rewrite <- drop_drop. apply take_drop.
  - intros [= <-]. rewrite drop_ge by lia. simpl. by rewrite app_nil_r.
Qed.

Lemma forBatches_log save ev (P : Event -> Prop) fuel limit files i w :
  fetcher save ev ->
  (forall f, Forall P (ev f)) ->
  exists events, trace (snd (forBatches fuel limit files save i w)) = trace w ++ events
                 /\ Forall P events.
Proof.
  intros Hs HP. revert i w. induction fuel as [|fuel IH]; intros i w; simpl.
  - exists []. by rewrite app_nil_r.
  - destruct (i <? List.length files)%nat; [|exists []; by rewrite app_nil_r].
    unfold bind.
    destruct (promiseAll_spec save ev (slice i (i + limit) files) w Hs) as [_ Htr].
    assert (HPs : Forall P (List.concat (map ev (slice i (i + limit) files)))).
    { apply Forall_concat, Forall_map, Forall_forall. intros f _. apply HP. }
    destruct (promiseAll _ w) as [[[]|e] w1]; simpl in *.
    + destruct (IH (i + limit)%nat w1) as (evs & Hevs & Hall).
      eexists. rewrite Hevs, Htr, <- app_assoc. split; [done|]. by apply Forall_app.
    + eexists. split; [exact Htr|done].
Qed.

Lemma saveInBatches_spec save ev (P : Event -> Prop) limit files w :
  fetcher save ev ->
  (forall f, Forall P (ev f)) ->
  (0 < limit)%nat ->
  same_store w (snd (saveInBatches limit files save w))
  /\ (fst (saveInBatches limit files save w) = Ok tt ->
      trace (snd (saveInBatches limit files save w))
      = trace w ++ List.concat (map ev files))
  /\ exists events, trace (snd (saveInBatches limit files save w)) = trace w ++ events
                    /\ Forall P events.
Proof.
  intros Hs HP Hl. unfold saveInBatches. split; [|split].
  - by eapply forBatches_same_store.
  - intros Hok.
    destruct (forBatches _ _ _ _ _ w) as [r w'] eqn:E. cbn [fst snd] in *. subst r.
    eapply forBatches_trace in E; [|done..|lia]. by rewrite E.
  - by eapply forBatches_log.
Qed.

Lemma trackFileFetch_blob gs f : Forall (fun e => isBlobFetch e = true) (trackFileFetch gs f).
Proof. by repeat constructor. Qed.

Lemma nonTrackFileFetch_blob gs f :
  Forall (fun e => isBlobFetch e = true) (nonTrackFileFetch gs f).
Proof.
  unfold nonTrackFileFetch. case_bool_decide; [|constructor].
  destruct (_ && _); by repeat constructor.
Qed.

End BlobFetchFacts.

Section TransactionFacts.
Import JS Data Effects Environment NodeSync Routes SyncSpec.
Variable env : Env.
Arguments saveInBatches : simpl never.
Arguments with_uuid : simpl never.

Lemma unlock_subseteq (key : option string) (l : gset string) :
  match key with Some k => l ∖ {[k]} | None => l end ⊆ l.
Proof.
  destruct key as [k|]; [|done].
  intros x Hx. by apply elem_of_difference in Hx as [? _].
Qed.

Lemma writeFetched_cases redisKey i u k rs w :
  let run := writeFetchedCNodeUser env redisKey i u k rs w in
  (fst run = Ok tt
   /\ db (snd run) = applyFetched env u k (db w)
   /\ tx (snd run) = None
   /\ locks (snd run) ⊆ locks w
   /\ trace (snd run) = trace w ++ importEvents env redisKey rs u k)
  \/ (exists e, fst run = Throw e
      /\ db (snd run) = db w
      /\ (tx w = None -> tx (snd run) = None)
      /\ locks (snd run) ⊆ locks w
      /\ exists events, trace (snd run) = trace w ++ EvTransaction :: events).
Proof.
  unfold writeFetchedCNodeUser.
  fold (trackFilesOf env u). fold (nonTrackFilesOf env u). fold (rowOf u k).
  destruct w as [d t l q tm n dk tr].
  unfold transaction, write, commit, rollback, removeLock, try_catch, bind,
    external, modify, ret, throw.
  simpl.
  destruct (fault env (StTransaction i)).
  { right. eexists. simpl. repeat split; try done. by eexists. }
  destruct (fault env (StUpsertCNodeUser i)).
  { right. eexists. simpl. repeat split; try done; [apply unlock_subseteq|].
    eexists. subst. rewrite <- !app_assoc. simpl. reflexivity. }
  destruct (fault env (StBulkCreateClockRecords i)).
  { right. eexists. simpl. repeat split; try done; [apply unlock_subseteq|].
    eexists. subst. rewrite <- !app_assoc. simpl. reflexivity. }
  match goal with
  | |- context [saveInBatches ?lim ?fs ?sv ?w0] =>
      destruct (saveInBatches_spec sv (trackFileFetch rs) _ lim fs w0
                  (saveTrackFile_fetcher env i rs) (trackFileFetch_blob rs)
                  ltac:(unfold TrackSaveConcurrencyLimit; lia))
        as (Hst1 & Htr1 & ev1 & Hev1 & _);
      destruct (saveInBatches lim fs sv w0) as [[[]|e1] [d1 t1 l1 q1 tm1 n1 dk1 tr1]]
  end; unfold same_store in Hst1; simpl in Hst1, Htr1, Hev1; destruct Hst1 as (-> & -> & -> & -> & -> & ->).
  2:{ right. eexists. simpl. repeat split; try done; [apply unlock_subseteq|].
      eexists. subst. rewrite <- !app_assoc. simpl. reflexivity. }
  specialize (Htr1 eq_refl). subst tr1.
  match goal with
  | |- context [saveInBatches ?lim ?fs ?sv ?w0] =>
      destruct (saveInBatches_spec sv (nonTrackFileFetch rs) _ lim fs w0
                  (saveNonTrackFile_fetcher env i rs) (nonTrackFileFetch_blob rs)
                  ltac:(unfold NonTrackFileSaveConcurrencyLimit; lia))
        as (Hst2 & Htr2 & ev2 & Hev2 & _);
      destruct (saveInBatches lim fs sv w0) as [[[]|e2] [d2 t2 l2 q2 tm2 n2 dk2 tr2]]
  end; unfold same_store in Hst2; simpl in Hst2, Htr2, Hev2; destruct Hst2 as (-> & -> & -> & -> & -> & ->).
  2:{ right. eexists. simpl. repeat split; try done; [apply unlock_subseteq|].
      eexists. subst. rewrite <- !app_assoc. simpl. reflexivity. }
  specialize (Htr2 eq_refl). subst tr2.
  simpl.
  destruct (fault env (StBulkCreateNonTrackFiles i)); simpl.
  { right. eexists. simpl. repeat split; try done; [apply unlock_subseteq|].
    eexists. subst. rewrite <- !app_assoc. simpl. reflexivity. }
  destruct (fault env (StBulkCreateTracks i)); simpl.
  { right. eexists. simpl. repeat split; try done; [apply unlock_subseteq|].
    eexists. subst. rewrite <- !app_assoc. simpl. reflexivity. }
  destruct (fault env (StBulkCreateTrackFiles i)); simpl.
  { right. eexists. simpl. repeat split; try done; [apply unlock_subseteq|].
    eexists. subst. rewrite <- !app_assoc. simpl. reflexivity. }
  destruct (fault env (StBulkCreateAudiusUsers i)); simpl.
  { right. eexists. simpl. repeat split; try done; [apply unlock_subseteq|].
    eexists. subst. rewrite <- !app_assoc. simpl. reflexivity. }
  destruct (fault env (StCommit i)); simpl.
  { right. eexists. simpl. repeat split; try done; [apply unlock_subseteq|].
    eexists. subst. rewrite <- !app_assoc. simpl. reflexivity. }
  left. repeat split; try done.
  - apply unlock_subseteq.
  - unfold importEvents, blobFetches. rewrite <- !app_assoc. reflexivity.
Qed.

End TransactionFacts.

Section RunFacts.
Import JS Data Effects Environment NodeSync Routes SyncSpec.
Variable env : Env.

Lemma quiet_refl w : quiet w w.
Proof. repeat split. exists []. by rewrite app_nil_r. Qed.

Lemma quiet_trans w1 w2 w3 : quiet w1 w2 -> quiet w2 w3 -> quiet w1 w3.
Proof.
  intros (Hd & Ht & Hk & ev & Htr & Hev) (Hd' & Ht' & Hk' & ev' & Htr' & Hev').
  repeat split; try congruence.
  exists (ev ++ ev'). split; [by rewrite Htr', Htr, app_assoc|].
  by apply Forall_app.
Qed.

Lemma quiet_log e w : isIO e = false -> quiet w (log e w).
Proof.
  intros He. repeat split. exists [e]. split; [done|]. by constructor.
Qed.

Lemma quiet_set_locks f w : quiet w (set_locks f w).
Proof. repeat split. exists []. simpl. by rewrite app_nil_r. Qed.

Lemma quiet_set_syncQueue f w : quiet w (set_syncQueue f w).
Proof. repeat split. exists []. simpl. by rewrite app_nil_r. Qed.

Lemma external_cases s w :
  external env s w = (Ok tt, w) \/ external env s w = (Throw (ErrExternal s), w).
Proof. unfold external. destruct (fault env s); auto. Qed.

(** *** The lock phase *)
Lemma acquireLocks_quiet ws key w :
  quiet w (snd (acquireLocks ws key w)).
Proof.
  revert key w. induction ws as [|wallet ws IH]; intros key w; simpl.
  - apply quiet_refl.
  - unfold bind, getLock. simpl. case_bool_decide; simpl; [apply quiet_refl|].
    eapply quiet_trans; [|apply IH].
    eapply quiet_trans; [apply quiet_log|apply quiet_set_locks]. done.
Qed.

(** *** The [finally] block *)
Lemma releaseLocks_spec ws w :
  fst (releaseLocks ws w) = Ok tt
  /\ quiet w (snd (releaseLocks ws w))
  /\ (forall wallet, wallet ∈ ws ->
        getNodeSyncRedisKey wallet ∉ locks (snd (releaseLocks ws w)))
  /\ locks (snd (releaseLocks ws w)) ⊆ locks w.
Proof.
  revert w. induction ws as [|wallet ws IH]; intros w; simpl.
  - split; [done|]. split; [apply quiet_refl|]. split; [|done].
    intros ? Hin. by apply elem_of_nil in Hin.
  - unfold bind, removeLock, modify. simpl.
    match goal with |- context [releaseLocks ws ?w0] => set (w1 := w0) end.
    destruct (IH w1) as (Hok & Hq & Hrel & Hsub).
    destruct (releaseLocks ws w1) as [r w2]. simpl in *. subst r.
    split; [done|]. split; [|split].
    + eapply quiet_trans; [|exact Hq]. subst w1.
      eapply quiet_trans; [|apply quiet_set_syncQueue].
      eapply quiet_trans; [apply quiet_log|apply quiet_set_locks]. done.
    + intros wallet' [->|Hin]%elem_of_cons; [|by apply Hrel].
      intros Hin. apply Hsub in Hin. subst w1. simpl in Hin.
      apply elem_of_difference in Hin as [_ Hne]. apply Hne.
      by apply elem_of_singleton.
    + subst w1. simpl in Hsub. intros x Hx. apply Hsub in Hx.
      by apply elem_of_difference in Hx as [? _].
Qed.

(** *** The fetch phase *)
Lemma connectPeers_quiet own targets w :
  quiet w (snd (connectPeers env own targets w)).
Proof.
  revert w. induction targets as [|t targets IH]; intros w; simpl.
  - apply quiet_refl.
  - destruct (_ || _); [apply IH|].
    case_bool_decide; [apply IH|].
    unfold bind, modify, external. simpl.
    destruct (fault env (StBootstrapAdd t)); simpl; [by apply quiet_log|].
    destruct (fault env (StSwarmConnect t)); simpl.
    + eapply quiet_trans; by apply quiet_log.
    + eapply quiet_trans; [|apply IH].
      eapply quiet_trans; by apply quiet_log.
Qed.

Lemma fetchExport_quiet ws ep w :
  quiet w (snd (fetchExport env ws ep w)).
Proof.
  unfold fetchExport, findOneCNodeUser, _initBootstrapAndRefreshPeers,
    bind, get, ret, throw, modify, external.
  destruct (fault env StFindOneCNodeUser); simpl; [apply quiet_refl|].
  match goal with |- context [log ?e w] => set (w1 := log e w) end.
  assert (Hq : quiet w w1) by (by apply quiet_log).
  destruct (fault env StAxiosExport); simpl; [done|].
  destruct (negb _); simpl; [done|].
  destruct (data _) as [body|]; simpl.
  - destruct (cnodeUsers body), (ipfsIDObj body) as [idObj|]; simpl; try done.
    destruct (addresses idObj) as [addrs|]; simpl; [|done].
    destruct (fault env StIpfsId); simpl; [done|].
    destruct (addresses (ipfsId env)) as [own|]; simpl; [|done].
    pose proof (connectPeers_quiet own addrs w1) as Hc.
    destruct (connectPeers env own addrs w1) as [[[]|e] w2]; simpl in *;
      by eapply quiet_trans.
  - destruct (responseText _) as [body|]; simpl; [|done].
    destruct (fault env StJsonParse); simpl; [done|].
    destruct (cnodeUsers body), (ipfsIDObj body) as [idObj|]; simpl; try done.
    destruct (addresses idObj) as [addrs|]; simpl; [|done].
    destruct (fault env StIpfsId); simpl; [done|].
    destruct (addresses (ipfsId env)) as [own|]; simpl; [|done].
    pose proof (connectPeers_quiet own addrs w1) as Hc.
    destruct (connectPeers env own addrs w1) as [[[]|e] w2]; simpl in *;
      by eapply quiet_trans.
Qed.

Lemma fetchExport_localMax ws ep w L us w' :
  fetchExport env ws ep w = (Ok (L, us), w') ->
  L = localMaxClockValOf ws (db w).
Proof.
  unfold fetchExport, findOneCNodeUser, _initBootstrapAndRefreshPeers,
    bind, get, ret, throw, modify, external, localMaxClockValOf.
  destruct (fault env StFindOneCNodeUser); simpl; [discriminate|].
  destruct (fault env StAxiosExport); simpl; [discriminate|].
  destruct (negb _); simpl; [discriminate|].
  intros Hrun.
  assert (Hret : forall (r : Outcome unit) (w2 : World)
                       (users : list (string * ExportedCNodeUser)),
            match r with
            | Ok _ => (Ok (match
                             match ws !! 0%nat with
                             | Some k =>
                                 head (filter (fun u => walletPublicKey u = k)
                                         (CNodeUsers (db w)))
                             | None => None
                             end
                           with Some u => clock u | None => -1 end,
                           map snd users), w2)
            | Throw e => (Throw e, w2)
            end = (Ok (L, us), w') ->
            L = match ws !! 0%nat with
                | Some wallet =>
                    match head (filter (fun u => walletPublicKey u = wallet)
                                  (CNodeUsers (db w))) with
                    | Some u => clock u
                    | None => -1
                    end
                | None => -1
                end).
  { intros [[]|e] w2 users Heq; [|discriminate].
    injection Heq as <- _ _. by destruct (ws !! 0%nat). }
  destruct (data _) as [body|]; simpl in Hrun.
  - destruct (cnodeUsers body), (ipfsIDObj body) as [idObj|]; simpl in Hrun;
      try discriminate.
    destruct (addresses idObj) as [addrs|]; simpl in Hrun; [|discriminate].
    destruct (fault env StIpfsId); simpl in Hrun; [discriminate|].
    destruct (addresses (ipfsId env)) as [own|]; simpl in Hrun; [|discriminate].
    destruct (connectPeers env own addrs _) as [r w2]. by eapply Hret.
  - destruct (responseText _) as [body|]; simpl in Hrun; [|discriminate].
    destruct (fault env StJsonParse); simpl in Hrun; [discriminate|].
    destruct (cnodeUsers body), (ipfsIDObj body) as [idObj|]; simpl in Hrun;
      try discriminate.
    destruct (addresses idObj) as [addrs|]; simpl in Hrun; [|discriminate].
    destruct (fault env StIpfsId); simpl in Hrun; [discriminate|].
    destruct (addresses (ipfsId env)) as [own|]; simpl in Hrun; [|discriminate].
    destruct (connectPeers env own addrs _) as [r w2]. by eapply Hret.
Qed.

(** *** One fetched user *)
Lemma buildUserReplicaSet_run i k w :
  buildUserReplicaSet env i k w = (Ok (userReplicaSetOf env i k), w).
Proof.
  unfold buildUserReplicaSet, userReplicaSetOf, try_catch, bind, external, ret.
  destruct (fault env (StGetOwnEndpoint i)); simpl; [done|].
  destruct (fault env (StGetCreatorNodeEndpoints i)); simpl; done.
Qed.

(** The checks of lines 295-339, with the gateways already computed. *)
Lemma importFetchedCNodeUser_unfold L ws key i u w :
  importFetchedCNodeUser env L ws key i u w =
  match e_walletPublicKey u with
  | None => (Throw ErrNoWalletPublicKey, w)
  | Some k =>
      if negb (bool_decide (k ∈ ws)) then (Throw ErrNotRequested, w)
      else if e_clock u <? L then (Throw (ErrRegression L (e_clock u)), w)
      else if e_clock u =? L then (Ok tt, w)
      else match e_clockRecords u !! 0%nat with
           | Some first =>
               if negb (cr_clock first =? L + 1)
               then (Throw (ErrNonContiguous L (cr_clock first)), w)
               else writeFetchedCNodeUser env key i u k (userReplicaSetOf env i k) w
           | None => writeFetchedCNodeUser env key i u k (userReplicaSetOf env i k) w
           end
  end.
Proof.
  unfold importFetchedCNodeUser.
  destruct (e_walletPublicKey u) as [k|]; [|done].
  unfold bind at 1. rewrite buildUserReplicaSet_run.
  destruct (negb _); [done|].
  destruct (_ <? _); [done|]. destruct (_ =? _); [done|].
  destruct (_ !! _); [|done]. destruct (negb _); done.
Qed.

(** Whatever happens to one fetched user: the database is either untouched
    or holds all of its rows, no transaction stays open, no lock is taken;
    an exception leaves the database untouched. *)
Lemma importFetchedCNodeUser_atomic L ws key i u w :
  let run := importFetchedCNodeUser env L ws key i u w in
  (db (snd run) = db w
   \/ (fst run = Ok tt /\ L < e_clock u
       /\ db (snd run) = applyFetched env u (walletOf u) (db w)))
  /\ (forall e, fst run = Throw e -> db (snd run) = db w)
  /\ (tx w = None -> tx (snd run) = None)
  /\ locks (snd run) ⊆ locks w.
Proof.
  intros run. subst run. rewrite importFetchedCNodeUser_unfold.
  unfold walletOf.
  destruct (e_walletPublicKey u) as [k|]; simpl; [|by auto].
  destruct (negb _); simpl; [by auto|].
  destruct (Z.ltb_spec (e_clock u) L); simpl; [by auto|].
  destruct (Z.eqb_spec (e_clock u) L); simpl; [by auto|].
  assert (HL : L < e_clock u) by lia.
  assert (Hw : forall rs,
    let run := writeFetchedCNodeUser env key i u k rs w in
    (db (snd run) = db w
     \/ (fst run = Ok tt /\ L < e_clock u
         /\ db (snd run) = applyFetched env u k (db w)))
    /\ (forall e, fst run = Throw e -> db (snd run) = db w)
    /\ (tx w = None -> tx (snd run) = None)
    /\ locks (snd run) ⊆ locks w).
  { intros rs. cbv zeta.
    destruct (writeFetched_cases env key i u k rs w)
      as [(Hok & Hdb & Htx & Hl & _)|(e & He & Hdb & Htx & Hl & _)].
    - repeat split; auto. intros e He. rewrite Hok in He. discriminate.
    - repeat split; auto. }
  destruct (_ !! _); [|apply Hw].
  destruct (negb _); simpl; [by auto|apply Hw].
Qed.

End RunFacts.

Section LoopFacts.
Import JS Data Effects Environment NodeSync Routes SyncSpec.
Variable env : Env.

Lemma importFetchedCNodeUsers_atomic L ws key us :
  forall i w,
    let run := importFetchedCNodeUsers env L ws key i us w in
    (exists committed, sublist committed us
                       /\ db (snd run) = applyAll env committed (db w))
    /\ (tx w = None -> tx (snd run) = None)
    /\ locks (snd run) ⊆ locks w
    /\ ((List.length us <= 1)%nat ->
        forall e, fst run = Throw e -> db (snd run) = db w).
Proof.
  induction us as [|u us IH]; intros i w; cbv zeta.
  - simpl. split; [exists []; done|]. repeat split; try done.
  - simpl. unfold bind.
    destruct (importFetchedCNodeUser_atomic env L ws key i u w)
      as (Hdb & Hthrow & Htx & Hl).
    destruct (importFetchedCNodeUser env L ws key i u w) as [[[]|e] w1];
      cbn [fst snd] in *.
    + destruct (IH (S i) w1) as ((committed & Hsub & Hdb') & Htx' & Hl' & Hone).
      split; [|split; [|split]].
      * destruct Hdb as [Hsame|(_ & _ & Happ)].
        -- exists committed. split; [by constructor|]. by rewrite Hdb', Hsame.
        -- exists (u :: committed). split; [by constructor|].
           by rewrite Hdb', Happ.
      * auto.
      * by etrans.
      * intros Hlen e' He'. destruct us; [|simpl in Hlen; lia].
        simpl in He'. discriminate.
    + split; [|split; [|split]].
      * exists []. split; [apply sublist_nil_l|]. simpl. by eapply Hthrow.
      * auto.
      * done.
      * intros _ e' _. by eapply Hthrow.
Qed.

(** [_nodesync] after the locks are taken: the body runs, its exception
    becomes [errorObj], and the locks are released. *)
Lemma nodesync_unfold ws ep w :
  _nodesync env ws ep w =
  match acquireLocks ws None w with
  | (Throw e, w1) => (Throw e, w1)
  | (Ok key, w1) =>
      let body := syncBody env ws ep key w1 in
      (Ok (match fst body with Ok _ => None | Throw e => Some e end),
       snd (releaseLocks ws (snd body)))
  end.
Proof.
  unfold _nodesync, bind at 1.
  destruct (acquireLocks ws None w) as [[key|e] w1]; [|done].
  unfold try_finally, try_catch, bind, ret. cbv zeta.
  destruct (syncBody env ws ep key w1) as [[[]|e] w2]; cbn [fst snd];
    destruct (releaseLocks_spec ws w2) as (Hok & _);
    destruct (releaseLocks ws w2) as [r w3]; cbn [fst snd] in *; by subst r.
Qed.

Lemma syncBody_unfold ws ep key w1 :
  syncBody env ws ep key w1 =
  match fetchExport env ws ep w1 with
  | (Ok r, w2) => importFetchedCNodeUsers env (fst r) ws key 0 (snd r) w2
  | (Throw e, w2) => (Throw e, w2)
  end.
Proof. unfold syncBody, bind. by destruct (fetchExport env ws ep w1) as [[r|e] w2]. Qed.

End LoopFacts.

Section SyncClaims.
Import JS Data Effects Environment NodeSync Routes SyncSpec.

(** C3: once the locks are taken, an import always returns (its exception,
    if any, as [errorObj]); when it returns, the lock of every requested
    wallet is released and no transaction is open, whether or not a step
    threw; the database has changed only by whole transactions of fetched
    users, and a failed import of an export with at most one user leaves the
    database as it was. *)
Theorem sync_releases_locks (env : Env) (ws : list string) (ep : string)
    (w w1 : World) (key : option string) :
  acquireLocks ws None w = (Ok key, w1) ->
  tx w = None ->
  (exists errorObj, fst (_nodesync env ws ep w) = Ok errorObj)
  /\ (forall wallet, wallet ∈ ws ->
        getNodeSyncRedisKey wallet ∉ locks (snd (_nodesync env ws ep w)))
  /\ tx (snd (_nodesync env ws ep w)) = None
  /\ (exists committed,
        sublist committed (fetchedUsers env ws ep w)
        /\ db (snd (_nodesync env ws ep w)) = applyAll env committed (db w))
  /\ (forall e, fst (_nodesync env ws ep w) = Ok (Some e) ->
        (List.length (fetchedUsers env ws ep w) <= 1)%nat ->
        db (snd (_nodesync env ws ep w)) = db w).
Proof.
  intros Hacq Htx.
  rewrite nodesync_unfold, Hacq. cbv zeta. cbn [fst snd].
  pose proof (acquireLocks_quiet ws None w) as Hq1. rewrite Hacq in Hq1.
  destruct Hq1 as (Hdb1 & Htx1 & _). cbn [snd] in *.
  unfold fetchedUsers, fetched. rewrite Hacq.
  rewrite syncBody_unfold.
  pose proof (fetchExport_quiet env ws ep w1) as Hq2.
  destruct (fetchExport env ws ep w1) as [[[L us]|e] w2];
    destruct Hq2 as (Hdb2 & Htx2 & _); cbn [fst snd] in *.
  - destruct (importFetchedCNodeUsers_atomic env L ws key us 0%nat w2)
      as ((committed & Hsub & Hdb3) & Htx3 & _ & Hone).
    destruct (importFetchedCNodeUsers env L ws key 0 us w2) as [r w3];
      cbn [fst snd] in *.
    destruct (releaseLocks_spec ws w3) as (_ & (Hdb4 & Htx4 & _) & Hrel & _).
    split; [by eexists|]. split; [exact Hrel|]. split; [|split].
    + rewrite Htx4. apply Htx3. congruence.
    + exists committed. split; [done|]. rewrite Hdb4, Hdb3. congruence.
    + intros e He Hlen. rewrite Hdb4. destruct r as [[]|e']; [discriminate|].
      rewrite (Hone Hlen e' eq_refl). congruence.
  - destruct (releaseLocks_spec ws w2) as (_ & (Hdb4 & Htx4 & _) & Hrel & _).
    split; [by eexists|]. split; [exact Hrel|]. split; [|split].
    + congruence.
    + exists []. split; [done|]. simpl. congruence.
    + intros _ _ _. congruence.
Qed.

End SyncClaims.

Section SingleUser.
Import JS Data Effects Environment NodeSync Routes SyncSpec.
Variable env : Env.

Lemma filter_none {B} (P : B -> bool) (l : list B) :
  Forall (fun e => P e = false) l -> List.filter P l = [].
Proof. induction 1 as [|e l He _ IH]; simpl; [done|]. by rewrite He. Qed.

Lemma quiet_ioLog w w' : quiet w w' -> ioLog w' = ioLog w.
Proof.
  intros (_ & _ & _ & evs & Htr & Hevs). unfold ioLog.
  by rewrite Htr, List.filter_app, (filter_none _ _ Hevs), app_nil_r.
Qed.

Lemma quiet_dbLog w w' : quiet w w' -> dbLog w' = dbLog w.
Proof.
  intros (_ & _ & _ & evs & Htr & Hevs). unfold dbLog.
  assert (Hdb : Forall (fun e => isDbEvent e = false) evs).
  { eapply Forall_impl; [exact Hevs|]. intros e He.
    unfold isIO in He. by apply orb_false_iff in He as [-> _]. }
  by rewrite Htr, List.filter_app, (filter_none _ _ Hdb), app_nil_r.
Qed.

(** A run whose export carries exactly one user: what [_nodesync] returns
    and leaves behind is what the iteration for that user does, up to quiet
    steps before and after. *)
Lemma nodesync_single ws ep w L u :
  fetched env ws ep w = Some (L, [u]) ->
  exists key w2,
    quiet w w2
    /\ fst (_nodesync env ws ep w)
       = Ok (match fst (importFetchedCNodeUser env L ws key 0 u w2) with
             | Ok _ => None
             | Throw e => Some e
             end)
    /\ quiet (snd (importFetchedCNodeUser env L ws key 0 u w2))
             (snd (_nodesync env ws ep w)).
Proof.
  unfold fetched. intros Hf.
  rewrite nodesync_unfold.
  pose proof (acquireLocks_quiet ws None w) as Hq1.
  destruct (acquireLocks ws None w) as [[key|e] w1]; [|discriminate].
  rewrite syncBody_unfold.
  pose proof (fetchExport_quiet env ws ep w1) as Hq2.
  destruct (fetchExport env ws ep w1) as [[r|e] w2]; [|discriminate].
  injection Hf as ->. cbn [fst snd] in *.
  exists key, w2. split; [by eapply quiet_trans|].
  cbn [importFetchedCNodeUsers]. unfold bind, ret. cbv zeta.
  destruct (importFetchedCNodeUser env L ws key 0 u w2) as [[[]|e] w3]; cbn [fst snd];
    (split; [done|]); by destruct (releaseLocks_spec ws w3) as (_ & Hq & _).
Qed.

(** The [L] of a run is the local clock of the first requested wallet. *)
Lemma fetched_localMax ws ep w L us :
  fetched env ws ep w = Some (L, us) ->
  L = localMaxClockValOf ws (db w).
Proof.
  unfold fetched. intros Hf.
  pose proof (acquireLocks_quiet ws None w) as (Hdb & _).
  destruct (acquireLocks ws None w) as [[key|e] w1]; [|discriminate].
  destruct (fetchExport env ws ep w1) as [[r|e] w2] eqn:Hfetch; [|discriminate].
  injection Hf as ->. cbn [snd] in Hdb. rewrite <- Hdb.
  by eapply fetchExport_localMax.
Qed.

(** A run for one wallet whose lock is held throws at once and takes no
    lock. *)
Lemma nodesync_locked wallet ep w :
  getNodeSyncRedisKey wallet ∈ locks w ->
  _nodesync env [wallet] ep w = (Throw (ErrLocked wallet), w).
Proof.
  intros Hheld. rewrite nodesync_unfold. simpl. unfold bind, getLock.
  by rewrite (bool_decide_eq_true_2 _ Hheld).
Qed.

End SingleUser.

Section CommittedImport.
Import JS Data Effects Environment NodeSync Routes SyncSpec.
Variable env : Env.

Lemma blobFetches_blob gs u : Forall (fun e => isBlobFetch e = true) (blobFetches env gs u).
Proof.
  unfold blobFetches. apply Forall_app. split.
  - apply Forall_concat, Forall_map, Forall_forall. intros f _. apply trackFileFetch_blob.
  - apply Forall_concat, Forall_map, Forall_forall. intros f _. apply nonTrackFileFetch_blob.
Qed.

Lemma filter_all {B} (P : B -> bool) (l : list B) :
  Forall (fun e => P e = true) l -> List.filter P l = l.
Proof. induction 1 as [|e l He _ IH]; simpl; [done|]. by rewrite He, IH. Qed.

Lemma isBlobFetch_not_db e : isBlobFetch e = true -> isDbEvent e = false.
Proof. by destruct e. Qed.

Lemma isBlobFetch_io e : isBlobFetch e = true -> isIO e = true.
Proof. unfold isIO. intros ->. apply orb_true_r. Qed.

Lemma importEvents_db key gs u k :
  List.filter isDbEvent (importEvents env key gs u k) = dbOperations env u k.
Proof.
  unfold importEvents, dbOperations.
  rewrite !List.filter_app, (filter_none _ (blobFetches env gs u)); [done|].
  eapply Forall_impl; [apply blobFetches_blob|]. apply isBlobFetch_not_db.
Qed.

Lemma importEvents_io key gs u k :
  List.filter isIO (importEvents env key gs u k) = ioOperations env gs u k.
Proof.
  unfold importEvents, ioOperations.
  rewrite !List.filter_app, (filter_all _ (blobFetches env gs u)); [done|].
  eapply Forall_impl; [apply blobFetches_blob|]. apply isBlobFetch_io.
Qed.

(** A run that fetched one user ahead of the local clock and returned no
    error: the iteration for that user is a committed transaction. *)
Lemma nodesync_single_success ws ep w L u k :
  fetched env ws ep w = Some (L, [u]) ->
  e_walletPublicKey u = Some k ->
  L < e_clock u ->
  fst (_nodesync env ws ep w) = Ok None ->
  exists key w2 w3,
    quiet w w2
    /\ quiet w3 (snd (_nodesync env ws ep w))
    /\ db w3 = applyFetched env u k (db w2)
    /\ trace w3 = trace w2 ++ importEvents env key (userReplicaSetOf env 0 k) u k.
Proof.
  intros Hf Hk HL Hok.
  destruct (nodesync_single env ws ep w L u Hf) as (key & w2 & Hq & Hres & Hq').
  rewrite Hok in Hres.
  rewrite importFetchedCNodeUser_unfold, Hk in Hres, Hq'.
  exists key, w2.
  destruct (negb _); [discriminate|].
  destruct (Z.ltb_spec (e_clock u) L); [lia|].
  destruct (Z.eqb_spec (e_clock u) L); [lia|].
  assert (Hw : forall run,
    run = writeFetchedCNodeUser env key 0 u k (userReplicaSetOf env 0 k) w2 ->
    Ok None = Ok match fst run with Ok _ => None | Throw e => Some e end ->
    db (snd run) = applyFetched env u k (db w2)
    /\ trace (snd run) = trace w2 ++ importEvents env key (userReplicaSetOf env 0 k) u k).
  { intros run -> Hr.
    destruct (writeFetched_cases env key 0%nat u k (userReplicaSetOf env 0 k) w2)
      as [(_ & Hdb & _ & _ & Htr)|(e & He & _)]; [done|].
    rewrite He in Hr. discriminate. }
  destruct (_ !! _) as [first|].
  - destruct (negb _); [discriminate|].
    eexists. split; [done|]. split; [exact Hq'|]. by apply Hw.
  - eexists. split; [done|]. split; [exact Hq'|]. by apply Hw.
Qed.

End CommittedImport.

Section ImportClaims.
Import JS Data Effects Environment NodeSync Routes SyncSpec Examples.

(** C5: in a successful import of one fetched user that is ahead of the
    local clock, the database operations are, in this order and inside one
    transaction: upsert of the CNodeUser row (UUID, wallet, lastLogin,
    latestBlockNumber, clock, createdAt), bulk insert of the ClockRecords,
    of the non-track Files, of the Tracks, of the track Files and of the
    AudiusUsers, then commit; the database then holds exactly these
    writes. *)
Theorem import_write_order (env : Env) (ws : list string) (ep : string) (w : World)
    (L : Z) (u : ExportedCNodeUser) (k : string) :
  fetched env ws ep w = Some (L, [u]) ->
  e_walletPublicKey u = Some k ->
  L < e_clock u ->
  fst (_nodesync env ws ep w) = Ok None ->
  dbLog (snd (_nodesync env ws ep w))
  = dbLog w ++
    [EvTransaction;
     EvUpsertCNodeUser
       (mkCNodeUser (e_cnodeUserUUID u) k (e_lastLogin u) (e_latestBlockNumber u)
          (e_clock u) (e_createdAt u));
     EvBulkCreateClockRecords (map (with_uuid (e_cnodeUserUUID u)) (e_clockRecords u));
     EvBulkCreateFiles (map (as_nonTrackFile (e_cnodeUserUUID u)) (nonTrackFilesOf env u));
     EvBulkCreateTracks (map (with_uuid (e_cnodeUserUUID u)) (e_tracks u));
     EvBulkCreateFiles (map (with_uuid (e_cnodeUserUUID u)) (trackFilesOf env u));
     EvBulkCreateAudiusUsers (map (with_uuid (e_cnodeUserUUID u)) (e_audiusUsers u));
     EvCommit]
  /\ db (snd (_nodesync env ws ep w)) = applyFetched env u k (db w).
Proof.
  intros Hf Hk HL Hok.
  destruct (nodesync_single_success env ws ep w L u k Hf Hk HL Hok)
    as (key & w2 & w3 & Hq & Hq' & Hdb & Htr).
  split.
  - rewrite (quiet_dbLog _ _ Hq'). unfold dbLog at 1.
    rewrite Htr, List.filter_app, importEvents_db.
    fold (dbLog w2). by rewrite (quiet_dbLog _ _ Hq).
  - destruct Hq as (Hd & _), Hq' as (Hd' & _). by rewrite Hd', Hdb, Hd.
Qed.

(** C8, amended: in a successful import of one fetched user that is ahead
    of the local clock, the transaction is opened first; the user row and the
    clock records are written in it; then every blob of a track file and of
    a non-track file other than a directory is fetched while the transaction
    is open; only after all fetches come the remaining inserts and the
    commit. *)
Theorem import_fetches_inside_transaction (env : Env) (ws : list string) (ep : string)
    (w : World) (L : Z) (u : ExportedCNodeUser) (k : string) :
  fetched env ws ep w = Some (L, [u]) ->
  e_walletPublicKey u = Some k ->
  L < e_clock u ->
  fst (_nodesync env ws ep w) = Ok None ->
  ioLog (snd (_nodesync env ws ep w))
  = ioLog w ++
    [EvTransaction;
     EvUpsertCNodeUser (rowOf u k);
     EvBulkCreateClockRecords (map (with_uuid (e_cnodeUserUUID u)) (e_clockRecords u))]
    ++ List.concat (map (trackFileFetch (userReplicaSetOf env 0 k)) (trackFilesOf env u))
    ++ List.concat (map (nonTrackFileFetch (userReplicaSetOf env 0 k))
                      (nonTrackFilesOf env u))
    ++ [EvBulkCreateFiles (map (as_nonTrackFile (e_cnodeUserUUID u)) (nonTrackFilesOf env u));
        EvBulkCreateTracks (map (with_uuid (e_cnodeUserUUID u)) (e_tracks u));
        EvBulkCreateFiles (map (with_uuid (e_cnodeUserUUID u)) (trackFilesOf env u));
        EvBulkCreateAudiusUsers (map (with_uuid (e_cnodeUserUUID u)) (e_audiusUsers u));
        EvCommit].
Proof.
  intros Hf Hk HL Hok.
  destruct (nodesync_single_success env ws ep w L u k Hf Hk HL Hok)
    as (key & w2 & w3 & Hq & Hq' & Hdb & Htr).
  rewrite (quiet_ioLog _ _ Hq'). unfold ioLog at 1.
  rewrite Htr, List.filter_app, importEvents_io.
  fold (ioLog w2). rewrite (quiet_ioLog _ _ Hq).
  unfold ioOperations, blobFetches. by rewrite <- !app_assoc.
Qed.

End ImportClaims.

Section ImportChecks.
Import JS Data Effects Environment NodeSync Routes SyncSpec Examples.

Lemma writeFetched_opens (env : Env) key i u k rs w :
  exists rest,
    ioLog (snd (writeFetchedCNodeUser env key i u k rs w))
    = ioLog w ++ EvTransaction :: rest.
Proof.
  unfold ioLog.
  destruct (writeFetched_cases env key i u k rs w)
    as [(_ & _ & _ & _ & Htr)|(e & _ & _ & _ & _ & evs & Htr)];
    rewrite Htr, List.filter_app.
  - rewrite importEvents_io. unfold ioOperations. simpl. by eexists.
  - simpl. by eexists.
Qed.

(** C4: for a run that fetched one user of a requested wallet, [L] being
    the local clock of the wallet (-1 without a local row): a fetched clock
    below [L] makes the run fail with Regression,
    and a fetched clock equal to [L] makes it succeed, in both cases without
    any database operation or blob fetch and with the database and the disk
    unchanged; a run that did operate on the database or fetch a blob had a
    fetched clock above [L]; and with a fetched clock above [L] whose first
    record (if any) has clock [L + 1] the run opens the transaction that
    applies the data. *)
Theorem import_progress_check (env : Env) (ws : list string) (ep : string) (w : World)
    (L : Z) (u : ExportedCNodeUser) (k : string) :
  fetched env ws ep w = Some (L, [u]) ->
  e_walletPublicKey u = Some k ->
  k ∈ ws ->
  L = localMaxClockValOf ws (db w)
  /\ (e_clock u < L ->
     fst (_nodesync env ws ep w) = Ok (Some (ErrRegression L (e_clock u)))
     /\ db (snd (_nodesync env ws ep w)) = db w
     /\ disk (snd (_nodesync env ws ep w)) = disk w
     /\ ioLog (snd (_nodesync env ws ep w)) = ioLog w)
  /\ (e_clock u = L ->
     fst (_nodesync env ws ep w) = Ok None
     /\ db (snd (_nodesync env ws ep w)) = db w
     /\ disk (snd (_nodesync env ws ep w)) = disk w
     /\ ioLog (snd (_nodesync env ws ep w)) = ioLog w)
  /\ (ioLog (snd (_nodesync env ws ep w)) <> ioLog w -> L < e_clock u)
  /\ (L < e_clock u ->
      (forall first, e_clockRecords u !! 0%nat = Some first -> cr_clock first = L + 1) ->
      exists rest, ioLog (snd (_nodesync env ws ep w)) = ioLog w ++ EvTransaction :: rest).
Proof.
  intros Hf Hk Hin.
  destruct (nodesync_single env ws ep w L u Hf) as (key & w2 & Hq & Hres & Hq').
  rewrite importFetchedCNodeUser_unfold, Hk in Hres, Hq'.
  rewrite (bool_decide_eq_true_2 _ Hin) in Hres, Hq'. cbn [negb] in Hres, Hq'.
  assert (Hlt : e_clock u < L ->
     fst (_nodesync env ws ep w) = Ok (Some (ErrRegression L (e_clock u)))
     /\ db (snd (_nodesync env ws ep w)) = db w
     /\ disk (snd (_nodesync env ws ep w)) = disk w
     /\ ioLog (snd (_nodesync env ws ep w)) = ioLog w).
  { intros HL. destruct (Z.ltb_spec (e_clock u) L); [|lia].
    cbn [fst snd] in *. pose proof (quiet_trans _ _ _ Hq Hq') as Hqq.
    split; [done|]. pose proof (quiet_ioLog _ _ Hqq).
    destruct Hqq as (? & _ & ? & _). done. }
  assert (Heq : e_clock u = L ->
     fst (_nodesync env ws ep w) = Ok None
     /\ db (snd (_nodesync env ws ep w)) = db w
     /\ disk (snd (_nodesync env ws ep w)) = disk w
     /\ ioLog (snd (_nodesync env ws ep w)) = ioLog w).
  { intros HL. destruct (Z.ltb_spec (e_clock u) L); [lia|].
    destruct (Z.eqb_spec (e_clock u) L); [|lia].
    cbn [fst snd] in *. pose proof (quiet_trans _ _ _ Hq Hq') as Hqq.
    split; [done|]. pose proof (quiet_ioLog _ _ Hqq).
    destruct Hqq as (? & _ & ? & _). done. }
  split; [by eapply fetched_localMax|].
  split; [exact Hlt|]. split; [exact Heq|]. split.
  - intros Hne. destruct (Z.lt_trichotomy (e_clock u) L) as [H|[H|H]]; [| |lia].
    + destruct (Hlt H) as (_ & _ & _ & Hio). done.
    + destruct (Heq H) as (_ & _ & _ & Hio). done.
  - intros HL Hfirst.
    destruct (Z.ltb_spec (e_clock u) L); [lia|].
    destruct (Z.eqb_spec (e_clock u) L); [lia|].
    rewrite (quiet_ioLog _ _ Hq'), <- (quiet_ioLog _ _ Hq).
    destruct (e_clockRecords u !! 0%nat) as [first|]; [|apply writeFetched_opens].
    rewrite (Hfirst first eq_refl), Z.eqb_refl. cbn [negb]. apply writeFetched_opens.
Qed.

(** C1, amended: for a run that fetched one user of a requested wallet
    whose clock is above the local clock [L] (-1 without a local row): if the export carries clock
    records and the first of them does not have clock [L + 1], the run
    fails with NonContiguous, without any database operation or blob fetch
    and with the database and the disk unchanged. *)
Theorem import_contiguity_check (env : Env) (ws : list string) (ep : string) (w : World)
    (L : Z) (u : ExportedCNodeUser) (k : string) (first : ClockRecord) :
  fetched env ws ep w = Some (L, [u]) ->
  e_walletPublicKey u = Some k ->
  k ∈ ws ->
  L < e_clock u ->
  e_clockRecords u !! 0%nat = Some first ->
  cr_clock first <> L + 1 ->
  L = localMaxClockValOf ws (db w)
  /\ fst (_nodesync env ws ep w) = Ok (Some (ErrNonContiguous L (cr_clock first)))
  /\ db (snd (_nodesync env ws ep w)) = db w
  /\ disk (snd (_nodesync env ws ep w)) = disk w
  /\ ioLog (snd (_nodesync env ws ep w)) = ioLog w.
Proof.
  intros Hf Hk Hin HL Hfirst Hne.
  split; [by eapply fetched_localMax|].
  destruct (nodesync_single env ws ep w L u Hf) as (key & w2 & Hq & Hres & Hq').
  rewrite importFetchedCNodeUser_unfold, Hk, Hfirst in Hres, Hq'.
  rewrite (bool_decide_eq_true_2 _ Hin) in Hres, Hq'. cbn [negb] in Hres, Hq'.
  destruct (Z.ltb_spec (e_clock u) L); [lia|].
  destruct (Z.eqb_spec (e_clock u) L); [lia|].
  destruct (Z.eqb_spec (cr_clock first) (L + 1)); [done|].
  cbn [negb fst snd] in *. pose proof (quiet_trans _ _ _ Hq Hq') as Hqq.
  split; [done|]. pose proof (quiet_ioLog _ _ Hqq).
  destruct Hqq as (? & _ & ? & _). done.
Qed.

(** C1 fails as worded: the export below starts at clock [L + 1 = 3] but
    jumps from 3 to 5; the run succeeds and the records are applied. *)
Lemma import_accepts_gap :
  fetched (envWith noFault gapUser) ["0xabc"] "https://primary" secondaryWorld
  = Some (2, [gapUser])
  /\ map cr_clock (e_clockRecords gapUser) = [3; 5]
  /\ strictlyFrom 3 (map cr_clock (e_clockRecords gapUser)) = false
  /\ fst (_nodesync (envWith noFault gapUser) ["0xabc"] "https://primary" secondaryWorld)
     = Ok None
  /\ map cr_clock
       (ClockRecords
          (db (snd (_nodesync (envWith noFault gapUser) ["0xabc"] "https://primary"
                      secondaryWorld))))
     = [1; 2; 3; 5].
Proof. vm_compute. repeat split; reflexivity. Qed.

(** C8 fails as worded: in this successful import the first operation is
    the opening of the transaction, and both blobs are fetched while it is
    open. *)
Lemma import_fetches_while_open :
  fst (_nodesync (envWith noFault nextUser) ["0xabc"] "https://primary" secondaryWorld)
  = Ok None
  /\ fetchWhileOpen false
       (trace (snd (_nodesync (envWith noFault nextUser) ["0xabc"] "https://primary"
                      secondaryWorld)))
     = true
  /\ map (fun e => (isDbEvent e, isBlobFetch e))
       (ioLog (snd (_nodesync (envWith noFault nextUser) ["0xabc"] "https://primary"
                      secondaryWorld)))
     = [(true, false); (true, false); (true, false);
        (false, true); (false, true);
        (true, false); (true, false); (true, false); (true, false); (true, false)]
  /\ head (ioLog (snd (_nodesync (envWith noFault nextUser) ["0xabc"] "https://primary"
                         secondaryWorld)))
     = Some EvTransaction
  /\ last (ioLog (snd (_nodesync (envWith noFault nextUser) ["0xabc"] "https://primary"
                         secondaryWorld)))
     = Some EvCommit.
Proof. vm_compute. repeat split; reflexivity. Qed.

(** A primary that is level with the secondary: nothing to do. *)
Example import_level_is_noop :
  fst (_nodesync (envWith noFault levelUser) ["0xabc"] "https://primary" secondaryWorld)
  = Ok None
  /\ db (snd (_nodesync (envWith noFault levelUser) ["0xabc"] "https://primary"
                secondaryWorld)) = secondaryDB.
Proof. vm_compute. split; reflexivity. Qed.

(** A primary at clock 1 against a secondary at clock 2. *)
Lemma import_progress_check_witness :
  fst (_nodesync (envWith noFault staleUser) ["0xabc"] "https://primary" secondaryWorld)
  = Ok (Some (ErrRegression 2 1))
  /\ db (snd (_nodesync (envWith noFault staleUser) ["0xabc"] "https://primary"
                secondaryWorld)) = secondaryDB.
Proof.
  destruct (import_progress_check (envWith noFault staleUser) ["0xabc"] "https://primary"
              secondaryWorld 2 staleUser "0xabc") as (_ & Hlt & _).
  - vm_compute. reflexivity.
  - reflexivity.
  - apply list_elem_of_singleton. reflexivity.
  - destruct Hlt as (Hr & Hd & _); [simpl; lia|]. split; [exact Hr|exact Hd].
Defined.

(** An export that starts at clock 4 against a secondary at clock 2. *)
Lemma import_contiguity_check_witness :
  fst (_nodesync (envWith noFault lateUser) ["0xabc"] "https://primary" secondaryWorld)
  = Ok (Some (ErrNonContiguous 2 4))
  /\ db (snd (_nodesync (envWith noFault lateUser) ["0xabc"] "https://primary"
                secondaryWorld)) = secondaryDB.
Proof.
  destruct (import_contiguity_check (envWith noFault lateUser) ["0xabc"] "https://primary"
              secondaryWorld 2 lateUser "0xabc" (mkClockRecord "uuid-1" 4 FileTable))
    as (_ & Hr & Hd & _).
  - vm_compute. reflexivity.
  - reflexivity.
  - apply list_elem_of_singleton. reflexivity.
  - simpl. lia.
  - reflexivity.
  - simpl. lia.
  - split; [exact Hr|exact Hd].
Defined.

(** The database operations of the import of clocks 3 and 4. *)
Lemma import_write_order_witness :
  dbLog (snd (_nodesync (envWith noFault nextUser) ["0xabc"] "https://primary"
                secondaryWorld))
  = dbLog secondaryWorld ++ dbOperations (envWith noFault nextUser) nextUser "0xabc".
Proof.
  apply (import_write_order (envWith noFault nextUser) ["0xabc"] "https://primary"
           secondaryWorld 2 nextUser "0xabc").
  - vm_compute. reflexivity.
  - reflexivity.
  - simpl. lia.
  - vm_compute. reflexivity.
Defined.

(** The operations and fetches of the import of clocks 3 and 4. *)
Lemma import_fetches_inside_transaction_witness :
  ioLog (snd (_nodesync (envWith noFault nextUser) ["0xabc"] "https://primary"
                secondaryWorld))
  = ioLog secondaryWorld
    ++ ioOperations (envWith noFault nextUser) ["https://primary"] nextUser "0xabc".
Proof.
  apply (import_fetches_inside_transaction (envWith noFault nextUser) ["0xabc"]
           "https://primary" secondaryWorld 2 nextUser "0xabc").
  - vm_compute. reflexivity.
  - reflexivity.
  - simpl. lia.
  - vm_compute. reflexivity.
Defined.

(** An import whose insertion of the tracks fails. *)
Lemma sync_releases_locks_witness :
  (exists errorObj,
      fst (_nodesync (envWith tracksFail nextUser) ["0xabc"] "https://primary"
             secondaryWorld) = Ok errorObj)
  /\ ("nodeSync:0xabc" ∉ locks (snd (_nodesync (envWith tracksFail nextUser) ["0xabc"]
                                       "https://primary" secondaryWorld)))
  /\ tx (snd (_nodesync (envWith tracksFail nextUser) ["0xabc"] "https://primary"
                secondaryWorld)) = None
  /\ db (snd (_nodesync (envWith tracksFail nextUser) ["0xabc"] "https://primary"
                secondaryWorld)) = secondaryDB.
Proof.
  destruct (sync_releases_locks (envWith tracksFail nextUser) ["0xabc"] "https://primary"
              secondaryWorld
              (snd (acquireLocks ["0xabc"] None secondaryWorld))
              (Some "nodeSync:0xabc"))
    as (Hret & Hlocks & Htx & _ & Hdb).
  - vm_compute. reflexivity.
  - reflexivity.
  - split; [exact Hret|]. split; [|split; [exact Htx|]].
    + apply (Hlocks "0xabc"). apply list_elem_of_singleton. reflexivity.
    + apply (Hdb (ErrWrapped (ErrExternal (StBulkCreateTracks 0)))).
      * vm_compute. reflexivity.
      * vm_compute. lia.
Defined.

End ImportChecks.

(** ** Splitting and joining *)
Section SplitJoin.
Import JS.

Lemma split_nonempty (sep : ascii) (s : string) : split sep s <> [].
Proof.
  induction s as [|c s IH]; simpl; [done|].
  destruct (Ascii.eqb c sep); [done|]. by destruct (split sep s).
Qed.

Lemma join_cons (sep x : string) (rest : list string) :
  rest <> [] -> join sep (x :: rest) = x +:+ sep +:+ join sep rest.
Proof. by destruct rest. Qed.

Lemma join_split (sep : ascii) (s : string) :
  join (String sep EmptyString) (split sep s) = s.
Proof.
  induction s as [|c s IH]; simpl; [done|].
  destruct (Ascii.eqb_spec c sep) as [->|Hne].
  - rewrite join_cons by apply split_nonempty. simpl. by rewrite IH.
  - pose proof (split_nonempty sep s) as Hs.
    destruct (split sep s) as [|t ts]; [done|].
    destruct ts as [|t' ts].
    + simpl in *. by rewrite IH.
    + rewrite join_cons by done. rewrite join_cons in IH by done.
      by rewrite <- IH.
Qed.

Lemma split_elems_no_sep (sep : ascii) (s : string) :
  Forall (fun t => has_char sep t = false) (split sep s).
Proof.
  induction s as [|c s IH]; simpl; [by repeat constructor|].
  destruct (Ascii.eqb c sep) eqn:Hc; [by constructor|].
  pose proof (split_nonempty sep s) as Hs.
  destruct (split sep s) as [|t ts]; [done|].
  inversion IH; subst. constructor; [|done]. simpl. by rewrite Hc.
Qed.

Lemma split_length_one (sep : ascii) (s : string) :
  has_char sep s = false <-> List.length (split sep s) = 1%nat.
Proof.
  induction s as [|c s IH]; simpl; [done|].
  pose proof (split_nonempty sep s) as Hs.
  destruct (Ascii.eqb c sep); simpl.
  - split; [done|]. destruct (split sep s); [done|]. simpl. lia.
  - rewrite IH. by destruct (split sep s).
Qed.

Lemma string_append_assoc (a b c : string) : (a +:+ b) +:+ c = a +:+ (b +:+ c).
Proof.
  induction a as [|x a IH]; [done|].
  change (String x ((a +:+ b) +:+ c) = String x (a +:+ (b +:+ c))).
  by rewrite IH.
Qed.

Lemma join_snoc (sep : string) (init : list string) (last' : string) :
  init <> [] -> join sep (init ++ [last']) = join sep init +:+ sep +:+ last'.
Proof.
  induction init as [|x init IH]; [done|]. intros _.
  destruct init as [|y init]; [done|].
  change ((x :: y :: init) ++ [last']) with (x :: ((y :: init) ++ [last'])).
  rewrite join_cons by (by destruct init).
  rewrite IH by done. rewrite (join_cons sep x (y :: init)) by done.
  by rewrite !string_append_assoc.
Qed.

End SplitJoin.

(** ** Endpoint strings and stored paths *)
Section PathClaims.
Import JS CreatorNode Files.

(** X1: for a non-empty endpoint string the primary followed by the
    secondaries is the list of endpoints, and building an endpoint string
    from them gives the string back. *)
Theorem endpoints_recompose (endpoints : string) :
  endpoints <> EmptyString ->
  exists primary,
    getPrimary (Some endpoints) = Some primary
    /\ getEndpoints (Some endpoints) = primary :: getSecondaries (Some endpoints)
    /\ buildEndpoint primary (getSecondaries (Some endpoints)) = endpoints.
Proof.
  intros Hne. unfold getPrimary, getEndpoints, getSecondaries, buildEndpoint.
  assert (Ht : truthy (Some endpoints) = true) by (by destruct endpoints).
  rewrite Ht.
  pose proof (join_split comma endpoints) as Hj.
  pose proof (split_nonempty comma endpoints) as Hs.
  destruct (split comma endpoints) as [|p rest]; [done|].
  exists p. by repeat split.
Qed.

(** A replica set of three. *)
Lemma endpoints_recompose_witness :
  exists primary,
    getPrimary (Some "https://cn1,https://cn2,https://cn3") = Some primary
    /\ getEndpoints (Some "https://cn1,https://cn2,https://cn3")
       = primary :: getSecondaries (Some "https://cn1,https://cn2,https://cn3")
    /\ buildEndpoint primary (getSecondaries (Some "https://cn1,https://cn2,https://cn3"))
       = "https://cn1,https://cn2,https://cn3".
Proof. apply (endpoints_recompose "https://cn1,https://cn2,https://cn3"). discriminate. Defined.

Lemma split_init_last (s : string) :
  split slash s = slice_init (split slash s) ++ slice_last (split slash s)
  /\ exists cid, slice_last (split slash s) = [cid].
Proof.
  unfold slice_init, slice_last.
  split; [by rewrite take_drop|].
  pose proof (split_nonempty slash s) as Hs.
  destruct (split slash s) as [|x l] using rev_ind; [done|].
  exists x. rewrite length_app. simpl.
  replace (List.length l + 1 - 1)%nat with (List.length l) by lia.
  by rewrite drop_app_length.
Qed.

(** X2: in [getDirCID] the directory and the CID cut from a storage path
    that contains a slash give the path back when joined with a slash, and
    the CID contains no slash; a path without a slash has an empty directory
    and is its own CID. *)
Theorem storagePath_recompose (storagePath : string) :
  has_char slash (cidOfStoragePath storagePath) = false
  /\ (has_char slash storagePath = true ->
      parentStoragePath storagePath +:+ "/" +:+ cidOfStoragePath storagePath = storagePath)
  /\ (has_char slash storagePath = false ->
      parentStoragePath storagePath = EmptyString
      /\ cidOfStoragePath storagePath = storagePath).
Proof.
  unfold parentStoragePath, cidOfStoragePath.
  destruct (split_init_last storagePath) as (Hsplit & cid & Hlast).
  pose proof (join_split slash storagePath) as Hj.
  pose proof (split_elems_no_sep slash storagePath) as Hel.
  pose proof (split_length_one slash storagePath) as Hone.
  rewrite Hlast in Hsplit |- *.
  set (init := slice_init (split slash storagePath)) in *.
  rewrite Hsplit in Hj, Hel, Hone. rewrite length_app in Hone. simpl in Hone.
  change (join "" [cid]) with cid.
  split; [|split].
  - apply Forall_app in Hel as [_ Hc]. by inversion Hc.
  - intros Hhas. destruct init as [|x init'] eqn:Hi.
    + destruct Hone as [_ Hone]. rewrite Hone in Hhas; done.
    + rewrite <- Hj. change "/" with (String slash EmptyString).
      by rewrite join_snoc.
  - intros Hno. apply Hone in Hno.
    destruct init as [|x init']; [|simpl in Hno; lia].
    simpl in Hj. done.
Qed.

(** A stored image of a directory. *)
Lemma storagePath_recompose_witness :
  parentStoragePath "/file_storage/QmDir/QmImage" +:+ "/"
    +:+ cidOfStoragePath "/file_storage/QmDir/QmImage"
  = "/file_storage/QmDir/QmImage".
Proof.
  apply (proj1 (proj2 (storagePath_recompose "/file_storage/QmDir/QmImage"))).
  reflexivity.
Defined.

(** X3: what [streamFromFileSystem] does with a file that it found.
    It answers 416 exactly for a streamable request whose range has an end at
    or past the size.  It serves partial content exactly for the other
    streamable requests with a range: from the requested start, which it
    does not check, to the requested end or, when the end is missing or 0,
    to the last byte; so that a partial read never ends past the last byte.
    It streams the whole file exactly when the request is not streamable or
    has no range. *)
Theorem streamPlan_bounds (streamable : bool) (size : Z) (range : option (Z * option Z)) :
  (streamPlan streamable size range = RangeNotSatisfiable
   <-> streamable = true
       /\ exists start e, range = Some (start, Some e) /\ size <= e)
  /\ (forall start end_,
        streamPlan streamable size range = PartialContent start end_
        <-> streamable = true
            /\ exists requested,
                 range = Some (start, requested)
                 /\ ((exists e, requested = Some e /\ e <> 0 /\ e < size /\ end_ = e)
                     \/ ((requested = None \/ (requested = Some 0 /\ 0 < size))
                         /\ end_ = size - 1)))
  /\ (forall start end_,
        streamPlan streamable size range = PartialContent start end_ ->
        end_ <= size - 1)
  /\ (streamPlan streamable size range = WholeFile
      <-> streamable = false \/ range = None).
Proof.
  assert (Hpartial : forall start end_,
    streamPlan streamable size range = PartialContent start end_
    <-> streamable = true
        /\ exists requested,
             range = Some (start, requested)
             /\ ((exists e, requested = Some e /\ e <> 0 /\ e < size /\ end_ = e)
                 \/ ((requested = None \/ (requested = Some 0 /\ 0 < size))
                     /\ end_ = size - 1))).
  { intros start end_. unfold streamPlan.
    destruct streamable.
    2:{ split; [done|]. by intros [? _]. }
    destruct range as [[s [e|]]|].
    - destruct (Z.leb_spec size e).
      + split; [done|].
        intros (_ & requested & Heq & Hcases). injection Heq as <- <-.
        destruct Hcases as [(e' & He' & ? & ? & ?)|[[?|[He' ?]] ?]]; [|done|];
          injection He' as ->; lia.
      + split.
        * intros [= -> <-]. split; [done|]. exists (Some e). split; [done|].
          destruct (Z.eq_dec e 0) as [->|Hne].
          -- right. split; [right; split; [done|lia]|done].
          -- left. exists e. by destruct e.
        * intros (_ & requested & Heq & Hcases). injection Heq as <- <-.
          destruct Hcases as [(e' & He' & ? & ? & ->)|[[?|[He' ?]] ->]]; [|done|];
            injection He' as ->; [by destruct e'|done].
    - split.
      + intros [= -> <-]. split; [done|]. exists None. split; [done|]. right. by split; [left|].
      + intros (_ & requested & Heq & Hcases). injection Heq as <- <-.
        by destruct Hcases as [(e' & ? & _)|[_ ->]].
    - split; [done|]. by intros (_ & requested & ? & _). }
  split; [|split; [exact Hpartial|split]].
  - unfold streamPlan. split.
    + destruct streamable; [|done].
      destruct range as [[s [e|]]|]; try done.
      destruct (Z.leb_spec size e); [|done].
      intros _. split; [done|]. by exists s, e.
    + intros (-> & s & e & -> & Hle).
      by destruct (Z.leb_spec size e); [|lia].
  - intros start end_ H. apply Hpartial in H as (_ & requested & _ & [(e & _ & _ & ? & ->)|[_ ->]]);
      lia.
  - unfold streamPlan. split.
    + destruct streamable; [|by left].
      destruct range as [[s [e|]]|]; [|done|by right].
      by destruct (size <=? e).
    + intros [-> | ->]; [done|]. by destruct streamable.
Qed.

(** The first byte of a file of ten bytes is asked for: the range ends at
    byte 0, and the file is read to its last byte. *)
Lemma streamPlan_bounds_witness :
  streamPlan true 10 (Some (0, Some 0)) = PartialContent 0 9.
Proof.
  apply (proj2 (proj1 (proj2 (streamPlan_bounds true 10 (Some (0, Some 0)))) 0 9)).
  split; [reflexivity|]. exists (Some 0). split; [reflexivity|].
  right. split; [|reflexivity]. right. split; [reflexivity|lia].
Defined.

End PathClaims.

(** ** More on [/export] *)
Section ExportKeys.
Import JS Data Effects Environment NodeSync Routes ExportSpec.

Lemma dict_set_keys {V} (key : string) (value : V) (d : list (string * V)) :
  NoDup (map fst d) ->
  NoDup (map fst (dict_set key value d))
  /\ forall k, k ∈ map fst (dict_set key value d) <-> k = key \/ k ∈ map fst d.
Proof.
  induction d as [|[k' v'] d IH]; simpl; intros Hnd.
  - split; [apply NoDup_singleton|]. intros k.
    rewrite list_elem_of_singleton. split; [by left|]. intros [?|Hn]; [done|].
    by apply elem_of_nil in Hn.
  - inversion Hnd as [|? ? Hnot Hnd']; subst. case_bool_decide as Hk; simpl.
    + split; [by constructor|]. intros k. subst. rewrite elem_of_cons. tauto.
    + destruct (IH Hnd') as [IH1 IH2]. split.
      * constructor; [|done]. rewrite IH2. intros [?|?]; [by subst|done].
      * intros k. rewrite !elem_of_cons, IH2. tauto.
Qed.

Lemma bundled_dict_keys (lo hi : Z) (rows : list CNodeUser) :
  forall d,
    NoDup (map fst d) ->
    NoDup (map fst (fold_left (fun d cnodeUser =>
             dict_set (cnodeUserUUID cnodeUser) (bundleCNodeUser lo hi cnodeUser) d) rows d))
    /\ forall k,
        k ∈ map fst (fold_left (fun d cnodeUser =>
               dict_set (cnodeUserUUID cnodeUser) (bundleCNodeUser lo hi cnodeUser) d) rows d)
        <-> k ∈ map fst d \/ k ∈ map cnodeUserUUID rows.
Proof.
  induction rows as [|row rows IH]; intros d Hnd; simpl.
  - split; [done|]. intros k. split; [by left|]. intros [?|Hn]; [done|].
    by apply elem_of_nil in Hn.
  - destruct (dict_set_keys (cnodeUserUUID row) (bundleCNodeUser lo hi row) d Hnd)
      as [Hnd1 Hk1].
    destruct (IH _ Hnd1) as [Hnd2 Hk2]. split; [done|].
    intros k. rewrite Hk2, Hk1, elem_of_cons. tauto.
Qed.

Lemma dict_update_keys {V} (key : string) (f : V -> V) (d : list (string * V)) :
  map fst (dict_update key f d) = map fst d.
Proof.
  induction d as [|[k v] d IH]; simpl; [done|].
  case_bool_decide; simpl; [done|]. by rewrite IH.
Qed.

Lemma pushAll_keys {A} `{Row A} (push : A -> ExportedCNodeUser -> ExportedCNodeUser)
    (rows : list A) (d : list (string * ExportedCNodeUser)) :
  map fst (pushAll push rows d) = map fst d.
Proof.
  unfold pushAll. revert d.
  induction rows as [|r rows IH]; intros d; simpl; [done|].
  by rewrite IH, dict_update_keys.
Qed.

Lemma bundle_keys (lo hi : Z) (rows : list CNodeUser) (au : list AudiusUser)
    (tr : list Track) (fi : list File) (cr : list ClockRecord) :
  NoDup (map fst (bundle lo hi rows au tr fi cr))
  /\ forall k, k ∈ map fst (bundle lo hi rows au tr fi cr) <-> k ∈ map cnodeUserUUID rows.
Proof.
  unfold bundle. rewrite !pushAll_keys.
  destruct (bundled_dict_keys lo hi rows []) as [Hnd Hk]; [constructor|].
  split; [done|]. intros k. rewrite Hk. split; [|by right].
  intros [Hn|?]; [|done]. by apply elem_of_nil in Hn.
Qed.

(** An entry of a dictionary with distinct keys after an update. *)
Lemma dict_update_entry {V} (key : string) (f : V -> V) (d : list (string * V)) k v :
  NoDup (map fst d) ->
  (k, v) ∈ dict_update key f d ->
  exists v0, (k, v0) ∈ d /\ v = if bool_decide (k = key) then f v0 else v0.
Proof.
  induction d as [|[k' v'] d IH]; simpl; intros Hnd Hin; [by apply elem_of_nil in Hin|].
  inversion Hnd as [|? ? Hnot Hnd']; subst.
  case_bool_decide as Hk.
  - apply elem_of_cons in Hin as [Heq|Hin].
    + injection Heq as -> ->. exists v'. split; [by left|]. by rewrite bool_decide_true.
    + exists v. split; [by right|]. rewrite bool_decide_false; [done|].
      intros ->. apply Hnot. subst. apply list_elem_of_fmap. by exists (key, v).
  - apply elem_of_cons in Hin as [Heq|Hin].
    + injection Heq as -> ->. exists v'. split; [by left|]. by rewrite bool_decide_false.
    + destruct (IH Hnd' Hin) as (v0 & Hv0 & Hv). exists v0. split; [by right|done].
Qed.

(** What [pushAll] does to the entry of one key: the rows of that key are
    appended, in order, to the array [g] that [push] extends, and a field
    [h] that [push] leaves alone is as before. *)
Lemma pushAll_entry {A B} `{Row A} (push : A -> ExportedCNodeUser -> ExportedCNodeUser)
    (g : ExportedCNodeUser -> list A) (h : ExportedCNodeUser -> B) :
  (forall r u, g (push r u) = g u ++ [r]) ->
  (forall r u, h (push r u) = h u) ->
  forall rows d k u,
    NoDup (map fst d) ->
    (k, u) ∈ pushAll push rows d ->
    exists u0, (k, u0) ∈ d
               /\ g u = g u0 ++ filter (fun r => row_uuid r = k) rows
               /\ h u = h u0.
Proof.
  intros Hg Hh. unfold pushAll.
  induction rows as [|r rows IH]; intros d k u Hnd Hin; simpl in Hin.
  - exists u. split; [done|]. by rewrite app_nil_r.
  - apply IH in Hin as (u1 & Hin1 & Hg1 & Hh1);
      [|by rewrite dict_update_keys].
    apply dict_update_entry in Hin1 as (u0 & Hin0 & Hu1); [|done].
    exists u0. split; [done|].
    rewrite Hg1, Hh1, Hu1, filter_cons.
    case_bool_decide as Hk; case_decide as Hk'; try congruence.
    + by rewrite Hg, Hh, <- app_assoc.
    + done.
Qed.

End ExportKeys.

Section ExportComplete.
Import JS Data Effects Environment NodeSync Routes ExportSpec Examples.

(** The arrays of an entry of a bundle are exactly the rows of its key, in
    the order they were read. *)
Lemma bundle_arrays (lo hi : Z) (rows : list CNodeUser) (au : list AudiusUser)
    (tr : list Track) (fi : list File) (cr : list ClockRecord) k u :
  (k, u) ∈ bundle lo hi rows au tr fi cr ->
  e_audiusUsers u = filter (fun r => row_uuid r = k) au
  /\ e_tracks u = filter (fun r => row_uuid r = k) tr
  /\ e_files u = filter (fun r => row_uuid r = k) fi
  /\ e_clockRecords u = filter (fun r => row_uuid r = k) cr
  /\ exists row, row ∈ rows /\ k = cnodeUserUUID row
                 /\ e_cnodeUserUUID u = k
                 /\ e_walletPublicKey u = Some (walletPublicKey row)
                 /\ e_clock u = e_clock (bundleCNodeUser lo hi row).
Proof.
  unfold bundle. intros Hin.
  set (d0 := fold_left _ rows []) in *.
  assert (Hnd0 : NoDup (map fst d0)).
  { apply (bundled_dict_keys lo hi rows []). constructor. }
  apply (pushAll_entry push_clockRecord e_clockRecords
           (fun u => (e_audiusUsers u, e_tracks u, e_files u,
                      e_cnodeUserUUID u, e_walletPublicKey u, e_clock u))) in Hin
    as (u3 & Hin & Hcr & Hh3); [|done|done|by rewrite !pushAll_keys].
  apply (pushAll_entry push_file e_files
           (fun u => (e_audiusUsers u, e_tracks u, e_clockRecords u,
                      e_cnodeUserUUID u, e_walletPublicKey u, e_clock u))) in Hin
    as (u2 & Hin & Hfi & Hh2); [|done|done|by rewrite !pushAll_keys].
  apply (pushAll_entry push_track e_tracks
           (fun u => (e_audiusUsers u, e_files u, e_clockRecords u,
                      e_cnodeUserUUID u, e_walletPublicKey u, e_clock u))) in Hin
    as (u1 & Hin & Htr & Hh1); [|done|done|by rewrite !pushAll_keys].
  apply (pushAll_entry push_audiusUser e_audiusUsers
           (fun u => (e_tracks u, e_files u, e_clockRecords u,
                      e_cnodeUserUUID u, e_walletPublicKey u, e_clock u))) in Hin
    as (u0 & Hin & Hau & Hh0); [|done|done|done].
  destruct (bundled_dict_elem lo hi rows [] k u0 Hin) as [Hnil|(row & Hrow & -> & ->)].
  { by apply elem_of_nil in Hnil. }
  simpl in Hau, Hh0.
  injection Hh3 as Hau3 Htr3 Hfi3 Hid3 Hw3 Hc3.
  injection Hh2 as Hau2 Htr2 Hcr2 Hid2 Hw2 Hc2.
  injection Hh1 as Hau1 Hfi1 Hcr1 Hid1 Hw1 Hc1.
  injection Hh0 as Htr0 Hfi0 Hcr0 Hid0 Hw0 Hc0.
  repeat split.
  - by rewrite Hau3, Hau2, Hau1, Hau.
  - by rewrite Htr3, Htr2, Htr, Htr0.
  - by rewrite Hfi3, Hfi, Hfi1, Hfi0.
  - by rewrite Hcr, Hcr2, Hcr1, Hcr0.
  - exists row. repeat split; [done|congruence|congruence|].
    by rewrite Hc3, Hc2, Hc1, Hc0.
Qed.

Lemma findAllInRange_elem {A} `{Row A} (table : list A) (uuids : list string)
    (lo hi : Z) (r : A) :
  r ∈ findAllInRange table uuids lo hi
  <-> r ∈ table /\ row_uuid r ∈ uuids /\ lo <= row_clock r <= hi.
Proof.
  unfold findAllInRange. rewrite orderByClockAsc_elem, list_elem_of_filter. tauto.
Qed.

(** X4: an answered export names exactly the stored users of the requested
    wallets: the keys of [cnodeUsers] are distinct, a UUID is a key exactly
    when a stored user of a requested wallet has it, and every entry carries
    its key as UUID and a requested wallet. *)
Theorem export_users_complete (env : Env) (q : ExportQuery) (w w' : World)
    (exported : list (string * ExportedCNodeUser)) (ipfs : IpfsIDObj) :
  export env q w = (Ok (successExport exported ipfs), w') ->
  NoDup (map fst exported)
  /\ (forall uuid, uuid ∈ map fst exported <->
        exists row, row ∈ CNodeUsers (db w)
                    /\ walletPublicKey row ∈ wallet_public_key q
                    /\ cnodeUserUUID row = uuid)
  /\ (forall uuid u, (uuid, u) ∈ exported ->
        e_cnodeUserUUID u = uuid
        /\ exists wallet, e_walletPublicKey u = Some wallet
                          /\ wallet ∈ wallet_public_key q).
Proof.
  intros Hrun. apply export_success in Hrun as [-> _]. unfold exportData.
  split; [apply bundle_keys|]. split.
  - intros uuid. rewrite (proj2 (bundle_keys _ _ _ _ _ _ _)), list_elem_of_fmap.
    split.
    + intros (row & -> & Hrow). apply list_elem_of_filter in Hrow as [? ?].
      by exists row.
    + intros (row & ? & ? & <-). exists row. split; [done|].
      by apply list_elem_of_filter.
  - intros uuid u Hin.
    apply bundle_arrays in Hin as (_ & _ & _ & _ & row & Hrow & _ & Hid & Hw & _).
    split; [done|]. exists (walletPublicKey row). split; [done|].
    by apply list_elem_of_filter in Hrow as [? _].
Qed.

(** The one user of the primary is exported under its UUID. *)
Lemma export_users_complete_witness :
  exists exported,
    NoDup (map fst exported)
    /\ (forall uuid, uuid ∈ map fst exported <->
          exists row, row ∈ CNodeUsers primaryDB
                      /\ walletPublicKey row ∈ ["0xabc"]
                      /\ cnodeUserUUID row = uuid)
    /\ (forall uuid u, (uuid, u) ∈ exported ->
          e_cnodeUserUUID u = uuid
          /\ exists wallet, e_walletPublicKey u = Some wallet /\ wallet ∈ ["0xabc"]).
Proof.
  eexists.
  eapply (export_users_complete exportEnv (mkExportQuery ["0xabc"] None (Some 1) (Some 2))
            primaryWorld).
  lazy. reflexivity.
Defined.

(** X5: an answered export leaves nothing out: under the UUID of a returned
    user, each of the four arrays holds exactly the stored rows of that UUID
    whose clock lies in the window. *)
Theorem export_records_complete (env : Env) (q : ExportQuery) (w w' : World)
    (exported : list (string * ExportedCNodeUser)) (ipfs : IpfsIDObj)
    (uuid : string) (u : ExportedCNodeUser) :
  export env q w = (Ok (successExport exported ipfs), w') ->
  (uuid, u) ∈ exported ->
  (forall r, r ∈ e_clockRecords u <->
     r ∈ ClockRecords (db w) /\ cr_cnodeUserUUID r = uuid
     /\ windowMin q <= cr_clock r <= windowMax env q)
  /\ (forall r, r ∈ e_audiusUsers u <->
        r ∈ AudiusUsers (db w) /\ au_cnodeUserUUID r = uuid
        /\ windowMin q <= au_clock r <= windowMax env q)
  /\ (forall r, r ∈ e_tracks u <->
        r ∈ Tracks (db w) /\ tr_cnodeUserUUID r = uuid
        /\ windowMin q <= tr_clock r <= windowMax env q)
  /\ (forall r, r ∈ e_files u <->
        r ∈ Files (db w) /\ f_cnodeUserUUID r = uuid
        /\ windowMin q <= f_clock r <= windowMax env q).
Proof.
  intros Hrun Hin. apply export_success in Hrun as [-> _]. unfold exportData in Hin.
  rewrite requestedClockRangeMinOf_eq, requestedClockRangeMaxOf_eq in Hin.
  apply bundle_arrays in Hin as (Hau & Htr & Hfi & Hcr & row & Hrow & Hk & _).
  assert (Hkey : uuid ∈ map cnodeUserUUID
            (filter (fun u => walletPublicKey u ∈ wallet_public_key q) (CNodeUsers (db w)))).
  { apply list_elem_of_fmap. by exists row. }
  rewrite Hau, Htr, Hfi, Hcr.
  split; [|split; [|split]]; intros r;
    rewrite list_elem_of_filter, findAllInRange_elem; simpl;
    (split; [tauto|]); intros (? & Heq & ?); rewrite Heq; tauto.
Qed.

(** The window [[1, 2]] of a primary at clock 3. *)
Lemma export_records_complete_witness :
  exists u : ExportedCNodeUser,
    (forall r, r ∈ e_clockRecords u <->
       r ∈ ClockRecords primaryDB /\ cr_cnodeUserUUID r = "uuid-p" /\ 1 <= cr_clock r <= 2)
    /\ (forall r, r ∈ e_audiusUsers u <->
          r ∈ AudiusUsers primaryDB /\ au_cnodeUserUUID r = "uuid-p"
          /\ 1 <= au_clock r <= 2)
    /\ (forall r, r ∈ e_tracks u <->
          r ∈ Tracks primaryDB /\ tr_cnodeUserUUID r = "uuid-p" /\ 1 <= tr_clock r <= 2)
    /\ (forall r, r ∈ e_files u <->
          r ∈ Files primaryDB /\ f_cnodeUserUUID r = "uuid-p" /\ 1 <= f_clock r <= 2).
Proof.
  eexists.
  eapply (export_records_complete exportEnv
            (mkExportQuery ["0xabc"] None (Some 1) (Some 2)) primaryWorld _ _ _ "uuid-p").
  - lazy. reflexivity.
  - apply list_elem_of_singleton. reflexivity.
Defined.

End ExportComplete.

Section ExportFrame.
Import JS Data Effects Environment NodeSync Routes ExportSpec Examples.

Ltac run_export env :=
  unfold export, transaction, commit, try_catch, bind, external, modify, get, ret, rollback;
  simpl;
  repeat (match goal with
          | |- context [fault env ?s] => destruct (fault env s)
          end; simpl).

(** X6: [/export] answers with a bad request exactly when the upper bound
    of the window does not exceed the lower bound; nothing is touched then.
    A node configured with a range of at most one clock value therefore
    rejects every export. *)
Theorem export_bad_range (env : Env) (q : ExportQuery) (w : World) :
  ((exists msg, fst (export env q w) = Ok (errorResponseBadRequest msg))
   <-> windowMax env q <= windowMin q)
  /\ (windowMax env q <= windowMin q ->
      export env q w
      = (Ok (errorResponseBadRequest (InvalidClockRange (windowMin q) (windowMax env q))), w))
  /\ (maxExportClockValueRange env <= 1 -> windowMax env q <= windowMin q).
Proof.
  assert (Hbad : windowMax env q <= windowMin q ->
    export env q w
    = (Ok (errorResponseBadRequest (InvalidClockRange (windowMin q) (windowMax env q))), w)).
  { intros Hle. unfold export.
    rewrite requestedClockRangeMinOf_eq, requestedClockRangeMaxOf_eq.
    by destruct (Z.leb_spec (windowMax env q) (windowMin q)); [|lia]. }
  split; [split|split; [exact Hbad|]].
  - intros [msg Hmsg].
    destruct (Z.le_gt_cases (windowMax env q) (windowMin q)) as [|Hlt]; [done|].
    exfalso. revert Hmsg. unfold export.
    rewrite requestedClockRangeMinOf_eq, requestedClockRangeMaxOf_eq.
    destruct (Z.leb_spec (windowMax env q) (windowMin q)); [lia|].
    run_export env; discriminate.
  - intros Hle. eexists. by rewrite (Hbad Hle).
  - intros Hrange. unfold windowMax.
    destruct (clock_range_max q) as [m|]; [destruct (m =? 0)|]; lia.
Qed.

(** X7: [/export] only reads: whatever fails, the database, the locks,
    the queue of syncs and the disk are as before and no transaction stays
    open; the log grows by the opening of a transaction followed by a commit,
    a rollback, or both. *)
Theorem export_read_only (env : Env) (q : ExportQuery) (w : World) :
  tx w = None ->
  db (snd (export env q w)) = db w
  /\ tx (snd (export env q w)) = None
  /\ locks (snd (export env q w)) = locks w
  /\ syncQueue (snd (export env q w)) = syncQueue w
  /\ timers (snd (export env q w)) = timers w
  /\ disk (snd (export env q w)) = disk w
  /\ exists events,
       trace (snd (export env q w)) = trace w ++ events
       /\ events ∈ [[]; [EvTransaction]; [EvTransaction; EvCommit];
                    [EvTransaction; EvRollback]; [EvTransaction; EvCommit; EvRollback]].
Proof.
  intros Htx. destruct w as [d t l qu tm n dk tr]. simpl in Htx. subst t.
  unfold export.
  destruct (requestedClockRangeMaxOf env q <=? requestedClockRangeMinOf q).
  { simpl. repeat split. exists []. split; [by rewrite app_nil_r|]. by left. }
  run_export env; repeat split;
    eexists; (split; [by rewrite <- ?app_assoc|]);
    rewrite !elem_of_cons; tauto.
Qed.

(** An export of the primary. *)
Lemma export_read_only_witness :
  db (snd (export exportEnv (mkExportQuery ["0xabc"] None (Some 1) (Some 2)) primaryWorld))
  = primaryDB.
Proof.
  apply (export_read_only exportEnv (mkExportQuery ["0xabc"] None (Some 1) (Some 2))
           primaryWorld).
  reflexivity.
Defined.

End ExportFrame.

(** ** Parts of the world that a computation leaves alone *)
Section Frames.
Import JS Data Effects Environment NodeSync Routes SyncSpec FrameSpec.
Context {B : Type} (p : World -> B).

Lemma keeps_ret {A} (a : A) : keeps p (ret a).
Proof. done. Qed.

Lemma keeps_throw {A} (e : Err) : keeps p (@throw A e).
Proof. done. Qed.

Lemma keeps_get : keeps p get.
Proof. done. Qed.

Lemma keeps_modify (f : World -> World) : (forall w, p (f w) = p w) -> keeps p (modify f).
Proof. intros Hf w. apply Hf. Qed.

Lemma keeps_bind {A C} (c : M A) (k : A -> M C) :
  keeps p c -> (forall a, keeps p (k a)) -> keeps p (bind c k).
Proof.
  intros Hc Hk w. unfold bind. specialize (Hc w).
  destruct (c w) as [[a|e] w1]; simpl in *; [|done]. by rewrite Hk.
Qed.

Lemma keeps_try_catch {A} (c : M A) (h : Err -> M A) :
  keeps p c -> (forall e, keeps p (h e)) -> keeps p (try_catch c h).
Proof.
  intros Hc Hh w. unfold try_catch. specialize (Hc w).
  destruct (c w) as [[a|e] w1]; simpl in *; [done|]. by rewrite Hh.
Qed.

Lemma keeps_try_finally {A} (c : M A) (f : M unit) :
  keeps p c -> keeps p f -> keeps p (try_finally c f).
Proof.
  intros Hc Hf w. unfold try_finally. specialize (Hc w).
  destruct (c w) as [r w1]. specialize (Hf w1).
  destruct (f w1) as [[[]|e] w2]; simpl in *; congruence.
Qed.

Lemma keeps_promiseAll (acts : list (M unit)) :
  Forall (keeps p) acts -> keeps p (promiseAll acts).
Proof.
  induction 1 as [|a acts Ha _ IH]; intros w; simpl; [done|].
  specialize (Ha w). destruct (a w) as [r w1].
  specialize (IH w1). destruct (promiseAll acts w1) as [r' w2]. simpl in *. congruence.
Qed.

Lemma keeps_external (env : Env) (s : Step) : keeps p (external env s).
Proof. intros w. unfold external. by destruct (fault env s). Qed.

Lemma keeps_forBatches fuel limit files (save : File -> M unit) i :
  (forall f, keeps p (save f)) -> keeps p (forBatches fuel limit files save i).
Proof.
  intros Hs. revert i. induction fuel as [|fuel IH]; intros i; simpl; [apply keeps_ret|].
  destruct (_ <? _)%nat; [|apply keeps_ret].
  apply keeps_bind; [|intros _; apply IH].
  apply keeps_promiseAll, Forall_map, Forall_forall. intros f _. apply Hs.
Qed.

End Frames.

Section FramedRuns.
Import JS Data Effects Environment NodeSync Routes SyncSpec FrameSpec.
Context {B : Type} (p : World -> B).
Variable env : Env.

(** The parts of the world that the steps of an import may change. *)
Hypothesis p_log : forall e w, p (log e w) = p w.
Hypothesis p_locks : forall f w, p (set_locks f w) = p w.
Hypothesis p_db : forall f w, p (set_db f w) = p w.
Hypothesis p_tx : forall t w, p (set_tx t w) = p w.
Hypothesis p_disk : forall f w, p (set_disk f w) = p w.

Ltac framed :=
  repeat first
    [ apply keeps_ret | apply keeps_throw | apply keeps_get | apply keeps_external
    | apply keeps_bind | apply keeps_try_catch | apply keeps_try_finally
    | apply keeps_modify; intros; rewrite ?p_locks, ?p_db, ?p_tx, ?p_disk, ?p_log; done
    | progress intros ].

Lemma keeps_getLock key : keeps p (getLock key).
Proof. done. Qed.

Lemma keeps_setLock key : keeps p (setLock key).
Proof. unfold setLock. framed. Qed.

Lemma keeps_removeLock key : keeps p (removeLock key).
Proof. unfold removeLock. framed. Qed.

Lemma keeps_transaction s : keeps p (transaction env s).
Proof. unfold transaction. framed. Qed.

Lemma keeps_commit s : keeps p (commit env s).
Proof.
  unfold commit. framed. apply keeps_modify. intros w.
  destruct (tx w); [|done]. by rewrite p_tx, p_db.
Qed.

Lemma keeps_rollback : keeps p rollback.
Proof. unfold rollback. framed. Qed.

Lemma keeps_write s e f : keeps p (write env s e f).
Proof.
  unfold write. framed. apply keeps_modify. intros w.
  destruct (tx w); [by rewrite p_tx|by rewrite p_db].
Qed.

Lemma keeps_findOneCNodeUser k : keeps p (findOneCNodeUser env k).
Proof. unfold findOneCNodeUser. framed. Qed.

Lemma keeps_saveFileForMultihash i mh sp gs fn :
  keeps p (saveFileForMultihash env i mh sp gs fn).
Proof. unfold saveFileForMultihash. framed. Qed.

Lemma keeps_acquireLocks ws key : keeps p (acquireLocks ws key).
Proof.
  revert key. induction ws as [|wallet ws IH]; intros key; simpl; [apply keeps_ret|].
  apply keeps_bind; [apply keeps_getLock|]. intros [|]; [apply keeps_throw|].
  apply keeps_bind; [apply keeps_setLock|]. intros _. apply IH.
Qed.

Lemma keeps_connectPeers own targets : keeps p (connectPeers env own targets).
Proof.
  induction targets as [|t targets IH]; simpl; [apply keeps_ret|].
  destruct (_ || _); [done|]. case_bool_decide; [done|].
  framed. exact IH.
Qed.

Lemma keeps_fetchExport ws ep : keeps p (fetchExport env ws ep).
Proof.
  unfold fetchExport. apply keeps_bind; [apply keeps_findOneCNodeUser|]. intros cnodeUser.
  apply keeps_bind; [framed|]. intros _.
  apply keeps_bind; [framed|]. intros _.
  destruct (negb _); [apply keeps_throw|].
  apply keeps_bind.
  { destruct (data _); [apply keeps_ret|]. destruct (responseText _); framed. }
  intros body. destruct (cnodeUsers body), (ipfsIDObj body) as [idObj|]; try apply keeps_throw.
  destruct (addresses idObj); [|apply keeps_throw].
  apply keeps_bind; [|framed]. unfold _initBootstrapAndRefreshPeers.
  apply keeps_bind; [framed|]. intros _.
  destruct (addresses (ipfsId env)); [apply keeps_connectPeers|apply keeps_throw].
Qed.

Lemma keeps_saveTrackFile i rs f : keeps p (saveTrackFile env i rs f).
Proof. apply keeps_saveFileForMultihash. Qed.

Lemma keeps_saveNonTrackFile i rs f : keeps p (saveNonTrackFile env i rs f).
Proof.
  unfold saveNonTrackFile. destruct (bool_decide _); [|apply keeps_ret].
  destruct (_ && _); apply keeps_saveFileForMultihash.
Qed.

Lemma keeps_writeFetchedCNodeUser key i u k rs :
  keeps p (writeFetchedCNodeUser env key i u k rs).
Proof.
  unfold writeFetchedCNodeUser, saveInBatches.
  apply keeps_bind; [apply keeps_transaction|]. intros _.
  apply keeps_try_catch.
  - repeat first
      [ apply keeps_write | apply keeps_commit | apply keeps_removeLock
      | apply keeps_forBatches; intros; first [apply keeps_saveTrackFile
                                              |apply keeps_saveNonTrackFile]
      | apply keeps_bind; [|intros _] ].
  - intros e. apply keeps_bind; [apply keeps_rollback|]. intros _.
    apply keeps_bind; [apply keeps_removeLock|]. intros _. apply keeps_throw.
Qed.

Lemma keeps_importFetchedCNodeUser L ws key i u :
  keeps p (importFetchedCNodeUser env L ws key i u).
Proof.
  unfold importFetchedCNodeUser.
  destruct (e_walletPublicKey u) as [k|]; [|apply keeps_throw].
  apply keeps_bind.
  { unfold buildUserReplicaSet. framed. }
  intros rs. destruct (negb _); [apply keeps_throw|].
  destruct (_ <? _); [apply keeps_throw|]. destruct (_ =? _); [apply keeps_ret|].
  destruct (_ !! _); [destruct (negb _); [apply keeps_throw|]|];
    apply keeps_writeFetchedCNodeUser.
Qed.

Lemma keeps_importFetchedCNodeUsers L ws key us :
  forall i, keeps p (importFetchedCNodeUsers env L ws key i us).
Proof.
  induction us as [|u us IH]; intros i; simpl; [apply keeps_ret|].
  apply keeps_bind; [apply keeps_importFetchedCNodeUser|]. intros _. apply IH.
Qed.

Lemma keeps_syncBody ws ep key : keeps p (syncBody env ws ep key).
Proof.
  unfold syncBody. apply keeps_bind; [apply keeps_fetchExport|]. intros r.
  apply keeps_importFetchedCNodeUsers.
Qed.

End FramedRuns.

(** ** The lock phase *)
Section LockPhase.
Import JS Data Effects Environment NodeSync Routes SyncSpec FrameSpec.

Lemma getNodeSyncRedisKey_inj (a b : string) :
  getNodeSyncRedisKey a = getNodeSyncRedisKey b -> a = b.
Proof. unfold getNodeSyncRedisKey. apply String.app_inj. Qed.

(** The locks taken before a wallet whose lock cannot be taken stay
    held. *)
Lemma acquireLocks_contended (pre : list string) (wallet : string) (post : list string) :
  forall key w,
    NoDup pre ->
    (forall x, x ∈ pre -> getNodeSyncRedisKey x ∉ locks w) ->
    getNodeSyncRedisKey wallet ∈ locks w \/ wallet ∈ pre ->
    fst (acquireLocks (pre ++ wallet :: post) key w) = Throw (ErrLocked wallet)
    /\ locks (snd (acquireLocks (pre ++ wallet :: post) key w))
       = list_to_set (map getNodeSyncRedisKey pre) ∪ locks w.
Proof.
  induction pre as [|x pre IH]; intros key w Hnd Hfree Hheld; simpl.
  - destruct Hheld as [Hheld|Hin]; [|by apply elem_of_nil in Hin].
    unfold bind, getLock. rewrite (bool_decide_eq_true_2 _ Hheld). simpl.
    split; [done|]. by rewrite (left_id_L ∅ (∪)).
  - inversion Hnd as [|? ? Hx Hnd']; subst.
    assert (Hfx : getNodeSyncRedisKey x ∉ locks w) by (apply Hfree; by left).
    unfold bind at 1 3, getLock. rewrite (bool_decide_eq_false_2 _ Hfx).
    unfold bind at 1 2, setLock, modify.
    match goal with |- context [acquireLocks _ ?k ?w0] =>
      assert (Hfree' : forall y, y ∈ pre -> getNodeSyncRedisKey y ∉ locks w0);
      [|assert (Hheld' : getNodeSyncRedisKey wallet ∈ locks w0 \/ wallet ∈ pre);
        [|destruct (IH k w0 Hnd' Hfree' Hheld') as [Hthrow Hlocks]]]
    end.
    + intros y Hy. simpl. rewrite elem_of_union, elem_of_singleton.
      intros [Heq|Hin].
      * apply getNodeSyncRedisKey_inj in Heq. by subst.
      * eapply Hfree; [by right|done].
    + simpl. rewrite elem_of_union, elem_of_singleton.
      destruct Hheld as [?|[->|?]%elem_of_cons]; auto.
    + split; [exact Hthrow|]. rewrite Hlocks. simpl.
      by rewrite (assoc_L (∪)), (comm_L (∪) (list_to_set _) {[_]}).
Qed.

(** X8: the locks are taken outside the [try] block: when [_nodesync] is
    given several wallets and the lock of one of them is held, or a wallet
    occurs twice, the run throws and the locks it took for the wallets before
    that one stay held; the database and the disk are untouched. *)
Theorem nodesync_leaves_locks_behind (env : Env) (pre : list string) (wallet : string)
    (post : list string) (ep : string) (w : World) :
  NoDup pre ->
  (forall x, x ∈ pre -> getNodeSyncRedisKey x ∉ locks w) ->
  getNodeSyncRedisKey wallet ∈ locks w \/ wallet ∈ pre ->
  fst (_nodesync env (pre ++ wallet :: post) ep w) = Throw (ErrLocked wallet)
  /\ (forall x, x ∈ pre ->
        getNodeSyncRedisKey x ∈ locks (snd (_nodesync env (pre ++ wallet :: post) ep w)))
  /\ locks (snd (_nodesync env (pre ++ wallet :: post) ep w))
     = list_to_set (map getNodeSyncRedisKey pre) ∪ locks w
  /\ db (snd (_nodesync env (pre ++ wallet :: post) ep w)) = db w
  /\ disk (snd (_nodesync env (pre ++ wallet :: post) ep w)) = disk w
  /\ syncQueue (snd (_nodesync env (pre ++ wallet :: post) ep w)) = syncQueue w.
Proof.
  intros Hnd Hfree Hheld.
  destruct (acquireLocks_contended pre wallet post None w Hnd Hfree Hheld)
    as [Hthrow Hlocks].
  pose proof (acquireLocks_quiet (pre ++ wallet :: post) None w) as (Hdb & _ & Hdisk & _).
  pose proof (keeps_acquireLocks syncQueue
                ltac:(done) ltac:(done) (pre ++ wallet :: post) None w) as Hq.
  rewrite nodesync_unfold.
  destruct (acquireLocks (pre ++ wallet :: post) None w) as [[key|e] w1];
    cbn [fst snd] in *; [discriminate|].
  injection Hthrow as ->. repeat split; try done.
  intros x Hx. rewrite Hlocks, elem_of_union, elem_of_list_to_set. left.
  apply list_elem_of_fmap. by exists x.
Qed.

(** Two wallets, the second of which is the first again. *)
Lemma nodesync_leaves_locks_behind_witness :
  fst (_nodesync Examples.quietEnv (["0xabc"] ++ "0xabc" :: []) "https://primary"
         Examples.secondaryWorld) = Throw (ErrLocked "0xabc")
  /\ (forall x, x ∈ ["0xabc"] ->
        getNodeSyncRedisKey x
        ∈ locks (snd (_nodesync Examples.quietEnv (["0xabc"] ++ "0xabc" :: [])
                        "https://primary" Examples.secondaryWorld))).
Proof.
  destruct (nodesync_leaves_locks_behind Examples.quietEnv ["0xabc"] "0xabc" []
              "https://primary" Examples.secondaryWorld) as (H1 & H2 & _).
  - apply NoDup_singleton.
  - intros x Hx. simpl. apply not_elem_of_empty.
  - right. apply list_elem_of_singleton. reflexivity.
  - split; [exact H1|exact H2].
Defined.

End LockPhase.

(** ** Runs without an export *)
Section FetchPhase.
Import JS Data Effects Environment NodeSync Routes SyncSpec FrameSpec.

(** X9: an import that took the locks but got no acceptable export (the
    request failed or was answered with another status than 200, the body
    lacked a field, or a peer named in it could not be connected) returns the
    error and does nothing: the database, the disk and the log of database
    operations and blob fetches are as before, no transaction is open and the
    locks are released. *)
Theorem import_without_export (env : Env) (ws : list string) (ep : string)
    (w w1 : World) (key : option string) :
  acquireLocks ws None w = (Ok key, w1) ->
  fetched env ws ep w = None ->
  (exists e, fst (_nodesync env ws ep w) = Ok (Some e)
             /\ fst (fetchExport env ws ep w1) = Throw e)
  /\ db (snd (_nodesync env ws ep w)) = db w
  /\ tx (snd (_nodesync env ws ep w)) = tx w
  /\ disk (snd (_nodesync env ws ep w)) = disk w
  /\ ioLog (snd (_nodesync env ws ep w)) = ioLog w
  /\ (forall wallet, wallet ∈ ws ->
        getNodeSyncRedisKey wallet ∉ locks (snd (_nodesync env ws ep w))).
Proof.
  intros Hacq Hf. unfold fetched in Hf. rewrite Hacq in Hf.
  rewrite nodesync_unfold, Hacq, syncBody_unfold. cbv zeta.
  pose proof (acquireLocks_quiet ws None w) as Hq1. rewrite Hacq in Hq1. cbn [snd] in Hq1.
  pose proof (fetchExport_quiet env ws ep w1) as Hq2.
  destruct (fetchExport env ws ep w1) as [[r|e] w2]; [discriminate|]. cbn [fst snd] in *.
  destruct (releaseLocks_spec ws w2) as (_ & Hq3 & Hrel & _).
  assert (Hq : quiet w (snd (releaseLocks ws w2))).
  { eapply quiet_trans; [exact Hq1|]. by eapply quiet_trans. }
  split; [by exists e|].
  pose proof Hq as (Hdb & Htx & Hdisk & _).
  repeat split; try done.
  by apply quiet_ioLog.
Qed.

(** The primary answers without the fields of an export. *)
Lemma import_without_export_witness :
  (exists e,
      fst (_nodesync Examples.quietEnv ["0xabc"] "https://primary" Examples.secondaryWorld)
      = Ok (Some e)
      /\ fst (fetchExport Examples.quietEnv ["0xabc"] "https://primary"
                (snd (acquireLocks ["0xabc"] None Examples.secondaryWorld))) = Throw e)
  /\ db (snd (_nodesync Examples.quietEnv ["0xabc"] "https://primary"
                Examples.secondaryWorld)) = db Examples.secondaryWorld.
Proof.
  destruct (import_without_export Examples.quietEnv ["0xabc"] "https://primary"
              Examples.secondaryWorld
              (snd (acquireLocks ["0xabc"] None Examples.secondaryWorld))
              (Some "nodeSync:0xabc")) as (He & Hdb & _).
  - vm_compute. reflexivity.
  - vm_compute. reflexivity.
  - split; [exact He|exact Hdb].
Defined.

End FetchPhase.

(** ** Peers and gateways *)
Section Peers.
Import JS Data Effects Environment NodeSync Routes SyncSpec FrameSpec PeerSpec.
Variable env : Env.

(** When no call for an eligible peer fails, every eligible peer is added
    and connected, in order. *)
Lemma connectPeers_all (own targets : list string) :
  forall w,
    (forall a, a ∈ List.filter (eligiblePeer own) targets ->
               fault env (StBootstrapAdd a) = false
               /\ fault env (StSwarmConnect a) = false) ->
    fst (connectPeers env own targets w) = Ok tt
    /\ trace (snd (connectPeers env own targets w))
       = trace w ++ peerEvents (List.filter (eligiblePeer own) targets).
Proof.
  induction targets as [|t targets IH]; intros w Hall.
  - simpl. by rewrite app_nil_r.
  - revert Hall. cbn [connectPeers List.filter].
    destruct (includes "ip6" t || includes "127.0.0.1" t) eqn:Hinc.
    { assert (He : eligiblePeer own t = false) by (unfold eligiblePeer; by rewrite Hinc).
      rewrite He. apply IH. }
    case_bool_decide as Hown.
    { assert (He : eligiblePeer own t = false).
      { unfold eligiblePeer. by rewrite Hinc, (bool_decide_eq_true_2 _ Hown). }
      rewrite He. apply IH. }
    assert (He : eligiblePeer own t = true).
    { unfold eligiblePeer. by rewrite Hinc, (bool_decide_eq_false_2 _ Hown). }
    rewrite He. intros Hall.
    destruct (Hall t ltac:(by left)) as [Hadd Hconnect].
    cbn [peerEvents flat_map app].
    fold (peerEvents (List.filter (eligiblePeer own) targets)).
    unfold bind, modify, external. cbn [fst snd]. rewrite Hadd. cbn [fst snd].
    rewrite Hconnect. cbn [fst snd].
    match goal with |- context [connectPeers env own targets ?w0] =>
      destruct (IH w0) as [Hok Htr] end.
    { intros a Ha. apply Hall. by right. }
    rewrite Htr. split; [done|]. simpl. by rewrite <- !app_assoc.
Qed.

(** When a call for an eligible peer fails, the peers before it were added
    and connected, the failing call was started, and nothing follows. *)
Lemma connectPeers_fails (own targets before : list string) (a : string)
    (after : list string) :
  forall w,
    List.filter (eligiblePeer own) targets = before ++ a :: after ->
    (forall b, b ∈ before ->
               fault env (StBootstrapAdd b) = false
               /\ fault env (StSwarmConnect b) = false) ->
    fault env (StBootstrapAdd a) = true \/ fault env (StSwarmConnect a) = true ->
    fst (connectPeers env own targets w)
    = Throw (ErrExternal (if fault env (StBootstrapAdd a) then StBootstrapAdd a
                          else StSwarmConnect a))
    /\ trace (snd (connectPeers env own targets w))
       = trace w ++ peerEvents before
         ++ (if fault env (StBootstrapAdd a) then [EvBootstrapAdd a]
             else [EvBootstrapAdd a; EvSwarmConnect a]).
Proof.
  revert before. induction targets as [|t targets IH]; intros before w Heq Hbefore Hfail.
  - simpl in Heq. by destruct before.
  - revert Heq. cbn [connectPeers List.filter].
    destruct (includes "ip6" t || includes "127.0.0.1" t) eqn:Hinc.
    { assert (He : eligiblePeer own t = false) by (unfold eligiblePeer; by rewrite Hinc).
      rewrite He. intros Heq. by apply IH. }
    case_bool_decide as Hown.
    { assert (He : eligiblePeer own t = false).
      { unfold eligiblePeer. by rewrite Hinc, (bool_decide_eq_true_2 _ Hown). }
      rewrite He. intros Heq. by apply IH. }
    assert (He : eligiblePeer own t = true).
    { unfold eligiblePeer. by rewrite Hinc, (bool_decide_eq_false_2 _ Hown). }
    rewrite He. intros Heq.
    unfold bind, modify, external. cbn [fst snd].
    destruct before as [|b before]; simpl in Heq; injection Heq as -> Heq.
    + cbn [peerEvents flat_map app].
      destruct (fault env (StBootstrapAdd a)) eqn:Hadd; cbn [fst snd]; [done|].
      destruct Hfail as [?|Hconnect]; [done|]. rewrite Hconnect. cbn [fst snd].
      split; [done|]. simpl. by rewrite <- !app_assoc.
    + destruct (Hbefore b ltac:(by left)) as [Hadd Hconnect].
      rewrite Hadd. cbn [fst snd]. rewrite Hconnect. cbn [fst snd].
      match goal with |- context [connectPeers env own targets ?w0] =>
        destruct (IH before w0 Heq) as [Hthrow Htr] end; [|done|].
      { intros b' Hb'. apply Hbefore. by right. }
      rewrite Hthrow, Htr. split; [done|]. simpl. by rewrite <- !app_assoc.
Qed.

(** X10: [_initBootstrapAndRefreshPeers] contacts the peers named in the
    export that are neither IPv6 nor loopback addresses nor addresses of the
    node itself, and no other.  When its own addresses cannot be read it
    throws before contacting anyone.  Otherwise it adds each such peer to the
    bootstrap list and then connects to it, in the order of the export: when
    none of these calls fails it returns after all of them; when one fails
    it throws the error of the first failing call, having contacted the
    peers before that one and started the failing call, and contacts no peer
    after it.  It touches neither the database nor the disk. *)
Theorem peers_contacted (targetIPFSPeerAddresses : list string) (w : World) :
  (fault env StIpfsId = true ->
   _initBootstrapAndRefreshPeers env targetIPFSPeerAddresses w
   = (Throw (ErrExternal StIpfsId), w))
  /\ (fault env StIpfsId = false -> addresses (ipfsId env) = None ->
      _initBootstrapAndRefreshPeers env targetIPFSPeerAddresses w = (Throw ErrNoAddresses, w))
  /\ (forall own,
        fault env StIpfsId = false -> addresses (ipfsId env) = Some own ->
        ((forall a, a ∈ List.filter (eligiblePeer own) targetIPFSPeerAddresses ->
                    fault env (StBootstrapAdd a) = false
                    /\ fault env (StSwarmConnect a) = false) ->
         fst (_initBootstrapAndRefreshPeers env targetIPFSPeerAddresses w) = Ok tt
         /\ trace (snd (_initBootstrapAndRefreshPeers env targetIPFSPeerAddresses w))
            = trace w
              ++ peerEvents (List.filter (eligiblePeer own) targetIPFSPeerAddresses))
        /\ (forall before a after,
              List.filter (eligiblePeer own) targetIPFSPeerAddresses
              = before ++ a :: after ->
              (forall b, b ∈ before ->
                         fault env (StBootstrapAdd b) = false
                         /\ fault env (StSwarmConnect b) = false) ->
              fault env (StBootstrapAdd a) = true \/ fault env (StSwarmConnect a) = true ->
              fst (_initBootstrapAndRefreshPeers env targetIPFSPeerAddresses w)
              = Throw (ErrExternal (if fault env (StBootstrapAdd a) then StBootstrapAdd a
                                    else StSwarmConnect a))
              /\ trace (snd (_initBootstrapAndRefreshPeers env targetIPFSPeerAddresses w))
                 = trace w ++ peerEvents before
                   ++ (if fault env (StBootstrapAdd a) then [EvBootstrapAdd a]
                       else [EvBootstrapAdd a; EvSwarmConnect a])))
  /\ db (snd (_initBootstrapAndRefreshPeers env targetIPFSPeerAddresses w)) = db w
  /\ disk (snd (_initBootstrapAndRefreshPeers env targetIPFSPeerAddresses w)) = disk w.
Proof.
  unfold _initBootstrapAndRefreshPeers, bind, external, throw.
  destruct (fault env StIpfsId); cbn [fst snd].
  { split; [done|]. split; [done|]. split; [|done]. intros own Hf. discriminate. }
  split; [done|].
  destruct (addresses (ipfsId env)) as [own|]; cbn [fst snd].
  - destruct (connectPeers_quiet env own targetIPFSPeerAddresses w) as (Hdb & _ & Hdisk & _).
    split; [done|]. split; [|done].
    intros own' _ [= <-]. split.
    + apply connectPeers_all.
    + intros before a after. apply connectPeers_fails.
  - split; [done|]. split; [|done]. intros own _ Hown. discriminate.
Qed.

Lemma uniq_elem (seen l : list string) (x : string) :
  x ∈ uniq seen l <-> x ∈ l /\ x ∉ seen.
Proof.
  revert seen. induction l as [|y l IH]; intros seen; simpl.
  - split; [intros H; by apply elem_of_nil in H|intros [H _]; by apply elem_of_nil in H].
  - case_bool_decide as Hy.
    + rewrite IH, elem_of_cons. split; [tauto|].
      intros [[->|?] ?]; [done|tauto].
    + rewrite !elem_of_cons, IH, elem_of_cons.
      split.
      * intros [->|[? ?]]; [tauto|]. split; [tauto|]. tauto.
      * intros [[->|?] ?]; [tauto|]. destruct (decide (x = y)); [tauto|]. right. tauto.
Qed.

Lemma uniq_NoDup (seen l : list string) : NoDup (uniq seen l).
Proof.
  revert seen. induction l as [|y l IH]; intros seen; simpl; [constructor|].
  case_bool_decide; [apply IH|].
  constructor; [|apply IH]. rewrite uniq_elem, elem_of_cons. tauto.
Qed.

(** X11: the gateways handed to the blob fetches of a fetched user are
    computed without ever failing the import: they are the endpoints of the
    user's replica set together with the user-metadata node when one is
    configured, without the node itself and without repetition; they are
    empty when the own endpoint or the replica set cannot be read. *)
Theorem gateways_of_import (i : nat) (fetchedWalletPublicKey : string) (w : World) :
  exists userReplicaSet,
    buildUserReplicaSet env i fetchedWalletPublicKey w = (Ok userReplicaSet, w)
    /\ NoDup userReplicaSet
    /\ (ownEndpoint env ∉ userReplicaSet)
    /\ (forall url, url ∈ userReplicaSet ->
          url ∈ creatorNodeEndpoints env fetchedWalletPublicKey
          \/ (userMetadataNodeUrl env = Some url /\ url <> EmptyString))
    /\ (fault env (StGetOwnEndpoint i) = false ->
        fault env (StGetCreatorNodeEndpoints i) = false ->
        forall url,
          url <> ownEndpoint env ->
          url ∈ creatorNodeEndpoints env fetchedWalletPublicKey
          \/ (userMetadataNodeUrl env = Some url /\ url <> EmptyString) ->
          url ∈ userReplicaSet)
    /\ ((fault env (StGetOwnEndpoint i) = true
         \/ fault env (StGetCreatorNodeEndpoints i) = true) ->
        userReplicaSet = []).
Proof.
  exists (userReplicaSetOf env i fetchedWalletPublicKey).
  split; [apply buildUserReplicaSet_run|].
  unfold userReplicaSetOf.
  destruct (fault env (StGetOwnEndpoint i)), (fault env (StGetCreatorNodeEndpoints i));
    simpl.
  1-3: split; [constructor|]; split; [apply not_elem_of_nil|];
       split; [intros ? H; by apply elem_of_nil in H|]; split; [done|done].
  split; [apply uniq_NoDup|].
  assert (Hall : forall url,
    url ∈ match userMetadataNodeUrl env with
          | Some url' => if truthy (Some url')
                         then creatorNodeEndpoints env fetchedWalletPublicKey ++ [url']
                         else creatorNodeEndpoints env fetchedWalletPublicKey
          | None => creatorNodeEndpoints env fetchedWalletPublicKey
          end
    <-> url ∈ creatorNodeEndpoints env fetchedWalletPublicKey
        \/ (userMetadataNodeUrl env = Some url /\ url <> EmptyString)).
  { intros url. destruct (userMetadataNodeUrl env) as [[|c s]|]; simpl.
    - split; [by left|]. intros [?|[Heq ?]]; [done|]. injection Heq as <-. done.
    - rewrite elem_of_app, list_elem_of_singleton. split.
      + intros [?| ->]; [by left|by right].
      + intros [?|[Heq _]]; [by left|]. injection Heq as <-. by right.
    - split; [by left|]. intros [?|[? _]]; done. }
  split; [|split; [|split]].
  - rewrite uniq_elem, list_elem_of_filter. tauto.
  - intros url. rewrite uniq_elem, list_elem_of_filter, Hall. tauto.
  - intros _ _ url Hne Hin. rewrite uniq_elem, list_elem_of_filter, Hall.
    split; [done|apply not_elem_of_nil].
  - intros [?|?]; discriminate.
Qed.

End Peers.

Section PeerWitnesses.
Import JS Data Effects Environment NodeSync Routes PeerSpec Examples PeerExamples.

(** The connection to the second eligible peer fails: the third one is not
    contacted. *)
Lemma peers_contacted_witness :
  fst (_initBootstrapAndRefreshPeers (envWith connectFails nextUser) exportedPeers
         (idleWorld emptyDB))
  = Throw (ErrExternal (StSwarmConnect "/ip4/10.0.0.2/tcp/4001"))
  /\ trace (snd (_initBootstrapAndRefreshPeers (envWith connectFails nextUser) exportedPeers
                   (idleWorld emptyDB)))
     = [EvBootstrapAdd "/ip4/10.0.0.1/tcp/4001"; EvSwarmConnect "/ip4/10.0.0.1/tcp/4001";
        EvBootstrapAdd "/ip4/10.0.0.2/tcp/4001"; EvSwarmConnect "/ip4/10.0.0.2/tcp/4001"].
Proof.
  apply (proj2 (proj1 (proj2 (proj2 (peers_contacted (envWith connectFails nextUser)
                                       exportedPeers (idleWorld emptyDB))))
                  [] eq_refl eq_refl)
           ["/ip4/10.0.0.1/tcp/4001"] "/ip4/10.0.0.2/tcp/4001" ["/ip4/10.0.0.3/tcp/4001"]).
  - vm_compute. reflexivity.
  - intros b Hb. apply list_elem_of_singleton in Hb. subst b. split; reflexivity.
  - right. reflexivity.
Defined.

End PeerWitnesses.

(** ** Exports of several users *)
Section ManyUsers.
Import JS Data Effects Environment NodeSync Routes SyncSpec FrameSpec PeerSpec.
Variable env : Env.

(** One iteration that does not throw: the user passed the checks, and was
    written exactly when it is ahead of the local clock. *)
Lemma importFetchedCNodeUser_ok L ws key i u w w' :
  importFetchedCNodeUser env L ws key i u w = (Ok tt, w') ->
  accepted ws L u
  /\ db w' = (if bool_decide (L < e_clock u)
              then applyFetched env u (walletOf u) (db w) else db w).
Proof.
  rewrite importFetchedCNodeUser_unfold. unfold accepted, walletOf.
  destruct (e_walletPublicKey u) as [k|]; [|discriminate]. simpl.
  case_bool_decide as Hk; simpl; [|discriminate].
  destruct (Z.ltb_spec (e_clock u) L); [discriminate|].
  destruct (Z.eqb_spec (e_clock u) L) as [Heq|Hne].
  { intros [= <-]. split.
    - exists k. split; [done|]. split; [done|]. split; [lia|]. intros; lia.
    - rewrite bool_decide_false; [done|lia]. }
  rewrite bool_decide_true by lia.
  assert (Hw : writeFetchedCNodeUser env key i u k (userReplicaSetOf env i k) w = (Ok tt, w')
               -> db w' = applyFetched env u k (db w)).
  { intros Hrun.
    destruct (writeFetched_cases env key i u k (userReplicaSetOf env i k) w)
      as [(_ & Hdb & _)|(e & He & _)]; rewrite Hrun in *; [done|discriminate]. }
  destruct (e_clockRecords u !! 0%nat) as [first|] eqn:Hfirst.
  - destruct (Z.eqb_spec (cr_clock first) (L + 1)); simpl; [|discriminate].
    intros Hrun. split; [|by apply Hw].
    exists k. split; [done|]. split; [done|]. split; [lia|]. intros _ first' [= <-]. done.
  - intros Hrun. split; [|by apply Hw].
    exists k. split; [done|]. split; [done|]. split; [lia|]. intros _ first' [=].
Qed.

Lemma importFetchedCNodeUsers_ok L ws key us :
  forall i w w',
    importFetchedCNodeUsers env L ws key i us w = (Ok tt, w') ->
    Forall (accepted ws L) us
    /\ db w' = applyAll env (filter (fun u => L < e_clock u) us) (db w).
Proof.
  induction us as [|u us IH]; intros i w w'; simpl.
  - intros [= <-]. split; [constructor|done].
  - unfold bind.
    destruct (importFetchedCNodeUser env L ws key i u w) as [[[]|e] w1] eqn:Hu;
      [|discriminate].
    intros Hrest. apply importFetchedCNodeUser_ok in Hu as [Hacc Hdb1].
    apply IH in Hrest as [Hall Hdb2].
    split; [by constructor|].
    rewrite Hdb2, Hdb1, filter_cons. unfold applyAll.
    case_bool_decide; case_decide; try done.
Qed.

(** What an iteration returns or throws depends neither on the world nor
    on the key of the lock. *)
Lemma sameOutcome_ret {A} (a : A) : sameOutcome (ret a) (ret a).
Proof. done. Qed.

Lemma sameOutcome_throw {A} (e : Err) : sameOutcome (@throw A e) (throw e).
Proof. done. Qed.













End ManyUsers.

Section ManyUsersClaims.
Import JS Data Effects Environment NodeSync Routes SyncSpec FrameSpec PeerSpec Examples.
Import TwoUserExamples.

(** A run that returns no error, whatever the number of fetched users: the
    loop over the fetched users returned, on a world with the database of
    the start, and left the database of the end. *)
Lemma nodesync_ok_run (env : Env) (ws : list string) (ep : string) (w : World)
    (L : Z) (us : list ExportedCNodeUser) :
  fetched env ws ep w = Some (L, us) ->
  fst (_nodesync env ws ep w) = Ok None ->
  exists key w2 w3,
    db w2 = db w
    /\ importFetchedCNodeUsers env L ws key 0 us w2 = (Ok tt, w3)
    /\ db (snd (_nodesync env ws ep w)) = db w3.
Proof.
  unfold fetched. intros Hf. rewrite nodesync_unfold.
  pose proof (acquireLocks_quiet ws None w) as (Hdb1 & _).
  destruct (acquireLocks ws None w) as [[key|e] w1]; [|discriminate].
  rewrite syncBody_unfold.
  pose proof (fetchExport_quiet env ws ep w1) as (Hdb2 & _).
  destruct (fetchExport env ws ep w1) as [[r|e] w2]; [|discriminate].
  injection Hf as ->. cbn [fst snd] in *.
  destruct (importFetchedCNodeUsers env L ws key 0 us w2) as [[[]|e] w3] eqn:Hrun;
    cbn [fst snd]; [|discriminate].
  intros _. exists key, w2, w3. split; [congruence|]. split; [done|].
  by destruct (releaseLocks_spec ws w3) as (_ & (Hdb4 & _) & _).
Qed.

(** X12: an import that returns no error has accepted every user of the
    export (each carries a requested wallet, is not behind the local clock
    and, when ahead of it, starts at the next clock value if it has records),
    and the database then holds the writes of exactly the users that are
    ahead of the local clock, in the order of the export. *)
Theorem import_commits_all_users (env : Env) (ws : list string) (ep : string) (w : World)
    (L : Z) (us : list ExportedCNodeUser) :
  fetched env ws ep w = Some (L, us) ->
  fst (_nodesync env ws ep w) = Ok None ->
  Forall (accepted ws L) us
  /\ db (snd (_nodesync env ws ep w))
     = applyAll env (filter (fun u => L < e_clock u) us) (db w).
Proof.
  intros Hf Hok.
  destruct (nodesync_ok_run env ws ep w L us Hf Hok) as (key & w2 & w3 & Hdb2 & Hrun & Hdb).
  apply importFetchedCNodeUsers_ok in Hrun as [Hall Hdb3].
  split; [exact Hall|]. rewrite Hdb, Hdb3. by rewrite Hdb2.
Qed.

(** The import of clocks 3 and 4 into a secondary at clock 2. *)
Lemma import_commits_all_users_witness :
  Forall (accepted ["0xabc"] 2) [nextUser]
  /\ db (snd (_nodesync (envWith noFault nextUser) ["0xabc"] "https://primary"
                secondaryWorld))
     = applyAll (envWith noFault nextUser)
         (filter (fun u => 2 < e_clock u) [nextUser]) secondaryDB.
Proof.
  apply (import_commits_all_users (envWith noFault nextUser) ["0xabc"] "https://primary"
           secondaryWorld 2 [nextUser]).
  - vm_compute. reflexivity.
  - vm_compute. reflexivity.
Defined.




End ManyUsersClaims.

(** ** The local clock after an import *)
Section AfterImport.
Import JS Data Effects Environment NodeSync Routes SyncSpec FrameSpec PeerSpec.
Import SyncStatusRoute.
Variable env : Env.

Lemma fetched_locks ws ep w r :
  fetched env ws ep w = Some r ->
  exists key w1, acquireLocks ws None w = (Ok key, w1).
Proof.
  unfold fetched. destruct (acquireLocks ws None w) as [[key|e] w1]; [|discriminate].
  intros _. by exists key, w1.
Qed.

Lemma nodesync_released ws ep w key w1 :
  acquireLocks ws None w = (Ok key, w1) ->
  forall wallet, wallet ∈ ws ->
    getNodeSyncRedisKey wallet ∉ locks (snd (_nodesync env ws ep w)).
Proof.
  intros Hacq. rewrite nodesync_unfold, Hacq. cbv zeta. cbn [snd].
  apply releaseLocks_spec.
Qed.

(** The row found for a wallet after the upsert of a row of that wallet,
    when the wallet is stored under no other UUID. *)
Lemma upsert_findOne (row : CNodeUser) (rows : list CNodeUser) :
  (forall r, r ∈ rows -> walletPublicKey r = walletPublicKey row ->
             cnodeUserUUID r = cnodeUserUUID row) ->
  head (filter (fun u => walletPublicKey u = walletPublicKey row) (upsertRow row rows))
  = Some row.
Proof.
  induction rows as [|r rows IH]; intros Huniq; simpl.
  - by rewrite filter_cons, decide_True.
  - case_bool_decide as Hid.
    + by rewrite filter_cons, decide_True.
    + rewrite filter_cons, decide_False.
      * apply IH. intros r' Hr'. apply Huniq. by right.
      * intros Hw. apply Hid, Huniq; [by left|done].
Qed.

End AfterImport.

Section AfterImportClaims.
Import JS Data Effects Environment NodeSync Routes SyncSpec FrameSpec PeerSpec Examples.
Import SyncStatusRoute.

(** The row found for the wallet after an import that returned no error:
    the row of the export. *)
Lemma row_after_import (env : Env) (wallet : string) (ep : string) (w : World)
    (L : Z) (u : ExportedCNodeUser) :
  fetched env [wallet] ep w = Some (L, [u]) ->
  e_walletPublicKey u = Some wallet ->
  L < e_clock u ->
  fst (_nodesync env [wallet] ep w) = Ok None ->
  (forall row, row ∈ CNodeUsers (db w) -> walletPublicKey row = wallet ->
               cnodeUserUUID row = e_cnodeUserUUID u) ->
  head (filter (fun r => walletPublicKey r = wallet)
          (CNodeUsers (db (snd (_nodesync env [wallet] ep w)))))
  = Some (rowOf u wallet).
Proof.
  intros Hf Hk HL Hok Huniq.
  destruct (nodesync_single_success env [wallet] ep w L u wallet Hf Hk HL Hok)
    as (key & w2 & w3 & (Hdb2 & _) & (Hdb3 & _) & Happ & _).
  assert (Hdb : db (snd (_nodesync env [wallet] ep w)) = applyFetched env u wallet (db w))
    by congruence.
  rewrite Hdb. simpl.
  apply (upsert_findOne (rowOf u wallet) (CNodeUsers (db w))). exact Huniq.
Qed.

(** X13: after a successful import of a fetched user that was ahead, the
    local clock of the wallet is the clock of the export, so that the next
    import asks for the records that follow.  A [/sync_status] request for
    the wallet that is served afterwards, with failures of its own, does not
    answer 423: it reports that clock and the block number of the export,
    unless its own lookup of the wallet fails, whose error it then throws.
    This holds when the wallet is stored under no other UUID than the
    one of the export. *)
Theorem import_advances_clock (env later : Env) (wallet : string) (ep : string) (w : World)
    (L : Z) (u : ExportedCNodeUser) :
  fetched env [wallet] ep w = Some (L, [u]) ->
  e_walletPublicKey u = Some wallet ->
  L < e_clock u ->
  fst (_nodesync env [wallet] ep w) = Ok None ->
  (forall row, row ∈ CNodeUsers (db w) -> walletPublicKey row = wallet ->
               cnodeUserUUID row = e_cnodeUserUUID u) ->
  localMaxClockValOf [wallet] (db (snd (_nodesync env [wallet] ep w))) = e_clock u
  /\ sync_status later wallet (snd (_nodesync env [wallet] ep w))
     = (if fault later StFindOneCNodeUser
        then Throw (ErrExternal StFindOneCNodeUser)
        else Ok (successSyncStatus wallet (e_latestBlockNumber u) (e_clock u)),
        snd (_nodesync env [wallet] ep w)).
Proof.
  intros Hf Hk HL Hok Huniq.
  pose proof (row_after_import env wallet ep w L u Hf Hk HL Hok Huniq) as Hrow.
  split.
  - unfold localMaxClockValOf. simpl. by rewrite Hrow.
  - destruct (fetched_locks env _ _ _ _ Hf) as (key' & w1 & Hacq).
    pose proof (nodesync_released env _ ep _ _ _ Hacq wallet
                  ltac:(by apply list_elem_of_singleton)) as Hfree.
    set (wf := snd (_nodesync env [wallet] ep w)) in *.
    unfold sync_status, getLock, findOneCNodeUser, external, get, ret, bind.
    rewrite (bool_decide_eq_false_2 _ Hfree).
    destruct (fault later StFindOneCNodeUser); cbn [fst snd]; [done|]. by rewrite Hrow.
Qed.

(** The secondary at clock 2 imports the clocks 3 and 4. *)
Lemma import_advances_clock_witness :
  localMaxClockValOf ["0xabc"]
    (db (snd (_nodesync (envWith noFault nextUser) ["0xabc"] "https://primary"
                secondaryWorld))) = 4
  /\ sync_status (envWith noFault nextUser) "0xabc"
       (snd (_nodesync (envWith noFault nextUser) ["0xabc"] "https://primary"
               secondaryWorld))
     = (Ok (successSyncStatus "0xabc" 120 4),
        snd (_nodesync (envWith noFault nextUser) ["0xabc"] "https://primary"
               secondaryWorld)).
Proof.
  apply (import_advances_clock (envWith noFault nextUser) (envWith noFault nextUser)
           "0xabc" "https://primary" secondaryWorld 2 nextUser).
  - vm_compute. reflexivity.
  - reflexivity.
  - simpl. lia.
  - vm_compute. reflexivity.
  - intros row Hrow _. apply list_elem_of_singleton in Hrow. subst row. reflexivity.
Defined.

End AfterImportClaims.

(** ** The blobs on disk after an import *)
Section Blobs.
Import JS Data Effects Environment NodeSync Routes SyncSpec FrameSpec PeerSpec.
Variable env : Env.

Lemma bind_ok_inv {A C} (c : M A) (k : A -> M C) w (b : C) w' :
  bind c k w = (Ok b, w') ->
  exists a w1, c w = (Ok a, w1) /\ k a w1 = (Ok b, w').
Proof.
  unfold bind. destruct (c w) as [[a|e] w1]; [|discriminate].
  intros Hk. by exists a, w1.
Qed.

Lemma try_catch_ok_inv {A} (c : M A) (h : Err -> M A) w (a : A) w' :
  (forall e w0, exists e' w0', h e w0 = (Throw e', w0')) ->
  try_catch c h w = (Ok a, w') ->
  c w = (Ok a, w').
Proof.
  intros Hh. unfold try_catch. destruct (c w) as [[a0|e] w1]; [done|].
  destruct (Hh e w1) as (e' & w0' & ->). discriminate.
Qed.

Lemma keeps_run {A C} (p : World -> C) (c : M A) w r w' :
  keeps p c -> c w = (r, w') -> p w' = p w.
Proof. intros Hc Hrun. specialize (Hc w). by rewrite Hrun in Hc. Qed.

Lemma promiseAll_disk save P (files : list File) :
  stores_ok save P ->
  forall w w',
    promiseAll (map save files) w = (Ok tt, w') ->
    forall x, x ∈ disk w' <-> x ∈ disk w \/ exists f, f ∈ files /\ P f x.
Proof.
  intros Hs. induction files as [|f files IH]; intros w w'; simpl.
  - intros [= <-] x. split; [by left|]. intros [?|(f & Hf & _)]; [done|].
    by apply elem_of_nil in Hf.
  - destruct (save f w) as [r w1] eqn:E1.
    destruct (promiseAll (map save files) w1) as [r' w2] eqn:E2.
    destruct r as [[]|e]; [|discriminate]. intros [= -> <-] x.
    rewrite (IH _ _ E2 x), (Hs _ _ _ E1 x). split.
    + intros [[?|?]|(f' & ? & ?)]; [by left|right; exists f|right; exists f'];
        (split; [|done]); [by left|by right].
    + intros [?|(f' & [->|?]%elem_of_cons & ?)];
        [by left; left|by left; right|right; by exists f'].
Qed.

Lemma forBatches_disk save P fuel limit files :
  stores_ok save P ->
  (0 < limit)%nat ->
  forall i w w',
    (List.length files - i < fuel)%nat ->
    forBatches fuel limit files save i w = (Ok tt, w') ->
    forall x, x ∈ disk w' <-> x ∈ disk w \/ exists f, f ∈ drop i files /\ P f x.
Proof.
  intros Hs Hl. induction fuel as [|fuel IH]; intros i w w' Hf; [lia|].
  simpl. destruct (Nat.ltb_spec i (List.length files)) as [Hi|Hi].
  - intros Hrun. apply bind_ok_inv in Hrun as ([] & w1 & Hbatch & Hrun).
    assert (Hfuel : (List.length files - (i + limit) < fuel)%nat) by lia.
    pose proof (IH _ _ _ Hfuel Hrun) as Hrest. intros x.
    rewrite (Hrest x), (promiseAll_disk save P _ Hs _ _ Hbatch x).
    assert (Hsplit : drop i files = slice i (i + limit) files ++ drop (i + limit) files).
    { unfold slice. replace (i + limit - i)%nat with limit by lia.
      by rewrite <- drop_drop, take_drop. }
    rewrite Hsplit. split.
    + intros [[?|(f & ? & ?)]|(f & ? & ?)]; [by left|right; exists f..];
        (split; [|done]); apply elem_of_app; [by left|by right].
    + intros [?|(f & [?|?]%elem_of_app & ?)];
        [by left; left|left; right; by exists f|right; by exists f].
  - intros [= <-] x. rewrite drop_ge by lia. split; [by left|].
    intros [?|(f & Hf' & _)]; [done|]. by apply elem_of_nil in Hf'.
Qed.

Lemma saveFileForMultihash_disk i mh sp gs fn w0 w1 :
  saveFileForMultihash env i mh sp gs fn w0 = (Ok tt, w1) ->
  forall x, x ∈ disk w1 <-> x ∈ disk w0 \/ x = sp.
Proof.
  unfold saveFileForMultihash, bind, modify, external. simpl.
  destruct (fault env _); simpl; [discriminate|]. intros [= <-] x. simpl.
  rewrite elem_of_union, elem_of_singleton. tauto.
Qed.

Lemma saveTrackFile_stores i gs :
  stores_ok (saveTrackFile env i gs) (fun f x => x = f_storagePath f).
Proof. intros f w0 w1. apply saveFileForMultihash_disk. Qed.

Lemma saveNonTrackFile_stores i gs :
  stores_ok (saveNonTrackFile env i gs)
            (fun f x => f_type f <> "dir" /\ x = f_storagePath f).
Proof.
  intros f w0 w1. unfold saveNonTrackFile. case_bool_decide as Hdir.
  - assert (Hw : forall fn, saveFileForMultihash env i (f_multihash f) (f_storagePath f)
                              gs fn w0 = (Ok tt, w1) ->
             forall x, x ∈ disk w1 <-> x ∈ disk w0 \/ (f_type f <> "dir" /\ x = f_storagePath f)).
    { intros fn Hrun x. rewrite (saveFileForMultihash_disk _ _ _ _ _ _ _ Hrun x). tauto. }
    destruct (_ && _); apply Hw.
  - intros [= <-] x. tauto.
Qed.

(** A committed transaction of a fetched user has fetched every blob. *)
Lemma writeFetched_disk key i u k rs w w' :
  writeFetchedCNodeUser env key i u k rs w = (Ok tt, w') ->
  forall x, x ∈ disk w' <->
    x ∈ disk w
    \/ (exists f, f ∈ trackFilesOf env u /\ x = f_storagePath f)
    \/ (exists f, f ∈ nonTrackFilesOf env u /\ f_type f <> "dir" /\ x = f_storagePath f).
Proof.
  unfold writeFetchedCNodeUser, saveInBatches.
  fold (trackFilesOf env u). fold (nonTrackFilesOf env u). cbv zeta.
  intros Hrun.
  apply bind_ok_inv in Hrun as ([] & w1 & H1 & Hrun).
  apply try_catch_ok_inv in Hrun; [|intros; eexists _, _; reflexivity].
  apply bind_ok_inv in Hrun as ([] & w2 & H2 & Hrun).
  apply bind_ok_inv in Hrun as ([] & w3 & H3 & Hrun).
  apply bind_ok_inv in Hrun as ([] & w4 & H4 & Hrun).
  apply bind_ok_inv in Hrun as ([] & w5 & H5 & Hrun).
  apply bind_ok_inv in Hrun as ([] & w6 & H6 & Hrun).
  apply bind_ok_inv in Hrun as ([] & w7 & H7 & Hrun).
  apply bind_ok_inv in Hrun as ([] & w8 & H8 & Hrun).
  apply bind_ok_inv in Hrun as ([] & w9 & H9 & Hrun).
  apply bind_ok_inv in Hrun as ([] & w10 & H10 & Hrun).
  apply (keeps_run disk) in H1; [|by apply keeps_transaction].
  apply (keeps_run disk) in H2; [|by apply keeps_write].
  apply (keeps_run disk) in H3; [|by apply keeps_write].
  apply (keeps_run disk) in H6; [|by apply keeps_write].
  apply (keeps_run disk) in H7; [|by apply keeps_write].
  apply (keeps_run disk) in H8; [|by apply keeps_write].
  apply (keeps_run disk) in H9; [|by apply keeps_write].
  apply (keeps_run disk) in H10; [|by apply keeps_commit].
  apply (keeps_run disk) in Hrun; [|by apply keeps_removeLock].
  assert (Hlim : (0 < 10)%nat) by lia.
  pose proof (fun Hfuel => forBatches_disk _ _ _ _ _ (saveTrackFile_stores i rs)
                             Hlim _ _ _ Hfuel H4) as H4'.
  pose proof (fun Hfuel => forBatches_disk _ _ _ _ _ (saveNonTrackFile_stores i rs)
                             Hlim _ _ _ Hfuel H5) as H5'.
  specialize (H4' ltac:(lia)). specialize (H5' ltac:(lia)).
  intros x. rewrite Hrun, H10, H9, H8, H7, H6, (H5' x), (H4' x), H3, H2, H1.
  rewrite !drop_0. tauto.
Qed.

End Blobs.

Section BlobClaims.
Import JS Data Effects Environment NodeSync Routes SyncSpec FrameSpec PeerSpec Examples.

(** X14: when the import of a fetched user that was ahead returns no
    error, the blob of every exported file of a track type, and of every
    exported file of a non-track type other than a directory, is on disk at
    the storage path of the file; nothing else was written to the disk. *)
Theorem import_stores_blobs (env : Env) (ws : list string) (ep : string) (w : World)
    (L : Z) (u : ExportedCNodeUser) (k : string) :
  fetched env ws ep w = Some (L, [u]) ->
  e_walletPublicKey u = Some k ->
  L < e_clock u ->
  fst (_nodesync env ws ep w) = Ok None ->
  forall path, path ∈ disk (snd (_nodesync env ws ep w)) <->
    path ∈ disk w
    \/ exists file, file ∈ e_files u
         /\ f_storagePath file = path
         /\ (f_type file ∈ TrackTypes env
             \/ (f_type file ∈ NonTrackTypes env /\ f_type file <> "dir")).
Proof.
  intros Hf Hk HL Hok path.
  destruct (nodesync_single env ws ep w L u Hf) as (key & w2 & Hq & Hres & Hq').
  rewrite Hok in Hres.
  destruct Hq as (_ & _ & Hd2 & _). destruct Hq' as (_ & _ & Hd3 & _).
  rewrite Hd3. clear Hd3.
  rewrite importFetchedCNodeUser_unfold, Hk in Hres |- *.
  destruct (negb _); [discriminate|].
  destruct (Z.ltb_spec (e_clock u) L); [lia|].
  destruct (Z.eqb_spec (e_clock u) L); [lia|].
  assert (Hw : forall run,
    run = writeFetchedCNodeUser env key 0 u k (userReplicaSetOf env 0 k) w2 ->
    Ok None = Ok match fst run with Ok _ => None | Throw e => Some e end ->
    path ∈ disk (snd run) <->
    path ∈ disk w
    \/ exists file, file ∈ e_files u
         /\ f_storagePath file = path
         /\ (f_type file ∈ TrackTypes env
             \/ (f_type file ∈ NonTrackTypes env /\ f_type file <> "dir"))).
  { intros run Hrun Hr.
    destruct run as [[[]|e] w3]; [|discriminate]. symmetry in Hrun.
    rewrite (writeFetched_disk env _ _ _ _ _ _ _ Hrun path), Hd2. cbn [snd].
    unfold trackFilesOf, nonTrackFilesOf. split.
    - intros [?|[(f & Hin & ->)|(f & Hin & Hdir & ->)]]; [by left|right; exists f..];
        apply list_elem_of_filter in Hin as [? ?]; repeat split; auto.
    - intros [?|(f & Hin & <- & [Ht|[Hn Hdir]])]; [by left|right; left|right; right];
        exists f; repeat split; try done; by apply list_elem_of_filter. }
  destruct (_ !! _) as [first|].
  - destruct (negb _); [discriminate|]. by apply Hw.
  - by apply Hw.
Qed.

(** The import of a metadata file and of a track segment. *)
Lemma import_stores_blobs_witness :
  "/file_storage/QmSegment"
  ∈ disk (snd (_nodesync (envWith noFault nextUser) ["0xabc"] "https://primary"
                 secondaryWorld)).
Proof.
  apply (import_stores_blobs (envWith noFault nextUser) ["0xabc"] "https://primary"
           secondaryWorld 2 nextUser "0xabc").
  - vm_compute. reflexivity.
  - reflexivity.
  - simpl. lia.
  - vm_compute. reflexivity.
  - right. exists (mkFile "uuid-1" 4 (Some 77) "QmSegment" "/file_storage/QmSegment"
                     "track" None).
    split; [right; left|]. split; [reflexivity|]. left. left.
Defined.

End BlobClaims.

(** ** Debounced syncs *)
Section Debounce.
Import JS Data Effects Environment NodeSync Routes SyncSpec FrameSpec QueueSpec.
Variable env : Env.

Lemma keeps_releaseLocks {B} (p : World -> B) ws :
  (forall e w, p (log e w) = p w) ->
  (forall f w, p (set_locks f w) = p w) ->
  (forall f w, p (set_syncQueue f w) = p w) ->
  keeps p (releaseLocks ws).
Proof.
  intros Hlog Hlocks Hq. induction ws as [|wallet ws IH]; simpl; [apply keeps_ret|].
  apply keeps_bind; [by apply keeps_removeLock|]. intros _.
  apply keeps_bind; [by apply keeps_modify|]. intros _. exact IH.
Qed.

Lemma keeps_nodesync {B} (p : World -> B) ws ep :
  (forall e w, p (log e w) = p w) ->
  (forall f w, p (set_locks f w) = p w) ->
  (forall f w, p (set_db f w) = p w) ->
  (forall t w, p (set_tx t w) = p w) ->
  (forall f w, p (set_disk f w) = p w) ->
  (forall f w, p (set_syncQueue f w) = p w) ->
  keeps p (_nodesync env ws ep).
Proof.
  intros. unfold _nodesync.
  apply keeps_bind; [by apply keeps_acquireLocks|]. intros key.
  apply keeps_try_finally; [|by apply keeps_releaseLocks].
  apply keeps_try_catch; [|intros; apply keeps_ret].
  apply keeps_bind; [by apply keeps_syncBody|]. intros; apply keeps_ret.
Qed.

Lemma releaseLocks_queue ws w (k : string) :
  syncQueue (snd (releaseLocks ws w)) !! k
  = if bool_decide (k ∈ ws) then None else syncQueue w !! k.
Proof.
  revert w. induction ws as [|wallet ws IH]; intros w; simpl; [done|].
  unfold bind, removeLock, modify. simpl.
  match goal with |- context [releaseLocks ws ?w0] => rewrite (IH w0) end. simpl.
  destruct (decide (k = wallet)) as [->|Hne].
  - rewrite lookup_delete_eq, (bool_decide_eq_true_2 (wallet ∈ wallet :: ws));
      [by destruct (bool_decide _)|by left].
  - rewrite lookup_delete_ne by done.
    case_bool_decide as Hin.
    + rewrite bool_decide_eq_true_2; [done|by right].
    + rewrite bool_decide_eq_false_2; [done|].
      intros [?|?]%elem_of_cons; done.
Qed.

(** The queue after a run for one wallet: the entries of the other wallets
    are as before; the entry of the wallet is gone once the locks were
    taken. *)
Lemma nodesync_queue wallet ep w :
  (forall k, k <> wallet ->
     syncQueue (snd (_nodesync env [wallet] ep w)) !! k = syncQueue w !! k)
  /\ (getNodeSyncRedisKey wallet ∉ locks w ->
      syncQueue (snd (_nodesync env [wallet] ep w)) !! wallet = None).
Proof.
  rewrite nodesync_unfold.
  pose proof (keeps_acquireLocks syncQueue ltac:(done) ltac:(done) [wallet] None w) as Hq1.
  destruct (acquireLocks [wallet] None w) as [[key|e] w1] eqn:Hacq; cbn [fst snd] in *.
  - cbv zeta.
    pose proof (keeps_syncBody syncQueue env ltac:(done) ltac:(done) ltac:(done)
                  ltac:(done) ltac:(done) [wallet] ep key w1) as Hq2.
    split.
    + intros k Hk. rewrite releaseLocks_queue, bool_decide_eq_false_2.
      * by rewrite Hq2, Hq1.
      * by intros ->%list_elem_of_singleton.
    + intros _. rewrite releaseLocks_queue, bool_decide_eq_true_2; [done|].
      by apply list_elem_of_singleton.
  - split; [intros; by rewrite Hq1|].
    intros Hfree. exfalso. revert Hacq. simpl. unfold bind, getLock.
    rewrite (bool_decide_eq_false_2 _ Hfree). simpl. discriminate.
Qed.

(** What a debounced [/sync] for one wallet leaves behind. *)
Lemma debounced_sync_run (body : SyncBody) (wallet' : string) (w : World) :
  wallet body = [wallet'] ->
  immediate body <> ImmediateBool true ->
  immediate body <> ImmediateString "true" ->
  sync env body w
  = (Ok successResponse,
     mkWorld (db w) (tx w) (locks w)
       (<[wallet' := nextTimer w]> (syncQueue w))
       (<[nextTimer w := (wallet', creator_node_endpoint body)]>
          (match syncQueue w !! wallet' with
           | Some handle => delete handle (timers w)
           | None => timers w
           end))
       (S (nextTimer w)) (disk w) (trace w)).
Proof.
  intros Hws Himm Himm'.
  destruct body as [ws ep imm st]. simpl in Hws, Himm, Himm'. subst ws.
  destruct w as [d t l q tm n dk tr].
  assert (Hflag : match imm with
                  | ImmediateBool b => b
                  | ImmediateString s => bool_decide (s = "true")
                  | ImmediateAbsent => false
                  end = false).
  { destruct imm as [[|]|s|]; try done. by apply bool_decide_eq_false_2; intros ->. }
  unfold sync. cbn [wallet creator_node_endpoint immediate]. rewrite Hflag.
  unfold enqueueSyncs, bind, modify, ret. simpl.
  by destruct (q !! wallet').
Qed.

(** X15: a debounced [/sync] (one wallet, [immediate] not set) answers at
    once and leaves exactly one pending sync for the wallet, the one of this
    request: the timer of an earlier request for the wallet is cancelled,
    the timers of other wallets are kept, and nothing else is touched.  The
    queue keeps tracking every pending timer. *)
Theorem debounced_sync_collapses (body : SyncBody) (wallet' : string) (w : World) :
  wallet body = [wallet'] ->
  immediate body <> ImmediateBool true ->
  immediate body <> ImmediateString "true" ->
  queueTracksTimers w ->
  handlesFresh w ->
  fst (sync env body w) = Ok successResponse
  /\ timers (snd (sync env body w)) !! nextTimer w
     = Some (wallet', creator_node_endpoint body)
  /\ (forall handle endpoint,
        timers (snd (sync env body w)) !! handle = Some (wallet', endpoint) ->
        handle = nextTimer w /\ endpoint = creator_node_endpoint body)
  /\ (forall handle other endpoint,
        other <> wallet' ->
        timers (snd (sync env body w)) !! handle = Some (other, endpoint)
        <-> timers w !! handle = Some (other, endpoint))
  /\ queueTracksTimers (snd (sync env body w))
  /\ handlesFresh (snd (sync env body w))
  /\ db (snd (sync env body w)) = db w
  /\ locks (snd (sync env body w)) = locks w
  /\ trace (snd (sync env body w)) = trace w.
Proof.
  intros Hws Himm Himm' [Htrack Hown] [Hfresh Hfreshq].
  rewrite (debounced_sync_run body wallet' w Hws Himm Himm').
  destruct body as [ws ep imm st]. destruct w as [d t l q tm n dk tr].
  unfold queueTracksTimers, handlesFresh.
  cbn [fst snd timers syncQueue nextTimer db locks trace tx disk creator_node_endpoint]
    in *.
  set (tm1 := match q !! wallet' with Some handle => delete handle tm | None => tm end).
  assert (Htm1 : forall h k e, tm1 !! h = Some (k, e) -> tm !! h = Some (k, e) /\ k <> wallet').
  { intros h k e. subst tm1. destruct (q !! wallet') as [h0|] eqn:Hq.
    - rewrite lookup_delete_Some. intros [Hne Hh]. split; [done|].
      intros ->. apply Htrack in Hh. congruence.
    - intros Hh. split; [done|]. intros ->. apply Htrack in Hh. congruence. }
  assert (Htm1' : forall h k e, tm !! h = Some (k, e) -> k <> wallet' -> tm1 !! h = Some (k, e)).
  { intros h k e Hh Hk. subst tm1. destruct (q !! wallet') as [h0|] eqn:Hq; [|done].
    rewrite lookup_delete_ne; [done|]. intros ->. by apply Hk, (Hown h wallet' k e). }
  split; [done|]. split; [apply lookup_insert_eq|].
  split; [|split; [|split; [split|split; [split|]]]].
  - intros h e. rewrite lookup_insert_Some. intros [[<- [= <-]]|[_ Hh]]; [done|].
    apply Htm1 in Hh as [_ ?]. done.
  - intros h k e Hk. rewrite lookup_insert_Some. split.
    + intros [[_ [= -> _]]|[_ Hh]]; [done|]. by apply Htm1 in Hh as [? _].
    + intros Hh. right. split; [|by apply Htm1'].
      intros <-. rewrite Hfresh in Hh; [done|lia].
  - intros h k e. rewrite lookup_insert_Some.
    intros [[<- [= <- <-]]|[Hne Hh]]; [apply lookup_insert_eq|].
    apply Htm1 in Hh as [Hh Hk]. rewrite lookup_insert_ne by done. by eapply Htrack.
  - intros h k k' e. rewrite !lookup_insert_Some.
    intros [[<- <-]|[Hk Hq]] [[Hn [= <- _]]|[Hn Hh]]; try done.
    + apply Hfreshq in Hq. lia.
    + apply Htm1 in Hh as [Hh _]. by eapply Hown.
  - intros h Hle. rewrite lookup_insert_ne by lia.
    destruct (tm1 !! h) as [[k e]|] eqn:Hh; [|done].
    apply Htm1 in Hh as [Hh _]. rewrite Hfresh in Hh; [done|lia].
  - intros k h. rewrite lookup_insert_Some. intros [[_ <-]|[_ Hq]]; [lia|].
    apply Hfreshq in Hq. lia.
  - done.
Qed.

(** A run during which no request is served is a run of [_nodesync]. *)
Lemma nodesyncServing_idle ws ep w :
  _nodesyncServing env [] [] ws ep w = _nodesync env ws ep w.
Proof.
  unfold _nodesyncServing, _nodesync, bind.
  destruct (acquireLocks ws None w) as [[key|e] w1]; [|done].
  unfold try_finally, try_catch. cbn [serve ret].
  destruct (syncBody env ws ep key w1) as [[[]|e] w2]; by destruct ws.
Qed.

Lemma sameQueue_refl w : sameQueue w w.
Proof. done. Qed.

Lemma sameQueue_trans w1 w2 w3 : sameQueue w1 w2 -> sameQueue w2 w3 -> sameQueue w1 w3.
Proof. intros (? & ? & ?) (? & ? & ?). repeat split; congruence. Qed.








(** X17: an immediate [/sync] forgets the debounced sync that is pending
    for the wallet without cancelling it: its timer stays while the queue no
    longer holds its handle, so that a later debounced request leaves two
    pending syncs for the same wallet. *)
Theorem immediate_sync_orphans_timer (handle : nat) (wallet' pending endpoint later : string)
    (sync_type' later_type : option string) (w : World) :
  timers w !! handle = Some (wallet', pending) ->
  handlesFresh w ->
  getNodeSyncRedisKey wallet' ∉ locks w ->
  timers (snd (sync env (mkSyncBody [wallet'] endpoint (ImmediateBool true) sync_type') w))
    !! handle = Some (wallet', pending)
  /\ syncQueue (snd (sync env (mkSyncBody [wallet'] endpoint (ImmediateBool true)
                              sync_type') w)) !! wallet' = None
  /\ ~ queueTracksTimers
        (snd (sync env (mkSyncBody [wallet'] endpoint (ImmediateBool true) sync_type') w))
  /\ handle <> nextTimer w
  /\ timers (snd (sync env (mkSyncBody [wallet'] later ImmediateAbsent later_type)
                    (snd (sync env (mkSyncBody [wallet'] endpoint (ImmediateBool true)
                                      sync_type') w))))
       !! handle = Some (wallet', pending)
  /\ timers (snd (sync env (mkSyncBody [wallet'] later ImmediateAbsent later_type)
                    (snd (sync env (mkSyncBody [wallet'] endpoint (ImmediateBool true)
                                      sync_type') w))))
       !! nextTimer w = Some (wallet', later).
Proof.
  intros Hh [Hfresh _] Hfree.
  assert (Hrun : snd (sync env (mkSyncBody [wallet'] endpoint (ImmediateBool true)
                                  sync_type') w)
                 = snd (_nodesync env [wallet'] endpoint w)).
  { unfold sync, bind, ret. simpl.
    by destruct (_nodesync env [wallet'] endpoint w) as [[[e|]|e] w']. }
  rewrite Hrun. set (w1 := snd (_nodesync env [wallet'] endpoint w)).
  pose proof (keeps_nodesync timers [wallet'] endpoint ltac:(done) ltac:(done)
                ltac:(done) ltac:(done) ltac:(done) ltac:(done) w) as Htm.
  pose proof (keeps_nodesync nextTimer [wallet'] endpoint ltac:(done) ltac:(done)
                ltac:(done) ltac:(done) ltac:(done) ltac:(done) w) as Hnext.
  destruct (nodesync_queue wallet' endpoint w) as [_ Hq]. specialize (Hq Hfree).
  fold w1 in Htm, Hnext, Hq.
  assert (Hne : handle <> nextTimer w).
  { intros ->. rewrite Hfresh in Hh; [done|lia]. }
  split; [by rewrite Htm|]. split; [done|]. split; [|split; [done|]].
  { intros [Htrack _]. rewrite <- Htm in Hh. apply Htrack in Hh. congruence. }
  rewrite (debounced_sync_run (mkSyncBody [wallet'] later ImmediateAbsent later_type)
             wallet' w1) by done.
  cbn [snd timers creator_node_endpoint]. rewrite Hq, Hnext, Htm. split.
  - by rewrite lookup_insert_ne.
  - apply lookup_insert_eq.
Qed.

End Debounce.

Section DebounceWitnesses.
Import JS Data Effects Environment NodeSync Routes SyncSpec FrameSpec QueueSpec.
Import Examples QueueExamples.

Lemma pendingWorld_tracked : queueTracksTimers pendingWorld.
Proof.
  split.
  - intros h k e. simpl. rewrite lookup_singleton_Some. intros [<- [= <- _]].
    apply lookup_singleton_eq.
  - intros h k k' e. simpl. rewrite !lookup_singleton_Some.
    intros [<- <-] [_ [= <- _]]. done.
Qed.

Lemma pendingWorld_fresh : handlesFresh pendingWorld.
Proof.
  split.
  - intros h. simpl. intros Hle. apply lookup_singleton_ne. lia.
  - intros k h. simpl. rewrite lookup_singleton_Some. intros [_ <-]. lia.
Qed.

(** A second debounced request, from the new primary, replaces the pending
    one. *)
Lemma debounced_sync_collapses_witness :
  timers (snd (sync quietEnv (mkSyncBody ["0xabc"] "https://primary" ImmediateAbsent None)
                 pendingWorld)) !! 1%nat
  = Some ("0xabc", "https://primary")
  /\ (forall handle endpoint,
        timers (snd (sync quietEnv
                       (mkSyncBody ["0xabc"] "https://primary" ImmediateAbsent None)
                       pendingWorld)) !! handle = Some ("0xabc", endpoint) ->
        handle = 1%nat /\ endpoint = "https://primary").
Proof.
  destruct (debounced_sync_collapses quietEnv
              (mkSyncBody ["0xabc"] "https://primary" ImmediateAbsent None)
              "0xabc" pendingWorld) as (_ & H1 & H2 & _).
  - reflexivity.
  - discriminate.
  - discriminate.
  - exact pendingWorld_tracked.
  - exact pendingWorld_fresh.
  - split; [exact H1|exact H2].
Defined.


(** An immediate sync while the debounced one is pending. *)
Lemma immediate_sync_orphans_timer_witness :
  timers (snd (sync quietEnv (mkSyncBody ["0xabc"] "https://primary" (ImmediateBool true)
                                None) pendingWorld)) !! 0%nat
  = Some ("0xabc", "https://old")
  /\ syncQueue (snd (sync quietEnv (mkSyncBody ["0xabc"] "https://primary"
                                      (ImmediateBool true) None) pendingWorld))
       !! "0xabc" = None.
Proof.
  destruct (immediate_sync_orphans_timer quietEnv 0 "0xabc" "https://old"
              "https://primary" "https://primary" None None pendingWorld)
    as (H1 & H2 & _).
  - reflexivity.
  - exact pendingWorld_fresh.
  - simpl. apply not_elem_of_empty.
  - split; [exact H1|exact H2].
Defined.

End DebounceWitnesses.

(** ** Selections *)
Section SelectionFacts.
Import JS CreatorNodeSelection SelectionSpec.
Variable env : Env.

Lemma sameConfig_refl this : sameConfig this this.
Proof. by repeat split. Qed.

Lemma sameConfig_trans this1 this2 this3 :
  sameConfig this1 this2 -> sameConfig this2 this3 -> sameConfig this1 this3.
Proof. intros (? & ? & ? & ?) (? & ? & ? & ?). repeat split; congruence. Qed.

(** The loop of the sync checks keeps the endpoints that pass, in order,
    and marks the others unhealthy. *)
Lemma syncCheckLoop_spec (services : list string) :
  forall ok this,
    fst (syncCheckLoop (map (getSyncStatus env) services) ok this)
    = ok ++ List.filter (passesSyncCheck env) services
    /\ sameConfig this (snd (syncCheckLoop (map (getSyncStatus env) services) ok this))
    /\ currentVersion (snd (syncCheckLoop (map (getSyncStatus env) services) ok this))
       = currentVersion this
    /\ decisionTree (snd (syncCheckLoop (map (getSyncStatus env) services) ok this))
       = decisionTree this
    /\ backupsList (snd (syncCheckLoop (map (getSyncStatus env) services) ok this))
       = backupsList this
    /\ forall s,
         s ∈ unhealthy (snd (syncCheckLoop (map (getSyncStatus env) services) ok this))
         <-> s ∈ unhealthy this \/ (s ∈ services /\ passesSyncCheck env s = false).
Proof.
  induction services as [|service services IH]; intros ok this.
  - simpl. rewrite app_nil_r. repeat split; try done; [by left|].
    intros [?|[H _]]; [done|]. by apply elem_of_nil in H.
  - cbn [map syncCheckLoop getSyncStatus List.filter]. unfold passesSyncCheck at 1 3.
    destruct (creatorNode_getSyncStatus env service) as [st|] eqn:Hst.
    + destruct (_ || _) eqn:Hpass.
      * destruct (IH (ok ++ [service]) this) as (Hok & Hcfg & Hv & Ht & Hb & Hu).
        rewrite Hok, <- app_assoc. repeat split; try done; try apply Hcfg.
        -- rewrite Hu. intros [?|[? ?]]; [by left|]. right. split; [by right|done].
        -- rewrite Hu. rewrite elem_of_cons.
           intros [?|[[->|?] Hf]]; [by left| |by right].
           unfold passesSyncCheck in Hf. rewrite Hst, Hpass in Hf. done.
      * destruct (IH ok (addUnhealthy service this)) as (Hok & Hcfg & Hv & Ht & Hb & Hu).
        rewrite Hok. repeat split; try done; try apply Hcfg.
        -- rewrite Hu. simpl. rewrite elem_of_union, elem_of_singleton, elem_of_cons.
           intros [[->|?]|[? ?]]; [right|by left|right]; (split; [auto|]); [|done].
           unfold passesSyncCheck. by rewrite Hst, Hpass.
        -- rewrite Hu. simpl. rewrite elem_of_union, elem_of_singleton, elem_of_cons.
           intros [?|[[->|?] Hf]]; [left; by right|left; by left|right; done].
    + destruct (IH ok (addUnhealthy service this)) as (Hok & Hcfg & Hv & Ht & Hb & Hu).
      rewrite Hok. repeat split; try done; try apply Hcfg.
      * rewrite Hu. simpl. rewrite elem_of_union, elem_of_singleton, elem_of_cons.
        intros [[->|?]|[? ?]]; [right|by left|right]; (split; [auto|]); [|done].
        unfold passesSyncCheck. by rewrite Hst.
      * rewrite Hu. simpl. rewrite elem_of_union, elem_of_singleton, elem_of_cons.
        intros [?|[[->|?] Hf]]; [left; by right|left; by left|right; done].
Qed.

Lemma healthVerdict_ext this1 this2 r :
  currentVersion this1 = currentVersion this2 ->
  healthVerdict env this1 r = healthVerdict env this2 r.
Proof. unfold healthVerdict. by intros ->. Qed.

Lemma isHealthy_ext this1 this2 r :
  currentVersion this1 = currentVersion this2 ->
  isHealthy env this1 r = isHealthy env this2 r.
Proof. unfold isHealthy. intros H. by rewrite (healthVerdict_ext _ _ _ H). Qed.

Lemma isHealthy_iff this v r :
  currentVersion this = Some v ->
  isHealthy env this r = true <-> healthyAnswer env v r.
Proof.
  intros Hv. unfold isHealthy, healthVerdict, healthyAnswer. rewrite Hv. simpl.
  destruct (response r) as [hr|].
  - destruct (hr_data hr) as [version|] eqn:Hversion.
    + destruct (hasSameMajorAndMinorVersion env v version) as [b|] eqn:Hsame.
      * rewrite andb_true_iff, Z.eqb_eq. split.
        -- intros [? ->]. by exists hr, version.
        -- intros (hr' & version' & Hhr & ? & Hv' & Hs). injection Hhr as <-.
           rewrite Hversion in Hv'. injection Hv' as <-. split; [done|congruence].
      * split; [done|].
        intros (hr' & version' & Hhr & ? & Hv' & Hs). injection Hhr as <-.
        rewrite Hversion in Hv'. injection Hv' as <-. congruence.
    + split; [done|]. intros (hr' & version' & Hhr & ? & Hv' & ?). injection Hhr as <-.
      congruence.
  - split; [done|]. intros (hr' & ? & ? & _). done.
Qed.

(** The reading and the comparison of the version are all that can throw
    in the callback of the filter. *)
Lemma healthVerdict_raised this v r :
  currentVersion this = Some v ->
  (exists e, healthVerdict env this r = Raised e) <-> unreadableAnswer env v r.
Proof.
  intros Hv. unfold healthVerdict, unreadableAnswer. rewrite Hv. simpl.
  destruct (response r) as [hr|].
  - destruct (hr_data hr) as [version|] eqn:Hversion.
    + destruct (hasSameMajorAndMinorVersion env v version) as [b|] eqn:Hsame.
      * split; [by intros [? ?]|].
        intros (hr' & Hhr & [?|(version' & Hv' & ?)]); injection Hhr as <-; congruence.
      * split; [|by eexists]. intros _. exists hr. split; [done|]. right. by exists version.
    + split; [|by eexists]. intros _. exists hr. split; [done|by left].
  - split; [by intros [? ?]|]. by intros (hr' & ? & _).
Qed.

Lemma healthVerdict_not_registry this r :
  healthVerdict env this r <> Raised GetServicesFailed.
Proof.
  unfold healthVerdict. destruct (response r) as [hr|]; [|done].
  destruct (hr_data hr) as [version|]; [|done].
  by destruct (hasSameMajorAndMinorVersion env _ version).
Qed.

(** When the filter of the health checks returns, it returns the healthy
    answers in order, and the callback threw on no answer. *)
Lemma filterHealthy_returned (checked : list TimedRequest) :
  forall this healthy this',
    filterHealthy env checked this = (Returned healthy, this') ->
    healthy = List.filter (isHealthy env this) checked
    /\ sameConfig this this'
    /\ currentVersion this' = currentVersion this
    /\ decisionTree this' = decisionTree this
    /\ backupsList this' = backupsList this.
Proof.
  induction checked as [|r checked IH]; intros this healthy this'; simpl.
  - intros [= <- <-]. split; [done|]. split; [apply sameConfig_refl|]. by repeat split.
  - unfold isHealthy at 1.
    destruct (healthVerdict env this r) as [b|e] eqn:Hr; [|discriminate].
    set (this1 := if b then this else addUnhealthy (request_id r) this).
    assert (H1 : sameConfig this this1 /\ currentVersion this1 = currentVersion this
                 /\ decisionTree this1 = decisionTree this
                 /\ backupsList this1 = backupsList this).
    { subst this1. destruct b; by repeat split. }
    destruct H1 as (Hc1 & Hv1 & Ht1 & Hb1).
    destruct (filterHealthy env checked this1) as [[healthy'|e] this2] eqn:Hrest;
      [|discriminate].
    intros [= <- <-].
    apply IH in Hrest as (-> & Hc & Hv & Ht & Hb).
    assert (Hext : List.filter (isHealthy env this1) checked
                   = List.filter (isHealthy env this) checked).
    { apply List.filter_ext. intros r'. by apply isHealthy_ext. }
    rewrite Hext. split; [by destruct b|].
    split; [by eapply sameConfig_trans|].
    split; [congruence|]. split; [congruence|]. congruence.
Qed.

(** The filter of the health checks throws exactly when the callback
    throws on an answer. *)
Lemma filterHealthy_raised (checked : list TimedRequest) :
  forall this v,
    currentVersion this = Some v ->
    match fst (filterHealthy env checked this) with
    | Raised e => e <> GetServicesFailed /\ exists r, r ∈ checked /\ unreadableAnswer env v r
    | Returned _ => Forall (fun r => ~ unreadableAnswer env v r) checked
    end.
Proof.
  induction checked as [|r checked IH]; intros this v Hv; simpl; [constructor|].
  pose proof (healthVerdict_raised this v r Hv) as Hraised.
  pose proof (healthVerdict_not_registry this r) as Hnot.
  destruct (healthVerdict env this r) as [b|e] eqn:Hr; cbn [fst].
  - specialize (IH (if b then this else addUnhealthy (request_id r) this) v).
    destruct (filterHealthy env checked _) as [[healthy|e] this2]; cbn [fst] in *.
    + constructor; [|apply IH; by destruct b].
      intros Hbad. apply Hraised in Hbad as [e He]. done.
    + destruct IH as (Hne & r' & Hin & Hbad); [by destruct b|]. split; [done|].
      exists r'. split; [by right|done].
  - split; [congruence|]. exists r. split; [by left|]. apply Hraised. by eexists.
Qed.

(** What the filtering stages of a selection return. *)
Lemma healthyCandidates_inv performSyncCheck this services servicesMap this' :
  healthyCandidates env performSyncCheck this = (Returned (services, servicesMap), this') ->
  exists v registered,
    getCurrentVersion env = Some v
    /\ getServiceProviderList env = Some registered
    /\ services
       = map request_id
           (List.filter (isHealthy env this')
              (healthChecked env performSyncCheck this registered))
    /\ recordMetrics env (healthChecked env performSyncCheck this registered) = Returned tt
    /\ sameConfig this this'
    /\ currentVersion this' = Some v
    /\ decisionTree this'
       = [StageServices GET_ALL_SERVICES registered;
          StageServices FILTER_TO_WHITELIST
            (match whitelist this with
             | Some allow => filterToWhitelist allow registered
             | None => registered
             end);
          StageServices FILTER_FROM_BLACKLIST (candidates env false this registered)]
         ++ (if performSyncCheck
             then [StageServices FILTER_OUT_SYNC_IN_PROGRESS
                     (candidates env false this registered)]
             else [])
         ++ [StageServices FILTER_OUT_UNHEALTHY_AND_OUTDATED
               (candidates env performSyncCheck this registered)]
    /\ servicesMap
       = servicesMapOf
           (List.filter (isHealthy env this')
              (healthChecked env performSyncCheck this registered)) [].
Proof.
  unfold healthyCandidates, getServices.
  destruct (getCurrentVersion env) as [v|]; [|discriminate].
  destruct (getServiceProviderList env) as [registered|]; [|discriminate].
  cbn [whitelist blacklist clearUnhealthy clearBackups set_unhealthy setBackupsList
       set_decisionTree set_currentVersion push decisionTree].
  intros Hrun. exists v, registered. split; [done|]. split; [done|].
  unfold healthChecked, candidates, healthRequests.
  set (s1 := match whitelist this with
             | Some allow => filterToWhitelist allow registered
             | None => registered
             end) in *.
  set (s2 := match blacklist this with
             | Some deny => filterFromBlacklist deny s1
             | None => s1
             end) in *.
  match type of Hrun with
  | (let '(_, _) := ?c in _) = _ => destruct c as [s3 this3] eqn:Hsync
  end.
  assert (Hs3 : s3 = (if performSyncCheck then List.filter (passesSyncCheck env) s2 else s2)
                /\ sameConfig this this3
                /\ currentVersion this3 = Some v
                /\ timeout this3 = timeout this
                /\ decisionTree this3
                   = [StageServices GET_ALL_SERVICES registered;
                      StageServices FILTER_TO_WHITELIST s1;
                      StageServices FILTER_FROM_BLACKLIST s2]
                     ++ (if performSyncCheck
                         then [StageServices FILTER_OUT_SYNC_IN_PROGRESS s2] else [])).
  { destruct performSyncCheck.
    - unfold _performSyncChecks in Hsync.
      match type of Hsync with
      | (let '(_, _) := syncCheckLoop ?rs ?ok ?t in _) = _ =>
          destruct (syncCheckLoop_spec s2 ok t) as (Hok & Hcfg & Hv & Ht & _);
          destruct (syncCheckLoop rs ok t) as [ok' t']
      end.
      cbn [fst snd] in *. injection Hsync as <- <-. subst ok'.
      destruct Hcfg as (? & ? & ? & ?).
      repeat split; try done. simpl. by rewrite Ht.
    - injection Hsync as <- <-. by repeat split. }
  destruct Hs3 as (-> & Hcfg3 & Hv3 & Hto3 & Htree3).
  unfold _performHealthChecks in Hrun. rewrite Hto3 in Hrun.
  set (checked := timeRequestsAndSortByVersion env _ (timeout this)) in *.
  destruct (filterHealthy env checked this3) as [[healthy|e] this4] eqn:Hfilter;
    [|discriminate].
  destruct (recordMetrics env checked) as [[]|e] eqn:Hmetrics; [|discriminate].
  injection Hrun as <- <- <-.
  apply filterHealthy_returned in Hfilter as (-> & Hcfg4 & Hv4 & Ht4 & _).
  assert (Hext : List.filter (isHealthy env this3) checked
                 = List.filter
                     (isHealthy env
                        (push (StageServices FILTER_OUT_UNHEALTHY_AND_OUTDATED
                                 (if performSyncCheck
                                  then List.filter (passesSyncCheck env) s2 else s2))
                           this4)) checked).
  { apply List.filter_ext. intros r. apply isHealthy_ext. simpl. by rewrite Hv4. }
  split; [by rewrite Hext|].
  split; [done|]. split.
  { eapply sameConfig_trans; [exact Hcfg3|]. destruct Hcfg4 as (? & ? & ? & ?).
    by repeat split. }
  split; [simpl; by rewrite Hv4|].
  split; [|by rewrite Hext].
  simpl. rewrite Ht4, Htree3. by rewrite <- !app_assoc.
Qed.

End SelectionFacts.

Section SelectionProperties.
Import JS CreatorNodeSelection SelectionSpec UpExamples.

Lemma slice_to_prefix {A} (e : Z) (l : list A) : slice_to e l `prefix_of` l.
Proof. unfold slice_to. destruct (e <? 0); apply prefix_take. Qed.

Lemma slice_to_length {A} (e : Z) (l : list A) :
  0 <= e -> Z.of_nat (List.length (slice_to e l)) <= e.
Proof.
  intros He. unfold slice_to. destruct (Z.ltb_spec e 0); [lia|].
  rewrite length_take. lia.
Qed.

Lemma filter_elem {A} (P : A -> bool) (l : list A) (x : A) :
  x ∈ List.filter P l <-> x ∈ l /\ P x = true.
Proof. by rewrite !list_elem_of_In, List.filter_In. Qed.

(** What [select] returns. *)
Lemma select_inv (env : Env) performSyncCheck this sel this' :
  select env performSyncCheck this = (Returned sel, this') ->
  exists services servicesMap this1,
    healthyCandidates env performSyncCheck this = (Returned (services, servicesMap), this1)
    /\ primary sel = head services
    /\ secondaries sel = slice_to (numberOfNodes this1 - 1) (tail services)
    /\ CreatorNodeSelection.services sel = servicesMap
    /\ backupsList this' = tail services
    /\ currentVersion this' = currentVersion this1
    /\ sameConfig this1 this'
    /\ decisionTree this'
       = decisionTree this1
         ++ [StageSelected (primary sel) (secondaries sel) (map fst servicesMap)].
Proof.
  unfold select.
  destruct (healthyCandidates env performSyncCheck this) as [[[services smap]|e] this1];
    [|discriminate].
  intros [= <- <-]. exists services, smap, this1.
  unfold getSecondaries, getPrimary. simpl.
  rewrite <- head_lookup. destruct services; by repeat split.
Qed.

(** The healthy answers of a selection, as [select] sees them. *)
Lemma select_healthy (env : Env) performSyncCheck this sel this' :
  select env performSyncCheck this = (Returned sel, this') ->
  exists v registered,
    getCurrentVersion env = Some v
    /\ getServiceProviderList env = Some registered
    /\ currentVersion this' = Some v
    /\ sameConfig this this'
    /\ primary sel
       = head (map request_id
                 (List.filter (isHealthy env this')
                    (healthChecked env performSyncCheck this registered)))
    /\ backupsList this'
       = tail (map request_id
                 (List.filter (isHealthy env this')
                    (healthChecked env performSyncCheck this registered)))
    /\ secondaries sel = slice_to (numberOfNodes this - 1) (backupsList this')
    /\ CreatorNodeSelection.services sel
       = servicesMapOf
           (List.filter (isHealthy env this')
              (healthChecked env performSyncCheck this registered)) [].
Proof.
  intros Hsel.
  apply select_inv in Hsel
    as (services & smap & this1 & Hc & Hp & Hs & Hm & Hb & Hcur' & Hcfg' & _).
  apply healthyCandidates_inv in Hc
    as (v & registered & Hv & Hreg & Hservices & _ & Hcfg & Hcur & _ & Hmap).
  exists v, registered.
  assert (Hext : List.filter (isHealthy env this')
                   (healthChecked env performSyncCheck this registered)
                 = List.filter (isHealthy env this1)
                     (healthChecked env performSyncCheck this registered)).
  { apply List.filter_ext. intros r. by apply isHealthy_ext. }
  rewrite Hext, <- Hservices.
  destruct Hcfg as (? & ? & Hn & ?).
  repeat split; try congruence.
  - by eapply sameConfig_trans.
  - by eapply sameConfig_trans.
  - by eapply sameConfig_trans.
  - by eapply sameConfig_trans.
Qed.

Lemma servicesMapOf_keys (healthy : list TimedRequest) :
  forall m,
    NoDup (map fst m) ->
    NoDup (map fst (servicesMapOf healthy m))
    /\ forall k, k ∈ map fst (servicesMapOf healthy m)
                 <-> k ∈ map fst m \/ k ∈ map request_id healthy.
Proof.
  induction healthy as [|r healthy IH]; intros m Hnd; simpl.
  - split; [done|]. intros k. split; [by left|]. intros [?|Hn]; [done|].
    by apply elem_of_nil in Hn.
  - match goal with |- context [Routes.dict_set ?key ?val m] =>
      destruct (dict_set_keys key val m Hnd) as [Hnd1 Hk1];
      destruct (IH _ Hnd1) as [Hnd2 Hk2]
    end.
    split; [done|]. intros k. rewrite Hk2, Hk1, elem_of_cons. tauto.
Qed.

(** A selected node is one of the healthy answers. *)
Lemma selected_in_healthy (sel : Selection) (this this' : Selector) (healthy : list string)
    (node : string) :
  primary sel = head healthy ->
  backupsList this' = tail healthy ->
  secondaries sel = slice_to (numberOfNodes this - 1) (backupsList this') ->
  primary sel = Some node \/ node ∈ secondaries sel ->
  node ∈ healthy.
Proof.
  intros Hp Hb Hs [Hnode|Hnode].
  - rewrite Hp in Hnode. destruct healthy; [done|]. injection Hnode as ->. by left.
  - rewrite Hs, Hb in Hnode.
    destruct (slice_to_prefix (numberOfNodes this - 1) (tail healthy)) as [k Hk].
    destruct healthy as [|p rest]; simpl in *.
    { symmetry in Hk. apply app_eq_nil in Hk as [Hk _]. rewrite Hk in Hnode.
      by apply elem_of_nil in Hnode. }
    right. rewrite Hk. apply elem_of_app. by left.
Qed.

(** X18: the nodes that [select] returns are healthy: the primary and
    every secondary answered the health check of this selection with status
    200 and a version with the major and minor number of the current one.
    The primary is the first healthy answer, the backups are the others in
    the order of the answers, and the secondaries are the first of the
    backups, at most [numberOfNodes - 1] of them. *)
Theorem select_picks_healthy (env : Env) (performSyncCheck : bool) (this this' : Selector)
    (sel : Selection) :
  select env performSyncCheck this = (Returned sel, this') ->
  exists v registered,
    getCurrentVersion env = Some v
    /\ getServiceProviderList env = Some registered
    /\ (forall node,
          primary sel = Some node \/ node ∈ secondaries sel ->
          exists r, r ∈ healthChecked env performSyncCheck this registered
                    /\ request_id r = node
                    /\ healthyAnswer env v r)
    /\ primary sel
       = head (map request_id
                 (List.filter (isHealthy env this')
                    (healthChecked env performSyncCheck this registered)))
    /\ backupsList this'
       = tail (map request_id
                 (List.filter (isHealthy env this')
                    (healthChecked env performSyncCheck this registered)))
    /\ secondaries sel `prefix_of` backupsList this'
    /\ (1 <= numberOfNodes this ->
        Z.of_nat (List.length (secondaries sel)) <= numberOfNodes this - 1).
Proof.
  intros Hsel.
  apply select_healthy in Hsel
    as (v & registered & Hv & Hreg & Hcur & _ & Hp & Hb & Hs & _).
  exists v, registered. split; [done|]. split; [done|].
  split; [|split; [done|split; [done|split]]].
  - intros node Hnode.
    apply (selected_in_healthy sel this this' _ node Hp Hb Hs) in Hnode.
    apply list_elem_of_fmap in Hnode as (r & -> & Hr).
    apply filter_elem in Hr as [Hin Hh].
    exists r. split; [done|]. split; [done|].
    by apply (isHealthy_iff env this' v r Hcur).
  - rewrite Hs. apply slice_to_prefix.
  - intros Hn. rewrite Hs. apply slice_to_length. lia.
Qed.

(** Two of three registered nodes may be used; one primary and one
    secondary are selected. *)
Lemma select_picks_healthy_witness :
  exists v registered,
    getCurrentVersion upEnv = Some v
    /\ getServiceProviderList upEnv = Some registered
    /\ (forall node,
          Some "https://cn1" = Some node \/ node ∈ ["https://cn3"] ->
          exists r, r ∈ healthChecked upEnv true pickySelector registered
                    /\ request_id r = node
                    /\ healthyAnswer upEnv v r).
Proof.
  destruct (select_picks_healthy upEnv true pickySelector
              (snd (select upEnv true pickySelector))
              (mkSelection (Some "https://cn1") ["https://cn3"]
                 [("https://cn1", "1.2.0"); ("https://cn3", "1.2.0")]))
    as (v & registered & Hv & Hreg & Hall & _).
  - vm_compute. reflexivity.
  - exists v, registered. split; [exact Hv|]. split; [exact Hreg|exact Hall].
Defined.

(** X19: the lists are respected: when the network helper answers only
    for the requests it is given, every node that [select] returns is
    registered, is on the allow-list if there is one, is not on the
    deny-list if there is one and, when the sync check is performed, has
    passed it. *)
Theorem select_respects_lists (env : Env) (performSyncCheck : bool) (this this' : Selector)
    (sel : Selection) (node : string) :
  answersRequests env ->
  select env performSyncCheck this = (Returned sel, this') ->
  primary sel = Some node \/ node ∈ secondaries sel ->
  (exists registered, getServiceProviderList env = Some registered /\ node ∈ registered)
  /\ (forall allow, whitelist this = Some allow -> node ∈ allow)
  /\ (forall deny, blacklist this = Some deny -> node ∉ deny)
  /\ (performSyncCheck = true -> passesSyncCheck env node = true).
Proof.
  intros Hans Hsel Hnode.
  apply select_healthy in Hsel
    as (v & registered & Hv & Hreg & Hcur & _ & Hp & Hb & Hs & _).
  apply (selected_in_healthy sel this this' _ node Hp Hb Hs) in Hnode.
  apply list_elem_of_fmap in Hnode as (r & -> & Hr).
  apply filter_elem in Hr as [Hin _].
  apply Hans in Hin. unfold healthRequests in Hin.
  rewrite <- list_fmap_compose in Hin. simpl in Hin.
  change (map (fun node : string => node)) with (@fmap list _ _ _ (@id string)) in Hin.
  rewrite list_fmap_id in Hin.
  set (node := request_id r) in *. unfold candidates in Hin.
  assert (Hin2 : node ∈ match blacklist this with
                        | Some deny =>
                            filterFromBlacklist deny
                              match whitelist this with
                              | Some allow => filterToWhitelist allow registered
                              | None => registered
                              end
                        | None =>
                            match whitelist this with
                            | Some allow => filterToWhitelist allow registered
                            | None => registered
                            end
                        end
                 /\ (performSyncCheck = true -> passesSyncCheck env node = true)).
  { destruct performSyncCheck; [|done]. by apply filter_elem in Hin as [? ?]. }
  destruct Hin2 as [Hin2 Hsync].
  assert (Hin1 : node ∈ match whitelist this with
                        | Some allow => filterToWhitelist allow registered
                        | None => registered
                        end
                 /\ (forall deny, blacklist this = Some deny -> node ∉ deny)).
  { destruct (blacklist this) as [deny|]; [|done].
    apply list_elem_of_filter in Hin2 as [? ?]. split; [done|]. by intros ? [= <-]. }
  destruct Hin1 as [Hin1 Hdeny].
  assert (Hin0 : node ∈ registered
                 /\ (forall allow, whitelist this = Some allow -> node ∈ allow)).
  { destruct (whitelist this) as [allow|]; [|done].
    apply list_elem_of_filter in Hin1 as [? ?]. split; [done|]. by intros ? [= <-]. }
  destruct Hin0 as [Hin0 Hallow].
  split; [by exists registered|]. done.
Qed.

Lemma upEnv_answers : answersRequests upEnv.
Proof.
  intros requests timeout' r. simpl. rewrite !list_elem_of_fmap.
  intros (req & -> & Hreq). by exists req.
Qed.

(** The node on the deny-list is not selected. *)
Lemma select_respects_lists_witness :
  (forall deny, blacklist pickySelector = Some deny -> "https://cn3" ∉ deny)
  /\ passesSyncCheck upEnv "https://cn3" = true.
Proof.
  destruct (select_respects_lists upEnv true pickySelector
              (snd (select upEnv true pickySelector))
              (mkSelection (Some "https://cn1") ["https://cn3"]
                 [("https://cn1", "1.2.0"); ("https://cn3", "1.2.0")])
              "https://cn3") as (_ & _ & Hdeny & Hsync).
  - exact upEnv_answers.
  - vm_compute. reflexivity.
  - right. apply list_elem_of_singleton. reflexivity.
  - split; [exact Hdeny|]. apply Hsync. reflexivity.
Defined.

(** X20: the sync check lets an endpoint through exactly when its sync
    status could be read and either the endpoint has never seen the user
    (its latest block number is -1) while the user has a block number of at
    least 0, or it has seen the user and is not behind the later of the
    user's two block numbers.  The endpoints that pass keep their order; the
    others, and no endpoint beyond them, are added to the unhealthy ones. *)
Theorem sync_check_verdict (env : Env) (services : list string) (this : Selector) :
  (forall service,
      service ∈ fst (_performSyncChecks env services this)
      <-> service ∈ services
          /\ exists user latest,
               currentUser env = Some user
               /\ syncStatusRequest env service = Some latest
               /\ (if latest =? -1
                   then 0 <= Z.max (blocknumber user) (track_blocknumber user)
                   else Z.max (blocknumber user) (track_blocknumber user) <= latest))
  /\ sublist (fst (_performSyncChecks env services this)) services
  /\ (forall service,
        service ∈ unhealthy (snd (_performSyncChecks env services this))
        <-> service ∈ unhealthy this
            \/ (service ∈ services
                /\ service ∉ fst (_performSyncChecks env services this)))
  /\ decisionTree (snd (_performSyncChecks env services this))
     = decisionTree this ++ [StageServices FILTER_OUT_SYNC_IN_PROGRESS services].
Proof.
  unfold _performSyncChecks.
  destruct (syncCheckLoop_spec env services [] this) as (Hok & _ & _ & Ht & _ & Hu).
  destruct (syncCheckLoop _ [] this) as [ok this1]. cbn [fst snd] in *. subst ok.
  cbn [app].
  assert (Hpass : forall service,
    passesSyncCheck env service = true
    <-> exists user latest,
          currentUser env = Some user
          /\ syncStatusRequest env service = Some latest
          /\ (if latest =? -1
              then 0 <= Z.max (blocknumber user) (track_blocknumber user)
              else Z.max (blocknumber user) (track_blocknumber user) <= latest)).
  { intros service. unfold passesSyncCheck, creatorNode_getSyncStatus.
    destruct (currentUser env) as [user|]; [|split; [done|by intros (? & ? & ? & _)]].
    destruct (syncStatusRequest env service) as [latest|];
      [|split; [done|by intros (? & ? & _ & ? & _)]].
    cbn [isBehind isConfigured]. split.
    - intros H. exists user, latest. split; [done|]. split; [done|].
      destruct (Z.eqb_spec latest (-1)), (Z.ltb_spec latest
        (Z.max (blocknumber user) (track_blocknumber user))); simpl in H; try done; lia.
    - intros (user' & latest' & [= <-] & [= <-] & H).
      destruct (Z.eqb_spec latest (-1)), (Z.ltb_spec latest
        (Z.max (blocknumber user) (track_blocknumber user))); simpl; try done; lia. }
  split; [|split; [|split]].
  - intros service. rewrite filter_elem, Hpass. tauto.
  - clear. induction services as [|s services IH]; simpl; [constructor|].
    destruct (passesSyncCheck env s); by constructor.
  - intros service. cbn [push set_decisionTree unhealthy]. rewrite Hu, filter_elem.
    destruct (passesSyncCheck env service); split; intros [?|[? H]]; auto.
    + done.
    + exfalso. apply H. done.
    + right. split; [done|]. by intros [_ ?].
  - simpl. by rewrite Ht.
Qed.

(** X21: the decision tree of a selection that returned is the record of
    this selection alone, stage by stage: the registered endpoints, those
    that the allow-list keeps, those that the deny-list keeps, then (when
    the sync check is performed) the endpoints handed to the sync check, the
    endpoints handed to the health check and, last, the selection itself. *)
Theorem select_decision_tree (env : Env) (performSyncCheck : bool) (this this' : Selector)
    (sel : Selection) :
  select env performSyncCheck this = (Returned sel, this') ->
  exists registered,
    getServiceProviderList env = Some registered
    /\ decisionTree this'
       = [StageServices GET_ALL_SERVICES registered;
          StageServices FILTER_TO_WHITELIST
            (match whitelist this with
             | Some allow => filterToWhitelist allow registered
             | None => registered
             end);
          StageServices FILTER_FROM_BLACKLIST (candidates env false this registered)]
         ++ (if performSyncCheck
             then [StageServices FILTER_OUT_SYNC_IN_PROGRESS
                     (candidates env false this registered)]
             else [])
         ++ [StageServices FILTER_OUT_UNHEALTHY_AND_OUTDATED
               (candidates env performSyncCheck this registered);
             StageSelected (primary sel) (secondaries sel)
               (map fst (CreatorNodeSelection.services sel))]
    /\ map stageOf (decisionTree this')
       = [GET_ALL_SERVICES; FILTER_TO_WHITELIST; FILTER_FROM_BLACKLIST]
         ++ (if performSyncCheck then [FILTER_OUT_SYNC_IN_PROGRESS] else [])
         ++ [FILTER_OUT_UNHEALTHY_AND_OUTDATED; SELECT_PRIMARY_AND_SECONDARIES].
Proof.
  intros Hsel.
  apply select_inv in Hsel
    as (services & smap & this1 & Hc & _ & _ & Hm & _ & _ & _ & Htree).
  apply healthyCandidates_inv in Hc
    as (v & registered & _ & Hreg & _ & _ & _ & _ & Htree1 & _).
  exists registered. split; [done|].
  assert (Heq : decisionTree this'
       = [StageServices GET_ALL_SERVICES registered;
          StageServices FILTER_TO_WHITELIST
            (match whitelist this with
             | Some allow => filterToWhitelist allow registered
             | None => registered
             end);
          StageServices FILTER_FROM_BLACKLIST (candidates env false this registered)]
         ++ (if performSyncCheck
             then [StageServices FILTER_OUT_SYNC_IN_PROGRESS
                     (candidates env false this registered)]
             else [])
         ++ [StageServices FILTER_OUT_UNHEALTHY_AND_OUTDATED
               (candidates env performSyncCheck this registered);
             StageSelected (primary sel) (secondaries sel)
               (map fst (CreatorNodeSelection.services sel))]).
  { rewrite Htree, Htree1, Hm. by rewrite <- !app_assoc. }
  split; [exact Heq|]. rewrite Heq. by destruct performSyncCheck.
Qed.

(** The stages of the selection among three nodes. *)
Lemma select_decision_tree_witness :
  exists registered,
    getServiceProviderList upEnv = Some registered
    /\ map stageOf (decisionTree (snd (select upEnv true pickySelector)))
       = [GET_ALL_SERVICES; FILTER_TO_WHITELIST; FILTER_FROM_BLACKLIST]
         ++ [FILTER_OUT_SYNC_IN_PROGRESS]
         ++ [FILTER_OUT_UNHEALTHY_AND_OUTDATED; SELECT_PRIMARY_AND_SECONDARIES].
Proof.
  destruct (select_decision_tree upEnv true pickySelector
              (snd (select upEnv true pickySelector))
              (mkSelection (Some "https://cn1") ["https://cn3"]
                 [("https://cn1", "1.2.0"); ("https://cn3", "1.2.0")]))
    as (registered & Hreg & _ & Hstages).
  - vm_compute. reflexivity.
  - exists registered. split; [exact Hreg|exact Hstages].
Defined.

(** X27: the services map that [select] returns lists exactly the
    healthy nodes, each once: an endpoint is a key of the map exactly when it
    is the primary or one of the backups. *)
Theorem select_services_map (env : Env) (performSyncCheck : bool) (this this' : Selector)
    (sel : Selection) :
  select env performSyncCheck this = (Returned sel, this') ->
  NoDup (map fst (CreatorNodeSelection.services sel))
  /\ forall id, id ∈ map fst (CreatorNodeSelection.services sel)
                <-> primary sel = Some id \/ id ∈ backupsList this'.
Proof.
  intros Hsel.
  apply select_healthy in Hsel as (v & registered & _ & _ & _ & _ & Hp & Hb & _ & Hm).
  rewrite Hm, Hp, Hb.
  set (healthy := List.filter _ _).
  destruct (servicesMapOf_keys healthy []) as [Hnd Hk]; [constructor|].
  split; [exact Hnd|]. intros id. rewrite Hk.
  destruct (map request_id healthy) as [|p rest]; simpl.
  - split; [intros [H|H]; by apply elem_of_nil in H|]. intros [?|H]; [done|].
    by apply elem_of_nil in H.
  - rewrite elem_of_cons. split.
    + intros [H|[->|?]]; [by apply elem_of_nil in H|by left|by right].
    + intros [[= ->]|?]; right; [by left|by right].
Qed.

(** The services map of the selection among three nodes. *)
Lemma select_services_map_witness :
  NoDup (map fst [("https://cn1", "1.2.0"); ("https://cn3", "1.2.0")])
  /\ forall id, id ∈ map fst [("https://cn1", "1.2.0"); ("https://cn3", "1.2.0")]
                <-> Some "https://cn1" = Some id
                    \/ id ∈ backupsList (snd (select upEnv true pickySelector)).
Proof.
  apply (select_services_map upEnv true pickySelector
           (snd (select upEnv true pickySelector))
           (mkSelection (Some "https://cn1") ["https://cn3"]
              [("https://cn1", "1.2.0"); ("https://cn3", "1.2.0")])).
  vm_compute. reflexivity.
Defined.

(** The metrics loop throws at the first check whose URL cannot be
    parsed, that was not answered, whose answer has no data, or on which the
    callback throws. *)
Lemma metricsLoop_raised (env : Env) (healthCheck : string -> option string -> bool)
    (checked : list TimedRequest) :
  (exists e, metricsLoop env healthCheck checked = Raised e)
  <-> exists check,
        check ∈ checked
        /\ (validURL env (request_url check) = false
            \/ response check = None
            \/ exists hr, response check = Some hr
                 /\ (hr_data hr = None
                     \/ exists version, hr_data hr = Some version
                          /\ healthCheck (request_url check) version = false)).
Proof.
  induction checked as [|c checked IH]; simpl.
  - split; [by intros [? ?]|]. intros (check & Hin & _). by apply elem_of_nil in Hin.
  - destruct (validURL env (request_url c)) eqn:Hurl; simpl.
    2:{ split; [|by eexists]. intros _. exists c. split; [by left|by left]. }
    destruct (response c) as [hr|] eqn:Hresp.
    2:{ split; [|by eexists]. intros _. exists c. split; [by left|]. right. by left. }
    destruct (hr_data hr) as [version|] eqn:Hversion.
    2:{ split; [|by eexists]. intros _. exists c. split; [by left|]. right. right.
        exists hr. split; [done|by left]. }
    destruct (healthCheck (request_url c) version) eqn:Hcb.
    2:{ split; [|by eexists]. intros _. exists c. split; [by left|]. right. right.
        exists hr. split; [done|]. right. by exists version. }
    rewrite IH. split.
    + intros (check & Hin & Hbad). exists check. split; [by right|done].
    + intros (check & [->|Hin]%elem_of_cons & Hbad); [|by exists check].
      destruct Hbad as [?|[?|(hr' & Hhr' & [?|(version' & ? & ?)])]]; congruence.
Qed.

(** X22: [select] raises in these cases only: the current version or the
    list of registered providers cannot be read; a health check was answered
    without the data from which the version is read, or the comparison of
    its version with the current one throws; or the metrics block at the end
    of the health checks throws, which it does when no table of monitoring
    callbacks is set, or when a health-check callback is registered and
    there is a check whose URL cannot be parsed, that was not answered, or on
    which the callback itself throws.  It never raises for want of a healthy
    node. *)
Theorem select_raises_iff (env : Env) (performSyncCheck : bool) (this : Selector) :
  ((exists e, fst (select env performSyncCheck this) = Raised e)
   <-> getCurrentVersion env = None
       \/ getServiceProviderList env = None
       \/ exists v registered,
            getCurrentVersion env = Some v
            /\ getServiceProviderList env = Some registered
            /\ ((exists check,
                    check ∈ healthChecked env performSyncCheck this registered
                    /\ unreadableAnswer env v check)
                \/ monitoringCallbacks env = None
                \/ exists healthCheck,
                     monitoringCallbacks env = Some (Some healthCheck)
                     /\ exists check,
                          check ∈ healthChecked env performSyncCheck this registered
                          /\ (validURL env (request_url check) = false
                              \/ response check = None
                              \/ exists hr version,
                                   response check = Some hr
                                   /\ hr_data hr = Some version
                                   /\ healthCheck (request_url check) version = false)))
  /\ (fst (select env performSyncCheck this) = Raised GetServicesFailed
      <-> getCurrentVersion env = None \/ getServiceProviderList env = None).
Proof.
  assert (Hmetrics : forall v checked,
    Forall (fun r => ~ unreadableAnswer env v r) checked ->
    (exists e, recordMetrics env checked = Raised e)
    <-> monitoringCallbacks env = None
        \/ exists healthCheck,
             monitoringCallbacks env = Some (Some healthCheck)
             /\ exists check, check ∈ checked
                  /\ (validURL env (request_url check) = false
                      \/ response check = None
                      \/ exists hr version,
                           response check = Some hr
                           /\ hr_data hr = Some version
                           /\ healthCheck (request_url check) version = false)).
  { intros v checked Hall. unfold recordMetrics.
    destruct (monitoringCallbacks env) as [[healthCheck|]|].
    - rewrite metricsLoop_raised. split.
      + intros (check & Hin & Hbad). right. exists healthCheck. split; [done|].
        exists check. split; [done|].
        destruct Hbad as [?|[?|(hr & Hhr & [Hnone|(version & ? & ?)])]];
          [by left|right; by left| |right; right; by exists hr, version].
        rewrite Forall_forall in Hall. destruct (Hall check Hin).
        exists hr. split; [done|by left].
      + intros [?|(healthCheck' & Heq & check & Hin & Hbad)]; [done|].
        injection Heq as <-. exists check. split; [done|].
        destruct Hbad as [?|[?|(hr & version & ? & ? & ?)]];
          [by left|right; by left|right; right].
        exists hr. split; [done|]. right. by exists version.
    - split; [by intros [? ?]|]. intros [?|(? & ? & _)]; done.
    - split; [by left|by eexists]. }
  assert (Hnot : forall checked, recordMetrics env checked <> Raised GetServicesFailed).
  { intros checked. unfold recordMetrics.
    destruct (monitoringCallbacks env) as [[healthCheck|]|]; [|done|done].
    induction checked as [|c checked IH]; simpl; [done|].
    destruct (negb _); [done|]. destruct (response c) as [hr|]; [|done].
    destruct (hr_data hr); [|done]. by destruct (healthCheck _ _). }
  assert (Hrun :
    match getCurrentVersion env, getServiceProviderList env with
    | Some v, Some registered =>
        exists this3,
          currentVersion this3 = Some v
          /\ match fst (filterHealthy env
                         (healthChecked env performSyncCheck this registered) this3) with
             | Raised e => fst (select env performSyncCheck this) = Raised e
             | Returned _ =>
                 match recordMetrics env
                         (healthChecked env performSyncCheck this registered) with
                 | Raised e => fst (select env performSyncCheck this) = Raised e
                 | Returned _ =>
                     exists sel, fst (select env performSyncCheck this) = Returned sel
                 end
             end
    | _, _ => fst (select env performSyncCheck this) = Raised GetServicesFailed
    end).
  { unfold select, healthyCandidates, getServices.
    destruct (getCurrentVersion env) as [v|]; [|done].
    destruct (getServiceProviderList env) as [registered|]; [|done].
    cbn [whitelist blacklist clearUnhealthy clearBackups set_unhealthy setBackupsList
         set_decisionTree set_currentVersion push decisionTree].
    unfold healthChecked, candidates, healthRequests.
    destruct performSyncCheck.
    + unfold _performSyncChecks.
      match goal with
      | |- context [syncCheckLoop ?rs ?ok ?t] =>
          destruct (syncCheckLoop_spec env
                      (match blacklist this with
                       | Some deny =>
                           filterFromBlacklist deny
                             match whitelist this with
                             | Some allow => filterToWhitelist allow registered
                             | None => registered
                             end
                       | None =>
                           match whitelist this with
                           | Some allow => filterToWhitelist allow registered
                           | None => registered
                           end
                       end) ok t) as (Hok & (_ & _ & _ & Hto) & Hcv & _);
          destruct (syncCheckLoop rs ok t) as [ok' t']
      end.
      cbn [fst snd] in *. subst ok'. unfold _performHealthChecks.
      cbn [timeout push set_decisionTree]. rewrite Hto.
      cbn [timeout push set_decisionTree set_currentVersion clearUnhealthy clearBackups
           set_unhealthy setBackupsList app].
      match goal with
      | |- context [filterHealthy env ?c ?t] =>
          exists t; split; [exact Hcv|];
          destruct (filterHealthy env c t) as [[healthy|e] this4]
      end; cbn [fst]; [|done].
      destruct (recordMetrics env _) as [[]|e]; [cbv beta iota; by eexists|done].
    + unfold _performHealthChecks.
      cbn [timeout push set_decisionTree set_currentVersion clearUnhealthy clearBackups
           set_unhealthy setBackupsList app].
      match goal with
      | |- context [filterHealthy env ?c ?t] =>
          exists t; split; [reflexivity|];
          destruct (filterHealthy env c t) as [[healthy|e] this4]
      end; cbn [fst]; [|done].
      destruct (recordMetrics env _) as [[]|e]; [cbv beta iota; by eexists|done]. }
  destruct (getCurrentVersion env) as [v|] eqn:Hv.
  2:{ rewrite Hrun. split; split.
      - intros _. by left.
      - intros _. by eexists.
      - intros _. by left.
      - done. }
  destruct (getServiceProviderList env) as [registered|] eqn:Hreg.
  2:{ rewrite Hrun. split; split.
      - intros _. right. by left.
      - intros _. by eexists.
      - intros _. by right.
      - done. }
  destruct Hrun as (this3 & Hcur & Hrun).
  pose proof (filterHealthy_raised env
                (healthChecked env performSyncCheck this registered) this3 v Hcur)
    as Hfilter.
  specialize (Hnot (healthChecked env performSyncCheck this registered)).
  destruct (fst (filterHealthy env (healthChecked env performSyncCheck this registered)
                   this3)) as [healthy|e].
  - specialize (Hmetrics v _ Hfilter).
    destruct (recordMetrics env (healthChecked env performSyncCheck this registered))
      as [[]|e] eqn:Hm.
    + destruct Hrun as [sel Hsel]. rewrite Hsel. split; split.
      * intros [e He]. done.
      * intros [?|[?|(v' & registered' & Hv' & Hreg' & [Hbad|Hbad])]]; try done.
        -- injection Hv' as <-. injection Hreg' as <-.
           destruct Hbad as (check & Hin & Hbad).
           rewrite Forall_forall in Hfilter. by destruct (Hfilter check Hin).
        -- injection Hreg' as <-. apply Hmetrics in Hbad as [e He]. done.
      * done.
      * intros [?|?]; done.
    + rewrite Hrun. split; split.
      * intros _. right. right. exists v, registered. split; [done|]. split; [done|].
        right. apply Hmetrics. by eexists.
      * intros _. by eexists.
      * intros [= ->]. done.
      * intros [?|?]; done.
  - destruct Hfilter as (Hne & check & Hin & Hbad).
    rewrite Hrun. split; split.
    + intros _. right. right. exists v, registered. split; [done|]. split; [done|].
      left. by exists check.
    + intros _. by eexists.
    + intros [= ->]. done.
    + intros [?|?]; done.
Qed.

(** A node that answers the health check without data makes the selection
    raise, although two healthy nodes are registered. *)
Lemma select_raises_iff_witness :
  exists e, fst (select bareEnv true pickySelector) = Raised e.
Proof.
  apply (proj1 (select_raises_iff bareEnv true pickySelector)).
  right. right. exists "1.2.0", ["https://cn1"; "https://cn2"; "https://cn3"].
  split; [reflexivity|]. split; [reflexivity|]. left.
  exists (mkTimedRequest "https://cn3" "https://cn3/health_check/verbose"
            (Some (mkHealthResponse 200 None))).
  split.
  - vm_compute. right. left.
  - exists (mkHealthResponse 200 None). split; [reflexivity|]. left. reflexivity.
Defined.

End SelectionProperties.

(** ** The client's sync requests *)
Section ClientSync.
Import JS CreatorNode Data Effects Environment NodeSync Routes CreatorNodeClient.

(** [/sync] does not answer a request for exactly one wallet with a bad
    request. *)
Lemma sync_one_wallet (env : Env) (body' : SyncBody) (wallet' : string) (w : World) msg :
  wallet body' = [wallet'] ->
  fst (sync env body' w) <> Ok (errorResponseBadRequest msg).
Proof.
  intros Hws. unfold sync. rewrite Hws. cbn [List.length Nat.eqb Nat.ltb Nat.leb].
  destruct (match immediate body' with
            | ImmediateBool b => b
            | ImmediateString s => bool_decide (s = "true")
            | ImmediateAbsent => false
            end).
  - unfold bind, ret.
    destruct (_nodesync env [wallet'] (creator_node_endpoint body') w) as [[[e|]|e] w'];
      simpl; discriminate.
  - unfold bind, ret.
    destruct (enqueueSyncs [wallet'] (creator_node_endpoint body') w) as [[[]|e] w'];
      simpl; discriminate.
Qed.

(** X23: a request that [syncSecondary] sends is one that [/sync] does
    not reject as a bad request: it names exactly one wallet, the user's.
    It goes to the non-empty secondary given; with validation, that
    secondary is one of the secondaries of the user's endpoint string; the
    source endpoint is non-empty and, unless one is given, the primary of
    the user's endpoint string. *)
Theorem syncSecondary_request (user : CurrentUser) (secondary primary : option string)
    (immediate' validate : bool) (req : SyncRequest) :
  syncSecondary (Some user) secondary primary immediate' validate = Done (Some req) ->
  wallet (body req) = [cu_wallet user]
  /\ immediate (body req) = ImmediateBool immediate'
  /\ secondary = Some (baseURL req)
  /\ baseURL req <> EmptyString
  /\ creator_node_endpoint (body req) <> EmptyString
  /\ (validate = true -> baseURL req ∈ getSecondaries (cu_creator_node_endpoint user))
  /\ (truthy primary = true -> primary = Some (creator_node_endpoint (body req)))
  /\ (truthy primary = false ->
      getPrimary (cu_creator_node_endpoint user) = Some (creator_node_endpoint (body req)))
  /\ (forall env w msg,
        fst (sync env (body req) w) <> Ok (errorResponseBadRequest msg)).
Proof.
  unfold syncSecondary.
  set (primary' := if truthy primary then primary
                   else getPrimary (cu_creator_node_endpoint user)).
  destruct primary' as [p|] eqn:Hp; [|discriminate].
  destruct secondary as [s|]; [|discriminate].
  destruct (truthy (Some p)) eqn:Htp; [|discriminate].
  destruct (truthy (Some s)) eqn:Hts; [|discriminate].
  cbn [andb].
  destruct (negb validate || _) eqn:Hval; [|discriminate].
  intros [= <-]. cbn [body baseURL wallet immediate creator_node_endpoint].
  repeat split; try done.
  - intros ->. done.
  - intros ->. done.
  - intros ->. simpl in Hval. by apply bool_decide_eq_true_1 in Hval.
  - intros Ht. subst primary'. by rewrite Ht in Hp.
  - intros Ht. subst primary'. by rewrite Ht in Hp.
  - intros env w msg. by eapply sync_one_wallet.
Qed.

(** X24: the endpoint string that [buildEndpoint] makes for a user is
    the one [syncSecondary] needs: for a non-empty primary and secondaries
    without commas, a validated sync of any non-empty secondary of the list
    is sent to that secondary and names the primary as the source. *)
Theorem syncSecondary_of_built_endpoint (wallet' primary : string)
    (secondaries : list string) (secondary : string) (immediate' : bool) :
  primary <> EmptyString ->
  has_char comma primary = false ->
  Forall (fun x => has_char comma x = false) secondaries ->
  secondary ∈ secondaries ->
  secondary <> EmptyString ->
  syncSecondary (Some (mkCurrentUser wallet' (Some (buildEndpoint primary secondaries))))
    (Some secondary) None immediate' true
  = Done (Some (mkSyncRequest secondary
                  (mkSyncBody [wallet'] primary (ImmediateBool immediate') None))).
Proof.
  intros Hne Hp Hs Hin Hsne.
  unfold syncSecondary, buildEndpoint. cbn [cu_creator_node_endpoint cu_wallet].
  change (truthy None) with false. cbv iota.
  unfold getPrimary, getSecondaries.
  change "," with (String comma EmptyString).
  rewrite (join_truthy (String comma EmptyString) primary secondaries Hne).
  rewrite split_join by (by constructor).
  cbn [lookup list_lookup drop].
  assert (Htp : truthy (Some primary) = true) by (by destruct primary).
  assert (Hts : truthy (Some secondary) = true) by (by destruct secondary).
  rewrite Htp, Hts. cbn [andb negb orb].
  by rewrite (bool_decide_eq_true_2 _ Hin).
Qed.

(** A replica set of three. *)
Lemma syncSecondary_of_built_endpoint_witness :
  syncSecondary
    (Some (mkCurrentUser "0xabc" (Some (buildEndpoint "https://cn1"
                                          ["https://cn2"; "https://cn3"]))))
    (Some "https://cn3") None false true
  = Done (Some (mkSyncRequest "https://cn3"
                  (mkSyncBody ["0xabc"] "https://cn1" (ImmediateBool false) None))).
Proof.
  apply (syncSecondary_of_built_endpoint "0xabc" "https://cn1"
           ["https://cn2"; "https://cn3"] "https://cn3" false).
  - discriminate.
  - reflexivity.
  - repeat constructor.
  - right. left.
  - discriminate.
Defined.

(** The sync of a secondary of a replica set of three. *)
Lemma syncSecondary_request_witness :
  wallet (mkSyncBody ["0xabc"] "https://cn1" (ImmediateBool false) None) = ["0xabc"]
  /\ (forall env w msg,
        fst (sync env (mkSyncBody ["0xabc"] "https://cn1" (ImmediateBool false) None) w)
        <> Ok (errorResponseBadRequest msg)).
Proof.
  destruct (syncSecondary_request
              (mkCurrentUser "0xabc" (Some "https://cn1,https://cn2,https://cn3"))
              (Some "https://cn3") None false true
              (mkSyncRequest "https://cn3"
                 (mkSyncBody ["0xabc"] "https://cn1" (ImmediateBool false) None)))
    as (Hw & _ & _ & _ & _ & _ & _ & _ & Hsync).
  - vm_compute. reflexivity.
  - split; [exact Hw|exact Hsync].
Defined.

End ClientSync.

(** ** One step of replication *)
Section Replication.
Import JS Data Effects Environment NodeSync Routes ExportSpec SyncSpec PeerSpec Examples.
Import ReplicaSpec ReplicaExamples.

Lemma with_uuid_same (uuid : string) (records : list ClockRecord) :
  Forall (fun r => cr_cnodeUserUUID r = uuid) records ->
  map (with_uuid uuid) records = records.
Proof.
  induction 1 as [|r records Hr _ IH]; [done|].
  cbn [map]. rewrite IH. f_equal. destruct r as [u c s]. simpl in Hr. by subst.
Qed.

(** A run that returns no error has received an export. *)
Lemma nodesync_ok_fetched (env : Env) (ws : list string) (ep : string) (w : World) :
  fst (_nodesync env ws ep w) = Ok None ->
  exists L us, fetched env ws ep w = Some (L, us).
Proof.
  rewrite nodesync_unfold. unfold fetched.
  destruct (acquireLocks ws None w) as [[key|e] w1]; [|discriminate].
  rewrite syncBody_unfold.
  destruct (fetchExport env ws ep w1) as [[[L us]|e] w2]; [|discriminate].
  intros _. by exists L, us.
Qed.

(** The export that [fetchExport] accepts is the answer to the request for
    the wallets from the clock value after the local one. *)
Lemma fetchExport_users (env : Env) (ws : list string) (ep : string) (w w' : World)
    (L : Z) (us : list ExportedCNodeUser) :
  fetchExport env ws ep w = (Ok (L, us), w') ->
  let resp := axiosExport env ep
                (mkExportQueryParams ws (L + 1)
                   (if truthy (creatorNodeEndpoint env) then creatorNodeEndpoint env
                    else None)) in
  status resp = 200
  /\ exists body users,
       (data resp = Some body \/ (data resp = None /\ responseText resp = Some body))
       /\ cnodeUsers body = Some users
       /\ us = map snd users.
Proof.
  intros Hrun0. pose proof (fetchExport_localMax env ws ep w L us w' Hrun0) as HL.
  revert Hrun0.
  unfold fetchExport, findOneCNodeUser, bind, get, ret, throw, modify, external.
  destruct (fault env StFindOneCNodeUser); cbn [fst snd]; [discriminate|].
  destruct (fault env StAxiosExport); cbn [fst snd]; [discriminate|].
  assert (Hlocal : match
                     match ws !! 0%nat with
                     | Some k => head (filter (fun u => walletPublicKey u = k)
                                         (CNodeUsers (db w)))
                     | None => None
                     end
                   with Some u => clock u | None => -1 end = L).
  { rewrite HL. unfold localMaxClockValOf. by destruct (ws !! 0%nat). }
  rewrite Hlocal. cbv zeta.
  set (resp := axiosExport env ep _).
  destruct (Z.eqb_spec (status resp) 200) as [Hst|Hst]; cbn [negb]; [|discriminate].
  intros Hrest. split; [done|]. revert Hrest.
  destruct (data resp) as [body|] eqn:Hdata.
  - destruct (cnodeUsers body) as [users|] eqn:Hu; [|by destruct (ipfsIDObj body)].
    destruct (ipfsIDObj body) as [idObj|]; [|discriminate].
    destruct (addresses idObj) as [addrs|]; [|discriminate].
    destruct (_initBootstrapAndRefreshPeers env addrs _) as [[[]|e] w2]; [|discriminate].
    intros [= <- _]. exists body, users. split; [by left|done].
  - destruct (responseText resp) as [body|] eqn:Htext; [|discriminate].
    destruct (fault env StJsonParse); cbn [fst snd]; [discriminate|].
    destruct (cnodeUsers body) as [users|] eqn:Hu; [|by destruct (ipfsIDObj body)].
    destruct (ipfsIDObj body) as [idObj|]; [|discriminate].
    destruct (addresses idObj) as [addrs|]; [|discriminate].
    destruct (_initBootstrapAndRefreshPeers env addrs _) as [[[]|e] w2]; [|discriminate].
    intros [= <- _]. exists body, users. split; [by right|done].
Qed.

(** What a secondary fetches from a peer that runs [/export]: the bundle
    of what the peer holds for the requested wallets from the clock value
    after the local one. *)
Lemma fetched_from_peer (primaryEnv secondaryEnv : Env) (ws : list string) (ep : string)
    (primaryW secondaryW : World) (L : Z) (us : list ExportedCNodeUser) :
  exportsFrom secondaryEnv ep primaryEnv primaryW ->
  fetched secondaryEnv ws ep secondaryW = Some (L, us) ->
  exists source,
    us = map snd (exportData primaryEnv (mkExportQuery ws source (Some (L + 1)) None)
                    (db primaryW)).
Proof.
  intros Hpeer. unfold fetched.
  destruct (acquireLocks ws None secondaryW) as [[key|e] w1]; [|discriminate].
  destruct (fetchExport secondaryEnv ws ep w1) as [[[L' us']|e] w2] eqn:Hrun;
    [|discriminate].
  intros [= -> ->].
  apply fetchExport_users in Hrun as (Hst & body & users & Hdata & Husers & ->).
  rewrite Hpeer in Hst, Hdata. unfold queryOf in Hst, Hdata.
  cbn [qp_wallet_public_key qp_source_endpoint qp_clock_range_min] in Hst, Hdata.
  set (q := mkExportQuery ws _ (Some (L + 1)) None) in *.
  exists (source_endpoint q).
  destruct (export primaryEnv q primaryW) as [[[|exported ipfs|msg|e]|e] primaryW']
    eqn:Hexp; unfold responseOf in Hst, Hdata; cbn [fst status data responseText] in *;
    try discriminate; try (by destruct Hdata as [?|[_ ?]]).
  apply export_success in Hexp as [-> _].
  destruct Hdata as [[= <-]|[? _]]; [|done].
  cbn [cnodeUsers] in Husers. by injection Husers as <-.
Qed.

(** X25: a step of replication.  A secondary imports, without error,
    from a peer that answers the export request of [_nodesync] by [/export]
    of this code and stores the wallet once.  With [L] the local clock of the
    secondary before the import, its local clock afterwards is the clock of
    the primary when that lies within the configured range above [L], and
    [L] plus the range otherwise: the secondary never gets ahead of the
    primary and falls no further behind.  If its clock did not move, its
    database is unchanged; if it moved, its clock records are the ones it had
    followed by the primary's records of the user with a clock in the window
    from [L + 1] to [L] plus the range, in ascending clock order.  This holds
    when the secondary stores the wallet under no other UUID than the
    primary. *)
Theorem replication_step (primaryEnv secondaryEnv : Env) (wallet' ep : string)
    (primaryW secondaryW : World) (row : CNodeUser) :
  exportsFrom secondaryEnv ep primaryEnv primaryW ->
  filter (fun r => walletPublicKey r = wallet') (CNodeUsers (db primaryW)) = [row] ->
  (forall r, r ∈ CNodeUsers (db secondaryW) -> walletPublicKey r = wallet' ->
             cnodeUserUUID r = cnodeUserUUID row) ->
  fst (_nodesync secondaryEnv [wallet'] ep secondaryW) = Ok None ->
  exists records,
    localMaxClockValOf [wallet']
      (db (snd (_nodesync secondaryEnv [wallet'] ep secondaryW)))
    = Z.min (clock row)
        (localMaxClockValOf [wallet'] (db secondaryW) + maxExportClockValueRange primaryEnv)
    /\ localMaxClockValOf [wallet'] (db secondaryW)
       <= localMaxClockValOf [wallet']
            (db (snd (_nodesync secondaryEnv [wallet'] ep secondaryW)))
    /\ ascending records
    /\ (forall r, r ∈ records <->
          r ∈ ClockRecords (db primaryW)
          /\ cr_cnodeUserUUID r = cnodeUserUUID row
          /\ localMaxClockValOf [wallet'] (db secondaryW) + 1 <= cr_clock r
             <= localMaxClockValOf [wallet'] (db secondaryW)
                + maxExportClockValueRange primaryEnv)
    /\ (localMaxClockValOf [wallet']
          (db (snd (_nodesync secondaryEnv [wallet'] ep secondaryW)))
        = localMaxClockValOf [wallet'] (db secondaryW) ->
        db (snd (_nodesync secondaryEnv [wallet'] ep secondaryW)) = db secondaryW)
    /\ (localMaxClockValOf [wallet'] (db secondaryW)
        < localMaxClockValOf [wallet']
            (db (snd (_nodesync secondaryEnv [wallet'] ep secondaryW))) ->
        ClockRecords (db (snd (_nodesync secondaryEnv [wallet'] ep secondaryW)))
        = ClockRecords (db secondaryW) ++ records).
Proof.
  intros Hpeer Honce Huniq Hok.
  destruct (nodesync_ok_fetched secondaryEnv [wallet'] ep secondaryW Hok) as (L & us & Hf).
  rewrite <- (fetched_localMax secondaryEnv _ _ _ _ _ Hf).
  destruct (fetched_from_peer primaryEnv secondaryEnv [wallet'] ep primaryW secondaryW
              L us Hpeer Hf) as (source & Hus).
  set (q := mkExportQuery [wallet'] source (Some (L + 1)) None) in *.
  assert (Hrows : filter (fun u => walletPublicKey u ∈ wallet_public_key q)
                    (CNodeUsers (db primaryW)) = [row]).
  { rewrite <- Honce. apply list_filter_iff. intros r. simpl.
    by rewrite list_elem_of_singleton. }
  assert (Hlo : windowMin q = L + 1) by done.
  assert (Hhi : windowMax primaryEnv q = L + maxExportClockValueRange primaryEnv).
  { unfold windowMax. rewrite Hlo. simpl. lia. }
  assert (Hone : exists u, exportData primaryEnv q (db primaryW) = [(cnodeUserUUID row, u)]).
  { unfold exportData. rewrite Hrows.
    match goal with |- exists u, ?b = _ =>
      assert (Hkeys : map fst b = [cnodeUserUUID row])
    end.
    { unfold bundle. by rewrite !pushAll_keys. }
    match goal with |- exists u, ?b = _ => destruct b as [|[k u] [|? ?]] end;
      try discriminate.
    injection Hkeys as ->. by exists u. }
  destruct Hone as [u Hone].
  assert (Hin : (cnodeUserUUID row, u) ∈ exportData primaryEnv q (db primaryW)).
  { rewrite Hone. by left. }
  rewrite Hone in Hus. cbn [map snd] in Hus. subst us.
  unfold exportData in Hin.
  rewrite requestedClockRangeMinOf_eq, requestedClockRangeMaxOf_eq, Hrows in Hin.
  rewrite Hlo, Hhi in Hin.
  apply bundle_arrays in Hin as (_ & _ & _ & Hcr & row' & Hrow' & _ & Hid & Hw & Hclock).
  apply list_elem_of_singleton in Hrow'. subst row'.
  assert (Hwallet : walletPublicKey row = wallet').
  { assert (Hin : row ∈ filter (fun r => walletPublicKey r = wallet')
                          (CNodeUsers (db primaryW))) by (rewrite Honce; by left).
    by apply list_elem_of_filter in Hin as [? _]. }
  rewrite Hwallet in Hw.
  assert (Hclock' : e_clock u
                    = Z.min (clock row) (L + maxExportClockValueRange primaryEnv)).
  { rewrite Hclock. simpl.
    destruct (Z.gtb_spec (clock row) (L + maxExportClockValueRange primaryEnv)); lia. }
  destruct (nodesync_ok_run secondaryEnv [wallet'] ep secondaryW L [u] Hf Hok)
    as (key & w2 & w3 & Hdb2 & Hrun & Hdb).
  apply importFetchedCNodeUsers_ok in Hrun as [Hacc Hdb3].
  rewrite Hdb3, Hdb2 in Hdb. clear Hdb3 Hdb2 key w2 w3.
  apply Forall_inv in Hacc as (k & Hk' & _ & HL & _).
  exists (e_clockRecords u).
  rewrite <- Hclock'.
  assert (Hasc : ascending (e_clockRecords u)).
  { rewrite Hcr. eapply ascending_sublist; [apply sublist_filter|].
    apply findAllInRange_ascending. }
  assert (Hrec : forall r, r ∈ e_clockRecords u <->
            r ∈ ClockRecords (db primaryW)
            /\ cr_cnodeUserUUID r = cnodeUserUUID row
            /\ L + 1 <= cr_clock r <= L + maxExportClockValueRange primaryEnv).
  { intros r. rewrite Hcr, list_elem_of_filter, findAllInRange_elem. simpl.
    rewrite list_elem_of_singleton. split; [tauto|]. intros (? & Heq & ?). tauto. }
  destruct (Z.eq_dec (e_clock u) L) as [Heq|Hne].
  - rewrite filter_cons, decide_False, filter_nil in Hdb by lia.
    unfold applyAll in Hdb. cbn [fold_left] in Hdb.
    rewrite Hdb, <- (fetched_localMax secondaryEnv _ _ _ _ _ Hf).
    split; [done|]. split; [lia|]. split; [done|]. split; [done|].
    split; [done|]. intros ?. lia.
  - assert (Hlt : L < e_clock u) by lia.
    assert (Huniq' : forall row0, row0 ∈ CNodeUsers (db secondaryW) ->
              walletPublicKey row0 = wallet' -> cnodeUserUUID row0 = e_cnodeUserUUID u).
    { intros row0 ? ?. rewrite Hid. by apply Huniq. }
    pose proof (row_after_import secondaryEnv wallet' ep secondaryW L u Hf Hw Hlt Hok Huniq')
      as Hfound.
    assert (Hmax : localMaxClockValOf [wallet']
                     (db (snd (_nodesync secondaryEnv [wallet'] ep secondaryW)))
                   = e_clock u).
    { unfold localMaxClockValOf. simpl. by rewrite Hfound. }
    rewrite Hmax. split; [done|]. split; [lia|]. split; [done|]. split; [done|].
    split; [intros ?; lia|]. intros _.
    rewrite filter_cons, decide_True, filter_nil in Hdb by done.
    unfold applyAll in Hdb. cbn [fold_left] in Hdb.
    assert (Hall : Forall (fun r => cr_cnodeUserUUID r = e_cnodeUserUUID u)
                     (e_clockRecords u)).
    { rewrite Hcr, Hid. apply Forall_forall. intros r Hr.
      by apply list_elem_of_filter in Hr as [? _]. }
    rewrite Hdb. unfold applyFetched.
    cbn [ClockRecords db_addAudiusUsers db_addFiles db_addTracks db_addClockRecords
         db_upsertCNodeUser].
    by rewrite (with_uuid_same _ _ Hall).
Qed.

(** The secondary at clock 2 imports what the primary at clock 4 exports
    from clock 3 on. *)
Lemma replication_step_witness :
  localMaxClockValOf ["0xabc"]
    (db (snd (_nodesync replicaEnv ["0xabc"] "https://primary" secondaryWorld)))
  = Z.min 4 (2 + 1000).
Proof.
  destruct (replication_step exportEnv replicaEnv "0xabc" "https://primary"
              replicaPrimaryWorld secondaryWorld
              (mkCNodeUser "uuid-1" "0xabc" 0 120 4 0))
    as (records & Hmax & _).
  - intros p. reflexivity.
  - reflexivity.
  - intros r Hr _. apply list_elem_of_singleton in Hr. subst r. reflexivity.
  - vm_compute. reflexivity.
  - exact Hmax.
Defined.

End Replication.
